(** * slack: a client for Slack Incoming Webhooks

    A shallow embedding of [slack.go] (package [slack]) together with the
    parts of the Go standard library its behaviour rests on:
    [unicode/utf8], [unicode/utf16], [encoding/json], [fmt], [io/ioutil]
    and the observable surface of [net/http].

    Go strings and byte slices are sequences of bytes: they are embedded as
    [string], whose characters ([ascii]) are exactly the 256 byte values.
    Runes and machine integers are embedded as [Z]. *)

From Stdlib Require Import ZArith List String Ascii Bool Lia DecimalString.
From Stdlib Require DecimalPos DecimalZ.
Import ListNotations.

#[local] Set Warnings "-register-all".

Local Open Scope list_scope.
Local Open Scope string_scope.
Local Open Scope Z_scope.

(** ** Bytes and byte strings *)

Definition byte := ascii.

(** The numeric value of a byte, [0 <= val b < 256]. *)
Definition val (b : byte) : Z := Z.of_N (N_of_ascii b).

(** Go's conversion [byte(x)]: the low eight bits of [x]. *)
Definition chr (x : Z) : byte := ascii_of_N (Z.to_N (x mod 256)).

(** [s[:n]] and [s[n:]], clipped to the length of [s]. *)
Fixpoint take (n : nat) (s : string) : string :=
  match n, s with
  | S n', String b s' => String b (take n' s')
  | _, _ => ""
  end.

Fixpoint drop (n : nat) (s : string) : string :=
  match n, s with
  | S n', String _ s' => drop n' s'
  | _, _ => s
  end.

(** [s[i]] as a number; the callers below index inside the string. *)
Definition at_ (s : string) (i : nat) : Z :=
  match get i s with
  | Some b => val b
  | None => 0
  end.

(** A one-byte string. *)
Definition str1 (b : byte) : string := String b "".

(** The double quote character, byte 0x22. *)
Definition dquote : byte := chr 34.

(** [sq] rewrites every apostrophe of a literal into a double quote, so that
    JSON texts can be written down legibly: [sq "{'text':'hello'}"] is the
    byte string [{"text":"hello"}]. *)
Fixpoint sq (s : string) : string :=
  match s with
  | "" => ""
  | String b s' => String (if val b =? 39 then dquote else b) (sq s')
  end.

(** [strings.Contains(s, sub)]. *)
Fixpoint Contains (s sub : string) : bool :=
  prefix sub s ||
  match s with
  | "" => false
  | String _ s' => Contains s' sub
  end.

(** ** unicode/utf8 *)

Module utf8.

Definition RuneError : Z := 0xFFFD.
Definition RuneSelf : Z := 0x80.
Definition MaxRune : Z := 0x10FFFF.
Definition UTFMax : nat := 4.

Definition surrogateMin : Z := 0xD800.
Definition surrogateMax : Z := 0xDFFF.

Definition t2 : Z := 0xC0.
Definition t3 : Z := 0xE0.
Definition t4 : Z := 0xF0.
Definition tx : Z := 0x80.

Definition maskx : Z := 0x3F.
Definition mask2 : Z := 0x1F.
Definition mask3 : Z := 0x0F.
Definition mask4 : Z := 0x07.

Definition rune1Max : Z := 0x7F.
Definition rune2Max : Z := 0x7FF.
Definition rune3Max : Z := 0xFFFF.

Definition locb : Z := 0x80.
Definition hicb : Z := 0xBF.

(** Entries of the [first] table: the high nibble indexes [acceptRanges],
    the low three bits give the length of the sequence. *)
Definition xx : Z := 0xF1.
Definition as_ : Z := 0xF0.
Definition s1 : Z := 0x02.
Definition s2 : Z := 0x13.
Definition s3 : Z := 0x03.
Definition s4 : Z := 0x23.
Definition s5 : Z := 0x34.
Definition s6 : Z := 0x04.
Definition s7 : Z := 0x44.

(** The table [first [256]uint8], written by ranges of the index. *)
Definition first (b : Z) : Z :=
  if b <? 0x80 then as_
  else if b <? 0xC2 then xx
  else if b <? 0xE0 then s1
  else if b =? 0xE0 then s2
  else if b <? 0xED then s3
  else if b =? 0xED then s4
  else if b <? 0xF0 then s3
  else if b =? 0xF0 then s5
  else if b <? 0xF4 then s6
  else if b =? 0xF4 then s7
  else xx.

(** The table [acceptRanges [16]acceptRange] as pairs [(lo, hi)]. *)
Definition acceptRanges (i : Z) : Z * Z :=
  match i with
  | 0 => (locb, hicb)
  | 1 => (0xA0, hicb)
  | 2 => (locb, 0x9F)
  | 3 => (0x90, hicb)
  | 4 => (locb, 0x8F)
  | _ => (0, 0)
  end.

(** [DecodeRuneInString] (and [DecodeRune], which is the same function on
    a byte slice): the first rune of [s] and its width in bytes.  An
    invalid encoding gives [(RuneError, 1)], the empty string
    [(RuneError, 0)].  The source's branch-free mask for [x >= as] is
    written as the test [x == xx] it stands for. *)
Definition DecodeRuneInString (s : string) : Z * nat :=
  let n := length s in
  if (n <? 1)%nat then (RuneError, 0%nat) else
  let b0 := at_ s 0 in
  let x := first b0 in
  if x >=? as_ then ((if x =? xx then RuneError else b0), 1%nat) else
  let sz := Z.land x 7 in
  let accept := acceptRanges (Z.shiftr x 4) in
  if Z.of_nat n <? sz then (RuneError, 1%nat) else
  let b1 := at_ s 1 in
  if (b1 <? fst accept) || (snd accept <? b1) then (RuneError, 1%nat) else
  if sz <=? 2 then
    (Z.lor (Z.shiftl (Z.land b0 mask2) 6) (Z.land b1 maskx), 2%nat)
  else
  let b2 := at_ s 2 in
  if (b2 <? locb) || (hicb <? b2) then (RuneError, 1%nat) else
  if sz <=? 3 then
    (Z.lor (Z.lor (Z.shiftl (Z.land b0 mask3) 12)
                  (Z.shiftl (Z.land b1 maskx) 6))
           (Z.land b2 maskx), 3%nat)
  else
  let b3 := at_ s 3 in
  if (b3 <? locb) || (hicb <? b3) then (RuneError, 1%nat) else
  (Z.lor (Z.lor (Z.lor (Z.shiftl (Z.land b0 mask4) 18)
                       (Z.shiftl (Z.land b1 maskx) 12))
                (Z.shiftl (Z.land b2 maskx) 6))
         (Z.land b3 maskx), 4%nat).

(** [EncodeRune]: the UTF-8 encoding of [r]; a surrogate or a value above
    [MaxRune] is encoded as [RuneError] (EF BF BD).  Runes are never
    negative here. *)
Definition EncodeRune (r : Z) : string :=
  if r <=? rune1Max then str1 (chr r)
  else if r <=? rune2Max then
    String (chr (Z.lor t2 (Z.shiftr r 6)))
      (str1 (chr (Z.lor tx (Z.land (Z.shiftr r 0) maskx))))
  else if (r <? surrogateMin) || ((surrogateMax <? r) && (r <=? rune3Max)) then
    String (chr (Z.lor t3 (Z.shiftr r 12)))
      (String (chr (Z.lor tx (Z.land (Z.shiftr r 6) maskx)))
         (str1 (chr (Z.lor tx (Z.land (Z.shiftr r 0) maskx)))))
  else if (rune3Max <? r) && (r <=? MaxRune) then
    String (chr (Z.lor t4 (Z.shiftr r 18)))
      (String (chr (Z.lor tx (Z.land (Z.shiftr r 12) maskx)))
         (String (chr (Z.lor tx (Z.land (Z.shiftr r 6) maskx)))
            (str1 (chr (Z.lor tx (Z.land (Z.shiftr r 0) maskx))))))
  else
    String (chr 0xEF) (String (chr 0xBF) (str1 (chr 0xBD))).

(** [ValidString]: no position of [s] decodes to [(RuneError, 1)].  One
    round of its loop: the number of bytes to step over, or [None] at an
    invalid encoding. *)
Definition valid_body (s : string) : option nat :=
  if at_ s 0 <? RuneSelf then Some 1%nat
  else
    let '(_, size) := DecodeRuneInString s in
    if (size =? 1)%nat then None else Some size.

Fixpoint valid_from (fuel : nat) (s : string) : bool :=
  match fuel, s with
  | S fuel', String _ _ =>
      match valid_body s with
      | Some n => valid_from fuel' (drop n s)
      | None => false
      end
  | _, _ => true
  end.

Definition ValidString (s : string) : bool := valid_from (length s) s.

End utf8.

(** ** unicode/utf16 *)

Module utf16.

Definition surr1 : Z := 0xD800.
Definition surr2 : Z := 0xDC00.
Definition surr3 : Z := 0xE000.
Definition surrSelf : Z := 0x10000.
Definition replacementChar : Z := 0xFFFD.

Definition IsSurrogate (r : Z) : bool := (surr1 <=? r) && (r <? surr3).

Definition DecodeRune (r1 r2 : Z) : Z :=
  if (surr1 <=? r1) && (r1 <? surr2) && (surr2 <=? r2) && (r2 <? surr3)
  then Z.lor (Z.shiftl (r1 - surr1) 10) (r2 - surr2) + surrSelf
  else replacementChar.

End utf16.

(** ** strconv and fmt *)

(** [strconv.AppendInt(b, i, 10)]: the decimal digits of [i], with a
    leading minus sign when negative. *)
Definition AppendInt (i : Z) : string := NilZero.string_of_int (Z.to_int i).

(** [fmt.Sprintf] for formats whose only verb is [%s]; an argument is the
    text of a string or the message of an error. *)
Fixpoint Sprintf (format : string) (args : list string) : string :=
  match format with
  | String "%" (String "s" rest) =>
      match args with
      | a :: args' => a ++ Sprintf rest args'
      | [] => "%!s(MISSING)" ++ Sprintf rest []
      end
  | String b rest => String b (Sprintf rest args)
  | "" => ""
  end.

(** A Go [error] is observed through its message. *)
Definition error := string.

(** [fmt.Errorf]. *)
Definition Errorf (format : string) (args : list string) : error :=
  Sprintf format args.

(** ** The data model of slack.go *)

(** A slice is [nil] ([None]) or a sequence of elements. *)
Definition slice (A : Type) := option (list A).

Definition len {A : Type} (s : slice A) : nat :=
  match s with
  | None => 0%nat
  | Some l => List.length l
  end.

(** [AttachmentField], a field in an attachment. *)
Module AttachmentField.
Record t := mk {
  Title : string;
  Value : string;
  Short : bool
}.
End AttachmentField.

(** [Attachment], an attachment of a message; [Timestamp] is an [int64]. *)
Module Attachment.
Record t := mk {
  Fallback : string;
  Color : string;
  Pretext : string;
  AuthorName : string;
  AuthorLink : string;
  AuthorIcon : string;
  Title : string;
  TitleLink : string;
  Text : string;
  Fields : slice AttachmentField.t;
  ImageURL : string;
  ThumbURL : string;
  Footer : string;
  FooterIcon : string;
  Timestamp : Z;
  MrkdwnIn : slice string
}.
End Attachment.

(** [Message], a message sent via the Incoming Webhook API. *)
Module Message.
Record t := mk {
  Username : string;
  Channel : string;
  IconEmoji : string;
  IconURL : string;
  Text : string;
  Attachments : slice Attachment.t
}.
End Message.

(** ** encoding/json: the encoder *)

Module json.

Definition hex : string := "0123456789abcdef".

Definition hexdigit (i : Z) : byte :=
  match get (Z.to_nat i) hex with
  | Some b => b
  | None => "0"%char
  end.

(** The table [htmlSafeSet]: the ASCII bytes that are written as they are,
    that is 0x20 to 0x7F without the double quote, the ampersand, the
    angle brackets and the backslash. *)
Definition htmlSafeSet (b : Z) : bool :=
  (0x20 <=? b) && (b <? 0x80) &&
  negb ((b =? 0x22) || (b =? 0x26) || (b =? 0x3C) || (b =? 0x3E) || (b =? 0x5C)).

(** The escape written for an ASCII byte outside [htmlSafeSet] (the
    [switch b] of [appendString]).  Backspace and form feed have their
    short escapes, as in the current encoder; older releases wrote them as
    [\u0008] and [\u000c], which the decoder reads alike. *)
Definition escape (b : Z) : string :=
  if (b =? 0x5C) || (b =? 0x22) then String "\" (str1 (chr b))
  else if b =? 0x08 then "\b"
  else if b =? 0x0C then "\f"
  else if b =? 0x0A then "\n"
  else if b =? 0x0D then "\r"
  else if b =? 0x09 then "\t"
  else "\u00" ++ String (hexdigit (Z.shiftr b 4)) (str1 (hexdigit (Z.land b 0xF))).

(** One round of the loop of [appendString] with [escapeHTML] set, [src]
    being [src[i:]], not empty: what is written for the rune at its head
    and the number of bytes the rune takes.  The source copies the
    unescaped stretches [src[start:i]] in one go; here every rune is
    written when it is passed. *)
Definition appendString_body (src : string) : string * nat :=
  let b := at_ src 0 in
  if b <? utf8.RuneSelf then
    if htmlSafeSet b then (take 1 src, 1%nat) else (escape b, 1%nat)
  else
    let '(c, size) := utf8.DecodeRuneInString (take utf8.UTFMax src) in
    if (c =? utf8.RuneError) && (size =? 1)%nat then
      ("\u" ++ "fffd", size)
    else if (c =? 0x2028) || (c =? 0x2029) then
      ("\u202" ++ str1 (hexdigit (Z.land c 0xF)), size)
    else (take size src, size).

(** The loop itself.  Each round consumes at least one byte, so
    [length src] rounds are enough. *)
Fixpoint appendString_loop (fuel : nat) (src : string) : string :=
  match fuel, src with
  | S fuel', String _ _ =>
      let '(out, n) := appendString_body src in
      out ++ appendString_loop fuel' (drop n src)
  | _, _ => ""
  end.

(** [appendString(dst, src, true)]: the JSON string literal for [src]. *)
Definition appendString (src : string) : string :=
  String dquote (appendString_loop (length src) src ++ str1 dquote).

(** What the struct encoder needs of a field's value: whether it is empty
    ([isEmptyValue]) and its encoding. *)
Record fieldValue := {
  isEmptyValue : bool;
  encoded : string
}.

Definition stringValue (s : string) : fieldValue :=
  {| isEmptyValue := (length s =? 0)%nat; encoded := appendString s |}.

Definition intValue (i : Z) : fieldValue :=
  {| isEmptyValue := i =? 0; encoded := AppendInt i |}.

Definition boolValue (b : bool) : fieldValue :=
  {| isEmptyValue := negb b; encoded := if b then "true" else "false" |}.

(** [sliceEncoder]/[arrayEncoder]: [null] for a nil slice, otherwise the
    elements between brackets, separated by commas. *)
Definition sliceValue {A : Type} (enc : A -> string) (s : slice A) : fieldValue :=
  {| isEmptyValue := (len s =? 0)%nat;
     encoded := match s with
                | None => "null"
                | Some l => "[" ++ concat "," (map enc l) ++ "]"
                end |}.

(** [parseTag]: a struct tag is a name followed by comma-separated
    options. *)
Fixpoint cut (sep : byte) (s : string) : string * option string :=
  match s with
  | "" => ("", None)
  | String b s' =>
      if Ascii.eqb b sep then ("", Some s')
      else let '(l, r) := cut sep s' in (String b l, r)
  end.

Fixpoint tagOptions_Contains (fuel : nat) (o : string) (optionName : string) : bool :=
  match fuel with
  | O => false
  | S fuel' =>
      match cut ","%char o with
      | (name, None) => String.eqb name optionName
      | (name, Some o') =>
          String.eqb name optionName || tagOptions_Contains fuel' o' optionName
      end
  end.

Record field := {
  name : string;
  omitEmpty : bool;
  fv : fieldValue
}.

(** A field declared with the tag [json:"<tag>"] and holding [v]. *)
Definition tagged (tag : string) (v : fieldValue) : field :=
  let '(n, opts) := cut ","%char tag in
  {| name := n;
     omitEmpty := match opts with
                  | Some o => tagOptions_Contains (S (length o)) o "omitempty"
                  | None => false
                  end;
     fv := v |}.

(** The fields really written: [omitEmpty && isEmptyValue(fv)] skips. *)
Definition written (f : field) : bool :=
  negb (omitEmpty f && isEmptyValue (fv f)).

(** [structEncoder.encode]: [next] is the separator to write before the
    next field, an opening brace at first and a comma afterwards. *)
Fixpoint structFields (next : string) (fs : list field) : string :=
  match fs with
  | [] => if String.eqb next "{" then "{}" else "}"
  | f :: fs' =>
      if omitEmpty f && isEmptyValue (fv f) then structFields next fs'
      else next ++ appendString (name f) ++ ":" ++ encoded (fv f)
                ++ structFields "," fs'
  end.

Definition structEncoder (fs : list field) : string := structFields "{" fs.

Definition fields_AttachmentField (f : AttachmentField.t) : list field :=
  [ tagged "title,omitempty" (stringValue (AttachmentField.Title f));
    tagged "value,omitempty" (stringValue (AttachmentField.Value f));
    tagged "short,omitempty" (boolValue (AttachmentField.Short f)) ].

Definition marshal_AttachmentField (f : AttachmentField.t) : string :=
  structEncoder (fields_AttachmentField f).

Definition fields_Attachment (a : Attachment.t) : list field :=
  [ tagged "fallback,omitempty" (stringValue (Attachment.Fallback a));
    tagged "color,omitempty" (stringValue (Attachment.Color a));
    tagged "pretext,omitempty" (stringValue (Attachment.Pretext a));
    tagged "author_name,omitempty" (stringValue (Attachment.AuthorName a));
    tagged "author_link,omitempty" (stringValue (Attachment.AuthorLink a));
    tagged "author_icon,omitempty" (stringValue (Attachment.AuthorIcon a));
    tagged "title,omitempty" (stringValue (Attachment.Title a));
    tagged "title_link,omitempty" (stringValue (Attachment.TitleLink a));
    tagged "text,omitempty" (stringValue (Attachment.Text a));
    tagged "fields,omitempty"
      (sliceValue marshal_AttachmentField (Attachment.Fields a));
    tagged "image_url,omitempty" (stringValue (Attachment.ImageURL a));
    tagged "thumb_url,omitempty" (stringValue (Attachment.ThumbURL a));
    tagged "footer,omitempty" (stringValue (Attachment.Footer a));
    tagged "footer_icon,omitempty" (stringValue (Attachment.FooterIcon a));
    tagged "ts,omitempty" (intValue (Attachment.Timestamp a));
    tagged "mrkdwn_in,omitempty" (sliceValue appendString (Attachment.MrkdwnIn a)) ].

Definition marshal_Attachment (a : Attachment.t) : string :=
  structEncoder (fields_Attachment a).

Definition fields_Message (m : Message.t) : list field :=
  [ tagged "username,omitempty" (stringValue (Message.Username m));
    tagged "channel,omitempty" (stringValue (Message.Channel m));
    tagged "icon_emoji,omitempty" (stringValue (Message.IconEmoji m));
    tagged "icon_url,omitempty" (stringValue (Message.IconURL m));
    tagged "text,omitempty" (stringValue (Message.Text m));
    tagged "attachments,omitempty"
      (sliceValue marshal_Attachment (Message.Attachments m)) ].

(** [json.Marshal] of a [Message]: its JSON encoding. *)
Definition Marshal (m : Message.t) : string :=
  structEncoder (fields_Message m).

(** [json.NewEncoder(&b).Encode(message)]: what is written to the buffer
    is the JSON encoding followed by a newline; no value of type
    [Message] makes the encoder fail. *)
Definition Encode (m : Message.t) : string + error :=
  inl (Marshal m ++ str1 (chr 10)).

(** The keys of the JSON object written for a struct. *)
Definition keys (fs : list field) : list string :=
  map name (filter written fs).

(** *** The decoder *)

(** A parsed JSON text.  A number keeps its literal, as the decoder
    converts it only when it knows the type of the destination. *)
Inductive value : Type :=
| Null
| Bool (b : bool)
| Number (lit : string)
| Str (s : string)
| Array (elems : list value)
| Object (members : list (string * value)).

(** [isSpace] of the scanner: space, tab, carriage return, line feed. *)
Definition isSpace (c : Z) : bool :=
  (c =? 0x20) || (c =? 0x09) || (c =? 0x0D) || (c =? 0x0A).

Fixpoint skipSpace (s : string) : string :=
  match s with
  | String b s' => if isSpace (val b) then skipSpace s' else s
  | "" => ""
  end.

Definition isDigit (c : Z) : bool := (0x30 <=? c) && (c <=? 0x39).

(** The value of a hexadecimal digit (the [switch] of [getu4]). *)
Definition hexval (c : Z) : option Z :=
  if (0x30 <=? c) && (c <=? 0x39) then Some (c - 0x30)
  else if (0x61 <=? c) && (c <=? 0x66) then Some (c - 0x61 + 10)
  else if (0x41 <=? c) && (c <=? 0x46) then Some (c - 0x41 + 10)
  else None.

Definition isHex (c : Z) : bool :=
  match hexval c with
  | Some _ => true
  | None => false
  end.

(** The scanner inside a string literal (the states [stateInString],
    [stateInStringEsc] and [stateInStringEscU] to [...U123]): from just
    after the opening quote, the inside of the literal, escapes not yet
    decoded, and what follows the closing quote. *)
Fixpoint scanString (s : string) : option (string * string) :=
  match s with
  | "" => None
  | String b s' =>
      if val b =? 0x22 then Some ("", s')
      else if val b =? 0x5C then
        match s' with
        | "" => None
        | String e s'' =>
            if (val e =? 0x62) || (val e =? 0x66) || (val e =? 0x6E)
               || (val e =? 0x72) || (val e =? 0x74) || (val e =? 0x5C)
               || (val e =? 0x2F) || (val e =? 0x22)
            then
              match scanString s'' with
              | Some (lit, r) => Some (String b (String e lit), r)
              | None => None
              end
            else if val e =? 0x75 then
              match s'' with
              | String h1 (String h2 (String h3 (String h4 s5))) =>
                  if isHex (val h1) && isHex (val h2)
                     && isHex (val h3) && isHex (val h4)
                  then
                    match scanString s5 with
                    | Some (lit, r) =>
                        Some (String b (String e (String h1 (String h2
                                (String h3 (String h4 lit))))), r)
                    | None => None
                    end
                  else None
              | _ => None
              end
            else None
        end
      else if val b <? 0x20 then None
      else
        match scanString s' with
        | Some (lit, r) => Some (String b lit, r)
        | None => None
        end
  end.

(** [getu4]: the rune of a [\uXXXX] escape at the head of [s], or -1. *)
Definition getu4 (s : string) : Z :=
  if (length s <? 6)%nat || negb (at_ s 0 =? 0x5C) || negb (at_ s 1 =? 0x75)
  then -1
  else
    match hexval (at_ s 2), hexval (at_ s 3), hexval (at_ s 4), hexval (at_ s 5) with
    | Some a, Some b, Some c, Some d => ((a * 16 + b) * 16 + c) * 16 + d
    | _, _, _, _ => -1
    end.

(** One round of the first loop of [unquoteBytes]: the number of bytes
    to step over, or 0 at a byte that needs work (a backslash, a quote, a
    control character or invalid UTF-8). *)
Definition plain_body (s : string) : nat :=
  let c := at_ s 0 in
  if (c =? 0x5C) || (c =? 0x22) || (c <? 0x20) then 0%nat
  else if c <? utf8.RuneSelf then 1%nat
  else
    let '(rr, size) := utf8.DecodeRuneInString s in
    if (rr =? utf8.RuneError) && (size =? 1)%nat then 0%nat else size.

(** The first loop: the index [r] at which it stops. *)
Fixpoint plainPrefix (fuel : nat) (s : string) : nat :=
  match fuel, s with
  | S fuel', String _ _ =>
      match plain_body s with
      | O => 0%nat
      | S _ as n => (n + plainPrefix fuel' (drop n s))%nat
      end
  | _, _ => 0%nat
  end.

(** One round of the second loop of [unquoteBytes], [s] being [s[r:]], not
    empty: the bytes written and the number of bytes consumed, or [None]
    where the source returns [ok = false].  Escapes are decoded and every
    other rune is coerced to well-formed UTF-8. *)
Definition unquote_body (s : string) : option (string * nat) :=
  let c := at_ s 0 in
  if c =? 0x5C then
    if (length s <? 2)%nat then None
    else
      let e := at_ s 1 in
      if (e =? 0x22) || (e =? 0x5C) || (e =? 0x2F) || (e =? 0x27)
      then Some (str1 (chr e), 2%nat)
      else if e =? 0x62 then Some (str1 (chr 0x08), 2%nat)
      else if e =? 0x66 then Some (str1 (chr 0x0C), 2%nat)
      else if e =? 0x6E then Some (str1 (chr 0x0A), 2%nat)
      else if e =? 0x72 then Some (str1 (chr 0x0D), 2%nat)
      else if e =? 0x74 then Some (str1 (chr 0x09), 2%nat)
      else if e =? 0x75 then
        let rr := getu4 s in
        if rr <? 0 then None
        else if utf16.IsSurrogate rr then
          let rr1 := getu4 (drop 6 s) in
          let dec := utf16.DecodeRune rr rr1 in
          if negb (dec =? utf16.replacementChar) then
            Some (utf8.EncodeRune dec, 12%nat)
          else Some (utf8.EncodeRune utf16.replacementChar, 6%nat)
        else Some (utf8.EncodeRune rr, 6%nat)
      else None
  else if (c =? 0x22) || (c <? 0x20) then None
  else if c <? utf8.RuneSelf then Some (str1 (chr c), 1%nat)
  else
    let '(rr, size) := utf8.DecodeRuneInString s in
    Some (utf8.EncodeRune rr, size).

(** The second loop. *)
Fixpoint unquote_loop (fuel : nat) (s : string) : option string :=
  match s with
  | "" => Some ""
  | String _ _ =>
      match fuel with
      | O => None
      | S fuel' =>
          match unquote_body s with
          | Some (out, n) =>
              option_map (append out) (unquote_loop fuel' (drop n s))
          | None => None
          end
      end
  end.

(** [unquoteBytes], on the inside of a literal. *)
Definition unquote (s : string) : option string :=
  let r := plainPrefix (length s) s in
  if (r =? length s)%nat then Some s
  else option_map (append (take r s)) (unquote_loop (length s) (drop r s)).

(** A string literal at the head of [s], after its opening quote. *)
Definition parseString (s : string) : option (string * string) :=
  match scanString s with
  | Some (lit, r) =>
      match unquote lit with
      | Some t => Some (t, r)
      | None => None
      end
  | None => None
  end.

(** The longest run of digits at the head of [s], and the rest. *)
Fixpoint digits (s : string) : string * string :=
  match s with
  | String b s' =>
      if isDigit (val b) then let '(d, r) := digits s' in (String b d, r)
      else ("", s)
  | "" => ("", "")
  end.

(** The scanner on a number: an optional minus sign, an integer part
    without superfluous zeros, an optional fraction, an optional
    exponent. *)
Definition scanNumber (s : string) : option (string * string) :=
  let '(sign, s0) :=
    match s with
    | String b s' => if val b =? 0x2D then ("-", s') else ("", s)
    | "" => ("", s)
    end in
  let '(int, s1) :=
    match s0 with
    | String b s' => if val b =? 0x30 then ("0", s') else digits s0
    | "" => ("", s0)
    end in
  if (length int =? 0)%nat then None
  else
    let frac :=
      match s1 with
      | String b s' =>
          if val b =? 0x2E then
            let '(d, r) := digits s' in
            if (length d =? 0)%nat then None else Some (String b d, r)
          else Some ("", s1)
      | "" => Some ("", s1)
      end in
    match frac with
    | None => None
    | Some (f, s2) =>
        let exp :=
          match s2 with
          | String b s' =>
              if (val b =? 0x65) || (val b =? 0x45) then
                let '(sg, s3) :=
                  match s' with
                  | String g s'' =>
                      if (val g =? 0x2B) || (val g =? 0x2D)
                      then (str1 g, s'') else ("", s')
                  | "" => ("", s')
                  end in
                let '(d, r) := digits s3 in
                if (length d =? 0)%nat then None
                else Some (String b (sg ++ d), r)
              else Some ("", s2)
          | "" => Some ("", s2)
          end in
        match exp with
        | None => None
        | Some (e, s4) => Some (sign ++ int ++ f ++ e, s4)
        end
    end.

(** [expect lit v s]: the literal [lit] at the head of [s]. *)
Definition expect (lit : string) (v : value) (s : string) : option (value * string) :=
  if prefix lit s then Some (v, drop (length lit) s) else None.

(** One JSON value at the head of [s], and what follows it.  Every call
    consumes input, so a budget of [length s] nested calls suffices. *)
Fixpoint parseValue (fuel : nat) (s : string) : option (value * string) :=
  match fuel with
  | O => None
  | S fuel' =>
      match s with
      | "" => None
      | String c rest =>
          if val c =? 0x7B then
            match skipSpace rest with
            | String c' r =>
                if val c' =? 0x7D then Some (Object [], r)
                else
                  match parseMembers fuel' (skipSpace rest) with
                  | Some (ms, r') => Some (Object ms, r')
                  | None => None
                  end
            | "" => None
            end
          else if val c =? 0x5B then
            match skipSpace rest with
            | String c' r =>
                if val c' =? 0x5D then Some (Array [], r)
                else
                  match parseElements fuel' (skipSpace rest) with
                  | Some (vs, r') => Some (Array vs, r')
                  | None => None
                  end
            | "" => None
            end
          else if val c =? 0x22 then
            match parseString rest with
            | Some (t, r) => Some (Str t, r)
            | None => None
            end
          else if val c =? 0x74 then expect "true" (Bool true) s
          else if val c =? 0x66 then expect "false" (Bool false) s
          else if val c =? 0x6E then expect "null" Null s
          else if (val c =? 0x2D) || isDigit (val c) then
            match scanNumber s with
            | Some (lit, r) => Some (Number lit, r)
            | None => None
            end
          else None
      end
  end

with parseMembers (fuel : nat) (s : string) : option (list (string * value) * string) :=
  match fuel with
  | O => None
  | S fuel' =>
      match s with
      | String q rest =>
          if val q =? 0x22 then
            match parseString rest with
            | Some (key, r) =>
                match skipSpace r with
                | String c r1 =>
                    if val c =? 0x3A then
                      match parseValue fuel' (skipSpace r1) with
                      | Some (v, r2) =>
                          match skipSpace r2 with
                          | String d r3 =>
                              if val d =? 0x2C then
                                match parseMembers fuel' (skipSpace r3) with
                                | Some (ms, r4) => Some ((key, v) :: ms, r4)
                                | None => None
                                end
                              else if val d =? 0x7D then Some ([(key, v)], r3)
                              else None
                          | "" => None
                          end
                      | None => None
                      end
                    else None
                | "" => None
                end
            | None => None
            end
          else None
      | "" => None
      end
  end

with parseElements (fuel : nat) (s : string) : option (list value * string) :=
  match fuel with
  | O => None
  | S fuel' =>
      match parseValue fuel' s with
      | Some (v, r) =>
          match skipSpace r with
          | String d r1 =>
              if val d =? 0x2C then
                match parseElements fuel' (skipSpace r1) with
                | Some (vs, r2) => Some (v :: vs, r2)
                | None => None
                end
              else if val d =? 0x5D then Some ([v], r1)
              else None
          | "" => None
          end
      | None => None
      end
  end.

(** A whole JSON text: one value between optional white space
    ([checkValid] followed by the decoding pass). *)
Definition parse (data : string) : option value :=
  match parseValue (S (length data)) (skipSpace data) with
  | Some (v, rest) =>
      match skipSpace rest with
      | "" => Some v
      | String _ _ => None
      end
  | None => None
  end.

(** [foldName]: the key under which field names are compared when no
    name matches exactly.  ASCII letters are folded to upper case; of
    the other runes only U+017F and U+212A fold to ASCII letters (S and
    K). *)
Definition foldName_body (s : string) : string * nat :=
  let c := at_ s 0 in
  if c <? utf8.RuneSelf then
    (str1 (if (0x61 <=? c) && (c <=? 0x7A) then chr (c - 0x20) else chr c), 1%nat)
  else
    let '(rr, size) := utf8.DecodeRuneInString s in
    if rr =? 0x17F then ("S", size)
    else if rr =? 0x212A then ("K", size)
    else (take size s, size).

Fixpoint foldName (fuel : nat) (s : string) : string :=
  match fuel, s with
  | S fuel', String _ _ =>
      let '(out, n) := foldName_body s in
      out ++ foldName fuel' (drop n s)
  | _, _ => ""
  end.

Definition folded (s : string) : string := foldName (length s) s.

(** The field of a struct that a key addresses: the one of that exact
    name, else the first whose name is equal under folding. *)
Definition fieldOf (names : list string) (key : string) : option string :=
  if existsb (String.eqb key) names then Some key
  else find (fun n => String.eqb (folded n) (folded key)) names.

(** The value a field holds after the members [ms] were stored in order:
    each member that addresses the field is stored over what the field
    held before; a member that does not fit the field's type makes the
    decoding fail. *)
Fixpoint decodeField {A : Type} (names : list string) (name : string)
    (store : value -> A -> option A) (ms : list (string * value)) (old : A)
  : option A :=
  match ms with
  | [] => Some old
  | (k, v) :: ms' =>
      match fieldOf names k with
      | Some n =>
          if String.eqb n name then
            match store v old with
            | Some new => decodeField names name store ms' new
            | None => None
            end
          else decodeField names name store ms' old
      | None => decodeField names name store ms' old
      end
  end.

(** [literalStore] and friends, by the kind of the destination: [null]
    leaves strings, booleans and numbers as they are and makes a slice
    nil. *)
Definition store_string (v : value) (old : string) : option string :=
  match v with
  | Str s => Some s
  | Null => Some old
  | _ => None
  end.

Definition store_bool (v : value) (old : bool) : option bool :=
  match v with
  | Bool b => Some b
  | Null => Some old
  | _ => None
  end.

(** [strconv.ParseInt(lit, 10, 64)] on a JSON number literal. *)
Definition ParseInt (lit : string) : option Z :=
  match NilZero.int_of_string lit with
  | Some d =>
      let z := Z.of_int d in
      if (- 2 ^ 63 <=? z) && (z <? 2 ^ 63) then Some z else None
  | None => None
  end.

Definition store_int (v : value) (old : Z) : option Z :=
  match v with
  | Number lit => ParseInt lit
  | Null => Some old
  | _ => None
  end.

(** The loop of [decodeState.array] on a slice: the element of index [i]
    of the array is decoded into the element the slice holds at [i], and
    into a zero value where the slice is shorter (its backing array
    holding nothing beyond its length); [old] is the slice from [i] on. *)
Fixpoint array_elements {A : Type} (elem : value -> A -> option A) (zero : A)
    (vs : list value) (old : list A) : option (list A) :=
  match vs with
  | [] => Some []
  | v :: vs' =>
      match elem v (hd zero old), array_elements elem zero vs' (tl old) with
      | Some y, Some ys => Some (y :: ys)
      | _, _ => None
      end
  end.

(** An array stored into a slice: the slice ends up with as many elements
    as the array has, an empty array giving an empty slice that is not
    nil. *)
Definition store_slice {A : Type} (elem : value -> A -> option A) (zero : A)
    (v : value) (old : slice A) : option (slice A) :=
  match v with
  | Array vs =>
      option_map Some
        (array_elements elem zero vs (match old with Some l => l | None => [] end))
  | Null => Some None
  | _ => None
  end.

Definition names_AttachmentField : list string := ["title"; "value"; "short"].

Definition unmarshal_AttachmentField (v : value) (old : AttachmentField.t)
  : option AttachmentField.t :=
  match v with
  | Object ms =>
      let get {A} name (store : value -> A -> option A) (init : A) :=
        decodeField names_AttachmentField name store ms init in
      match get "title" store_string (AttachmentField.Title old),
            get "value" store_string (AttachmentField.Value old),
            get "short" store_bool (AttachmentField.Short old) with
      | Some t, Some v, Some s => Some (AttachmentField.mk t v s)
      | _, _, _ => None
      end
  | Null => Some old
  | _ => None
  end.

Definition zero_AttachmentField : AttachmentField.t :=
  AttachmentField.mk "" "" false.

Definition names_Attachment : list string :=
  ["fallback"; "color"; "pretext"; "author_name"; "author_link";
   "author_icon"; "title"; "title_link"; "text"; "fields"; "image_url";
   "thumb_url"; "footer"; "footer_icon"; "ts"; "mrkdwn_in"].

Definition unmarshal_Attachment (v : value) (old : Attachment.t)
  : option Attachment.t :=
  match v with
  | Object ms =>
      let get {A} name (store : value -> A -> option A) (init : A) :=
        decodeField names_Attachment name store ms init in
      let str name init := get name store_string init in
      match str "fallback" (Attachment.Fallback old),
            str "color" (Attachment.Color old),
            str "pretext" (Attachment.Pretext old),
            str "author_name" (Attachment.AuthorName old),
            str "author_link" (Attachment.AuthorLink old),
            str "author_icon" (Attachment.AuthorIcon old),
            str "title" (Attachment.Title old),
            str "title_link" (Attachment.TitleLink old) with
      | Some fallback, Some color, Some pretext, Some author_name,
        Some author_link, Some author_icon, Some title, Some title_link =>
          match str "text" (Attachment.Text old),
                get "fields"
                  (store_slice unmarshal_AttachmentField zero_AttachmentField)
                  (Attachment.Fields old),
                str "image_url" (Attachment.ImageURL old),
                str "thumb_url" (Attachment.ThumbURL old),
                str "footer" (Attachment.Footer old),
                str "footer_icon" (Attachment.FooterIcon old),
                get "ts" store_int (Attachment.Timestamp old),
                get "mrkdwn_in" (store_slice store_string "")
                  (Attachment.MrkdwnIn old) with
          | Some text, Some fields, Some image_url, Some thumb_url,
            Some footer, Some footer_icon, Some ts, Some mrkdwn_in =>
              Some (Attachment.mk fallback color pretext author_name
                      author_link author_icon title title_link text fields
                      image_url thumb_url footer footer_icon ts mrkdwn_in)
          | _, _, _, _, _, _, _, _ => None
          end
      | _, _, _, _, _, _, _, _ => None
      end
  | Null => Some old
  | _ => None
  end.

Definition zero_Attachment : Attachment.t :=
  Attachment.mk "" "" "" "" "" "" "" "" "" None "" "" "" "" 0 None.

Definition names_Message : list string :=
  ["username"; "channel"; "icon_emoji"; "icon_url"; "text"; "attachments"].

Definition unmarshal_Message (v : value) (old : Message.t) : option Message.t :=
  match v with
  | Object ms =>
      let get {A} name (store : value -> A -> option A) (init : A) :=
        decodeField names_Message name store ms init in
      match get "username" store_string (Message.Username old),
            get "channel" store_string (Message.Channel old),
            get "icon_emoji" store_string (Message.IconEmoji old),
            get "icon_url" store_string (Message.IconURL old),
            get "text" store_string (Message.Text old),
            get "attachments"
              (store_slice unmarshal_Attachment zero_Attachment)
              (Message.Attachments old) with
      | Some username, Some channel, Some icon_emoji, Some icon_url,
        Some text, Some attachments =>
          Some (Message.mk username channel icon_emoji icon_url text attachments)
      | _, _, _, _, _, _ => None
      end
  | Null => Some old
  | _ => None
  end.

Definition zero_Message : Message.t := Message.mk "" "" "" "" "" None.

(** [json.Unmarshal(data, &m)] for a fresh [var m Message]: the decoded
    message, or [None] when [data] is not a JSON text or a member does
    not fit the type of its field. *)
Definition Unmarshal (data : string) : option Message.t :=
  match parse data with
  | Some v => unmarshal_Message v zero_Message
  | None => None
  end.

End json.

(** ** net/http and io/ioutil, as far as Send observes them *)

(** A pointer is [nil] ([None]) or the address of a heap cell. *)
Definition ptr := nat.

(** [l[i] = x], for [i] inside [l]. *)
Fixpoint update {A : Type} (i : nat) (x : A) (l : list A) : list A :=
  match i, l with
  | O, _ :: l' => x :: l'
  | S i', y :: l' => y :: update i' x l'
  | _, [] => []
  end.

Module http.

(** The request a client is asked to perform. *)
Record Request := mkRequest {
  Method : string;
  URL : string;
  ContentType : string;
  Payload : string
}.

(** A response body, an [io.ReadCloser]: the bytes not yet read, the
    error a read meets once they are exhausted ([None]: a clean [io.EOF])
    and whether [Close] has been called. *)
Record Stream := mkStream {
  unread : string;
  fault : option error;
  closed : bool
}.

(** What the transport answers when it does produce a response. *)
Record Reply := mkReply {
  reply_Status : string;
  reply_StatusCode : Z;
  reply_Content : string;
  reply_Fault : option error
}.

(** An [http.Client], seen through the one request Send makes of it: it
    answers with a response or fails with an error. *)
Definition Client := Request -> Reply + error.

(** [http.Response]; [Body] is the handle of the body stream. *)
Record Response := mkResponse {
  Status : string;
  StatusCode : Z;
  Body : ptr
}.

(** [resp.Body.Close()]. *)
Definition Close (s : Stream) : Stream :=
  {| unread := unread s; fault := fault s; closed := true |}.

End http.

Module ioutil.

(** [ioutil.ReadAll(r)]: reads until [io.EOF] or an error and returns the
    bytes read with the error, [io.EOF] itself not being one. *)
Definition ReadAll (s : http.Stream) : (string * option error) * http.Stream :=
  if http.closed s then
    (("", Some "http: read on closed response body"), s)
  else
    ((http.unread s, http.fault s),
     {| http.unread := ""; http.fault := http.fault s; http.closed := false |}).

End ioutil.

(** ** Client and the state Send runs in *)

(** [Client]: the webhook URL and a pointer to an [http.Client], nil for
    the default one. *)
Module Client.
Record t := mk {
  WebhookURL : string;
  HTTPClient : option http.Client
}.
End Client.

(** The heap cells holding [Client] and [Message] values, the package
    variable [http.DefaultClient], every request handed to an HTTP client so
    far (oldest first) and every response body stream handed out so far, in
    its current state. *)
Record World := mkWorld {
  Clients : ptr -> Client.t;
  Messages : ptr -> Message.t;
  brk : ptr;
  DefaultClient : http.Client;
  Requests : list http.Request;
  Streams : list http.Stream
}.

Definition set_io (w : World) (rs : list http.Request) (ss : list http.Stream) : World :=
  {| Clients := Clients w; Messages := Messages w; brk := brk w;
     DefaultClient := DefaultClient w; Requests := rs; Streams := ss |}.

(** [&Client{...}]: a fresh heap cell holding [v]. *)
Definition new_Client (v : Client.t) (w : World) : ptr * World :=
  (brk w,
   {| Clients := fun p => if (p =? brk w)%nat then v else Clients w p;
      Messages := Messages w; brk := S (brk w);
      DefaultClient := DefaultClient w;
      Requests := Requests w; Streams := Streams w |}).

(** [hc.Post(url, contentType, body)]: one request goes out; a response
    comes with a new, open body stream. *)
Definition Post (hc : http.Client) (url contentType body : string) (w : World)
  : (http.Response + error) * World :=
  let req := http.mkRequest "POST" url contentType body in
  match hc req with
  | inr err => (inr err, set_io w (Requests w ++ [req]) (Streams w))
  | inl r =>
      (inl (http.mkResponse (http.reply_Status r) (http.reply_StatusCode r)
              (List.length (Streams w))),
       set_io w (Requests w ++ [req])
         (Streams w ++ [http.mkStream (http.reply_Content r) (http.reply_Fault r) false]))
  end.

(** [ioutil.ReadAll(resp.Body)] and [resp.Body.Close()] on a handle.  The
    handles Send uses come from [Post] and are always in the store. *)
Definition Body_ReadAll (h : ptr) (w : World) : (string * option error) * World :=
  match nth_error (Streams w) h with
  | Some s =>
      let '(r, s') := ioutil.ReadAll s in
      (r, set_io w (Requests w) (update h s' (Streams w)))
  | None => (("", Some "invalid argument"), w)
  end.

Definition Body_Close (h : ptr) (w : World) : World :=
  match nth_error (Streams w) h with
  | Some s => set_io w (Requests w) (update h (http.Close s) (Streams w))
  | None => w
  end.

(** A call returns a value or panics. *)
Inductive outcome (A : Type) : Type :=
| Returns (a : A)
| Panics (msg : string).

Arguments Returns {A} a.
Arguments Panics {A} msg.

(** ** slack.go: Send *)

(** [func (c *Client) Send(message *Message) error].  The result is [None]
    for a nil error.  The deferred [resp.Body.Close()] runs after the
    result is computed, on every path that follows the [defer]. *)
Definition Client_Send (c : option ptr) (message : option ptr) (w : World)
  : outcome (option error) * World :=
  match message with
  | None => (Returns (Some (Errorf "message is nil" [])), w)
  | Some pm =>
      match json.Encode (Messages w pm) with
      | inr err =>
          (Returns (Some (Errorf "Could not encode the message to JSON: %s" [err])), w)
      | inl b =>
          match c with
          | None =>
              (Panics "runtime error: invalid memory address or nil pointer dereference", w)
          | Some pc =>
              let hc := match Client.HTTPClient (Clients w pc) with
                        | None => DefaultClient w
                        | Some hc => hc
                        end in
              match Post hc (Client.WebhookURL (Clients w pc)) "application/json" b w with
              | (inr err, w1) =>
                  (Returns (Some (Errorf "Could not send the request: %s" [err])), w1)
              | (inl resp, w1) =>
                  let '(ret, w2) :=
                    if http.StatusCode resp >=? 300 then
                      match Body_ReadAll (http.Body resp) w1 with
                      | ((_, Some err), w2) =>
                          (Some (Errorf "Slack API returned %s (could not read body: %s)"
                                   [http.Status resp; err]), w2)
                      | ((b, None), w2) =>
                          (Some (Errorf "Slack API returned %s: %s"
                                   [http.Status resp; b]), w2)
                      end
                    else (None, w1) in
                  (Returns ret, Body_Close (http.Body resp) w2)
              end
          end
      end
  end.

(** [func Send(WebhookURL string, message *Message) error]. *)
Definition Send (WebhookURL : string) (message : option ptr) (w : World)
  : outcome (option error) * World :=
  let '(c, w') := new_Client (Client.mk WebhookURL None) w in
  Client_Send (Some c) message w'.

(** ** Notions used in the statements *)

(** The HTTP client Send posts with: [c.HTTPClient], or
    [http.DefaultClient] when that is nil. *)
Definition client_of (w : World) (pc : ptr) : http.Client :=
  match Client.HTTPClient (Clients w pc) with
  | None => DefaultClient w
  | Some hc => hc
  end.

(** The request Send makes for the client at [pc] and the message at
    [pm]. *)
Definition request_of (w : World) (pc pm : ptr) : http.Request :=
  http.mkRequest "POST" (Client.WebhookURL (Clients w pc)) "application/json"
    (json.Marshal (Messages w pm) ++ str1 (chr 10)).

(** The body stream of the response to the next request made in [w], as it
    is in a later state [w']. *)
Definition response_body (w w' : World) : option http.Stream :=
  nth_error (Streams w') (List.length (Streams w)).

(** The status codes of the success range, 200 to 299. *)
Definition is2xx (code : Z) : bool := (200 <=? code) && (code <? 300).

(** Two messages agree on every field that the encoding of the first does
    not omit. *)
Definition agree_on_written (m m' : Message.t) : Prop :=
  let ks := json.keys (json.fields_Message m) in
  (In "username" ks -> Message.Username m' = Message.Username m) /\
  (In "channel" ks -> Message.Channel m' = Message.Channel m) /\
  (In "icon_emoji" ks -> Message.IconEmoji m' = Message.IconEmoji m) /\
  (In "icon_url" ks -> Message.IconURL m' = Message.IconURL m) /\
  (In "text" ks -> Message.Text m' = Message.Text m) /\
  (In "attachments" ks -> Message.Attachments m' = Message.Attachments m).

(** Encoding [m] and decoding the result gives back a message that agrees
    with [m] on every field that was not omitted, be the encoding the text
    of [json.Marshal] or what the encoder of Send writes, which is that
    text and a newline. *)
Definition roundtrips (m : Message.t) : Prop :=
  exists m',
    json.Unmarshal (json.Marshal m) = Some m' /\
    (forall b, json.Encode m = inl b -> json.Unmarshal b = Some m') /\
    agree_on_written m m'.

(** The string fields of a message are valid UTF-8. *)
Definition valid_strings (m : Message.t) : Prop :=
  utf8.ValidString (Message.Username m) = true /\
  utf8.ValidString (Message.Channel m) = true /\
  utf8.ValidString (Message.IconEmoji m) = true /\
  utf8.ValidString (Message.IconURL m) = true /\
  utf8.ValidString (Message.Text m) = true.

(** The text of one member of a JSON object, and of the object whose
    members are the fields [fs], none omitted. *)
Definition member_text (f : json.field) : string :=
  json.appendString (json.name f) ++ ":" ++ json.encoded (json.fv f).

Definition object_text (fs : list json.field) : string :=
  "{" ++ concat "," (map member_text fs) ++ "}".

(** The fields of a struct by name, each with whether the encoder writes
    it. *)
Definition present (fs : list json.field) : list (string * bool) :=
  map (fun f => (json.name f, json.written f)) fs.

(** Every byte of [s] satisfies [p]. *)
Fixpoint all_bytes (p : Z -> bool) (s : string) : bool :=
  match s with
  | "" => true
  | String b s' => p (val b) && all_bytes p s'
  end.

(** [enc] is the UTF-8 encoding of the rune [c], of two to four bytes, and
    is decoded to [c] whatever follows it. *)
Definition is_rune_of (c : Z) (enc : string) : Prop :=
  (2 <= length enc <= 4)%nat /\
  utf8.EncodeRune c = enc /\
  all_bytes (Z.leb 0x80) enc = true /\
  0x80 <= c /\
  forall t, utf8.DecodeRuneInString (enc ++ t) = (c, length enc).

(** [chunk] is text inside a string literal that the scanner passes over
    and the decoder turns into [out] in one round. *)
Definition mirrors (chunk out : string) : Prop :=
  chunk <> "" /\
  (forall X, json.unquote_body (chunk ++ X) = Some (out, length chunk)) /\
  (forall Y, json.scanString (chunk ++ Y) =
             match json.scanString Y with
             | Some (l, r) => Some (chunk ++ l, r)
             | None => None
             end).

(** A struct field of type string declared with [omitempty], given as its
    key and its value. *)
Definition string_field (kv : string * string) : json.field :=
  {| json.name := fst kv; json.omitEmpty := true;
     json.fv := json.stringValue (snd kv) |}.

(** Key and value are valid UTF-8. *)
Definition valid_pair (kv : string * string) : Prop :=
  utf8.ValidString (fst kv) = true /\ utf8.ValidString (snd kv) = true.

(** The member of the parsed object that a string field becomes. *)
Definition as_member (kv : string * string) : string * json.value :=
  (fst kv, json.Str (snd kv)).

(** Whether a string field is written. *)
Definition nonempty_pair (kv : string * string) : bool :=
  negb (length (snd kv) =? 0)%nat.

(** The string fields of a message with their keys, in the order of their
    declaration. *)
Definition string_pairs (m : Message.t) : list (string * string) :=
  [ ("username", Message.Username m);
    ("channel", Message.Channel m);
    ("icon_emoji", Message.IconEmoji m);
    ("icon_url", Message.IconURL m);
    ("text", Message.Text m) ].

(** ** Notions used in the further properties *)

(** The state [w] with another [http.DefaultClient]. *)
Definition with_default (d : http.Client) (w : World) : World :=
  {| Clients := Clients w; Messages := Messages w; brk := brk w;
     DefaultClient := d; Requests := Requests w; Streams := Streams w |}.

(** The bytes the encoder lets through with [escapeHTML] set: no control
    character, no angle bracket, no ampersand. *)
Definition html_safe_byte (c : Z) : bool :=
  (0x20 <=? c) && negb ((c =? 0x3C) || (c =? 0x3E) || (c =? 0x26)).

(** The ASCII bytes among them, of which the punctuation, the literals and
    the numbers of the encoder are made. *)
Definition plain_byte (c : Z) : bool := html_safe_byte c && (c <? 0x80).

(** A string coerced to valid UTF-8 as the encoder does it, which is what
    [string([]rune(s))] gives: one round copies the rune at the head of
    [s], or replaces a byte that begins no valid encoding by U+FFFD. *)
Definition coerce_body (s : string) : string * nat :=
  if at_ s 0 <? utf8.RuneSelf then (take 1 s, 1%nat)
  else
    let '(c, size) := utf8.DecodeRuneInString s in
    if (c =? utf8.RuneError) && (size =? 1)%nat
    then (utf8.EncodeRune utf8.RuneError, 1%nat)
    else (take size s, size).

Fixpoint coerce_loop (fuel : nat) (s : string) : string :=
  match fuel, s with
  | S fuel', String _ _ =>
      let '(out, n) := coerce_body s in
      out ++ coerce_loop fuel' (drop n s)
  | _, _ => ""
  end.

Definition coerced (s : string) : string := coerce_loop (length s) s.

(** What may follow a value inside a JSON text: nothing, a comma, a closing
    brace or bracket, white space. *)
Definition delim (t : string) : bool :=
  match t with
  | "" => true
  | String c _ =>
      (val c =? 0x2C) || (val c =? 0x7D) || (val c =? 0x5D) || json.isSpace (val c)
  end.

(** [txt] is the text of the JSON value [v]: it begins with the first
    byte of a value and the parser reads it as [v], given a budget of its
    length and whatever follows it. *)
Definition parses_to (txt : string) (v : json.value) : Prop :=
  (exists c r, txt = String c r /\ delim (String c r) = false) /\
  forall fuel t, (length txt <= fuel)%nat -> delim t = true ->
                 json.parseValue fuel (txt ++ t) = Some (v, t).

(** The parsed form of what the encoder writes for a string, a number and
    a slice: the string coerced to valid UTF-8, the literal of the number,
    [null] for a nil slice and an array otherwise. *)
Definition tree_string (s : string) : json.value := json.Str (coerced s).

Definition tree_int (i : Z) : json.value := json.Number (AppendInt i).

Definition tree_slice {A : Type} (tree : A -> json.value) (s : slice A) : json.value :=
  match s with
  | None => json.Null
  | Some l => json.Array (map tree l)
  end.

(** The members of an object by key, absent ones included; [members_of]
    leaves those out. *)
Definition table_of (tfs : list (json.field * json.value))
  : list (string * option json.value) :=
  map (fun tf => (json.name (fst tf),
                  if json.written (fst tf) then Some (snd tf) else None)) tfs.

Fixpoint members_of (tbl : list (string * option json.value))
  : list (string * json.value) :=
  match tbl with
  | [] => []
  | (k, Some v) :: tbl' => (k, v) :: members_of tbl'
  | (_, None) :: tbl' => members_of tbl'
  end.

(** The object parsed from the encoding of a struct, given its fields with
    the parsed form of the value of each. *)
Definition object_of (tfs : list (json.field * json.value)) : json.value :=
  json.Object (members_of (table_of tfs)).

Definition typed_AttachmentField (f : AttachmentField.t)
  : list (json.field * json.value) :=
  combine (json.fields_AttachmentField f)
    [ tree_string (AttachmentField.Title f);
      tree_string (AttachmentField.Value f);
      json.Bool (AttachmentField.Short f) ].

Definition tree_AttachmentField (f : AttachmentField.t) : json.value :=
  object_of (typed_AttachmentField f).

Definition typed_Attachment (a : Attachment.t) : list (json.field * json.value) :=
  combine (json.fields_Attachment a)
    [ tree_string (Attachment.Fallback a);
      tree_string (Attachment.Color a);
      tree_string (Attachment.Pretext a);
      tree_string (Attachment.AuthorName a);
      tree_string (Attachment.AuthorLink a);
      tree_string (Attachment.AuthorIcon a);
      tree_string (Attachment.Title a);
      tree_string (Attachment.TitleLink a);
      tree_string (Attachment.Text a);
      tree_slice tree_AttachmentField (Attachment.Fields a);
      tree_string (Attachment.ImageURL a);
      tree_string (Attachment.ThumbURL a);
      tree_string (Attachment.Footer a);
      tree_string (Attachment.FooterIcon a);
      tree_int (Attachment.Timestamp a);
      tree_slice tree_string (Attachment.MrkdwnIn a) ].

Definition tree_Attachment (a : Attachment.t) : json.value :=
  object_of (typed_Attachment a).

Definition typed_Message (m : Message.t) : list (json.field * json.value) :=
  combine (json.fields_Message m)
    [ tree_string (Message.Username m);
      tree_string (Message.Channel m);
      tree_string (Message.IconEmoji m);
      tree_string (Message.IconURL m);
      tree_string (Message.Text m);
      tree_slice tree_Attachment (Message.Attachments m) ].

Definition tree_Message (m : Message.t) : json.value :=
  object_of (typed_Message m).

(** A field whose key is valid UTF-8 and whose encoding is the text of the
    value it is paired with. *)
Definition member_ok (tf : json.field * json.value) : Prop :=
  utf8.ValidString (json.name (fst tf)) = true /\
  parses_to (json.encoded (json.fv (fst tf))) (snd tf).

(** The member of a key in a table of members, and what a field holds
    after the member, if there is one, was stored over [old]. *)
Definition lookup (k : string) (tbl : list (string * option json.value))
  : option json.value :=
  match find (fun kv => String.eqb (fst kv) k) tbl with
  | Some (_, ov) => ov
  | None => None
  end.

Definition stored {A : Type} (store : json.value -> A -> option A)
    (ov : option json.value) (old : A) : option A :=
  match ov with
  | Some v => store v old
  | None => Some old
  end.

(** What is left of a value after encoding and decoding: strings are
    coerced to valid UTF-8 and an empty slice, being omitted, comes back
    as nil. *)
Definition norm_slice {A : Type} (norm : A -> A) (s : slice A) : slice A :=
  match s with
  | Some (x :: l) => Some (map norm (x :: l))
  | _ => None
  end.

Definition norm_AttachmentField (f : AttachmentField.t) : AttachmentField.t :=
  AttachmentField.mk (coerced (AttachmentField.Title f))
    (coerced (AttachmentField.Value f)) (AttachmentField.Short f).

Definition norm_Attachment (a : Attachment.t) : Attachment.t :=
  Attachment.mk (coerced (Attachment.Fallback a)) (coerced (Attachment.Color a))
    (coerced (Attachment.Pretext a)) (coerced (Attachment.AuthorName a))
    (coerced (Attachment.AuthorLink a)) (coerced (Attachment.AuthorIcon a))
    (coerced (Attachment.Title a)) (coerced (Attachment.TitleLink a))
    (coerced (Attachment.Text a))
    (norm_slice norm_AttachmentField (Attachment.Fields a))
    (coerced (Attachment.ImageURL a)) (coerced (Attachment.ThumbURL a))
    (coerced (Attachment.Footer a)) (coerced (Attachment.FooterIcon a))
    (Attachment.Timestamp a)
    (norm_slice coerced (Attachment.MrkdwnIn a)).

Definition norm_Message (m : Message.t) : Message.t :=
  Message.mk (coerced (Message.Username m)) (coerced (Message.Channel m))
    (coerced (Message.IconEmoji m)) (coerced (Message.IconURL m))
    (coerced (Message.Text m))
    (norm_slice norm_Attachment (Message.Attachments m)).

(** The values of Go's [int64]. *)
Definition int64 (i : Z) : Prop := - 2 ^ 63 <= i < 2 ^ 63.

(** The elements of a slice, none for a nil slice. *)
Definition elements {A : Type} (s : slice A) : list A :=
  match s with
  | Some l => l
  | None => []
  end.

(** The timestamp of every attachment of [m] is an [int64], as the type of
    the field has it. *)
Definition well_typed (m : Message.t) : Prop :=
  Forall (fun a => int64 (Attachment.Timestamp a)) (elements (Message.Attachments m)).

(** [out] is the encoding of one rune: the validity check steps over it,
    whatever follows. *)
Definition one_rune (out : string) : Prop :=
  out <> "" /\ forall rest, utf8.valid_body (out ++ rest) = Some (length out).

(** A sequence of encoded runes. *)
Inductive runes : string -> Prop :=
| runes_nil : runes ""
| runes_cons (out s : string) : one_rune out -> runes s -> runes (out ++ s).

(** The values that encoding and decoding give back as they are: strings
    of valid UTF-8, slices that are nil when they are empty, timestamps in
    the range of [int64]. *)
Definition canonical_slice {A : Type} (ok : A -> Prop) (s : slice A) : Prop :=
  s <> Some [] /\ Forall ok (elements s).

Definition canonical_string (s : string) : Prop := utf8.ValidString s = true.

Definition canonical_AttachmentField (f : AttachmentField.t) : Prop :=
  canonical_string (AttachmentField.Title f) /\
  canonical_string (AttachmentField.Value f).

Definition canonical_Attachment (a : Attachment.t) : Prop :=
  Forall canonical_string
    [ Attachment.Fallback a; Attachment.Color a; Attachment.Pretext a;
      Attachment.AuthorName a; Attachment.AuthorLink a; Attachment.AuthorIcon a;
      Attachment.Title a; Attachment.TitleLink a; Attachment.Text a;
      Attachment.ImageURL a; Attachment.ThumbURL a; Attachment.Footer a;
      Attachment.FooterIcon a ] /\
  canonical_slice canonical_AttachmentField (Attachment.Fields a) /\
  int64 (Attachment.Timestamp a) /\
  canonical_slice canonical_string (Attachment.MrkdwnIn a).

Definition canonical_Message (m : Message.t) : Prop :=
  valid_strings m /\
  canonical_slice canonical_Attachment (Message.Attachments m).

(** ** Test doubles *)

(** The message of the scenarios: [Message{Text: "hello"}]. *)
Definition hello : Message.t := Message.mk "" "" "" "" "hello" None.

(** A message whose text is the single byte 0xFF, which is not UTF-8. *)
Definition latin1 : Message.t := Message.mk "" "" "" "" (str1 (chr 0xFF)) None.

(** A message with an attachment: a quoted word and a line break in its
    text, markup characters in a field value. *)
Definition priority : AttachmentField.t :=
  AttachmentField.mk "Priority" "High & <b>rising</b>" true.

Definition build_failed : Attachment.t :=
  Attachment.mk "build failed" "danger" "" "" "" "" "Build #42" "" ""
    (Some [priority]) "" "" "" "" 1500000000 (Some ["text"; "fields"]).

Definition alert : Message.t :=
  Message.mk "ci-bot" "#builds" ":rotating_light:" ""
    (sq "'it'" ++ String (chr 10) "broke") (Some [build_failed]).

(** A transport that answers every request with the same response. *)
Definition canned (code : Z) (status body : string) (fault : option error)
  : http.Client :=
  fun _ => inl (http.mkReply status code body fault).

(** A transport that fails before producing a response. *)
Definition failing (err : error) : http.Client := fun _ => inr err.

(** A state with nothing on the wire yet, in which every [Client] cell
    holds the webhook URL and no HTTP client of its own, [hc] is
    [http.DefaultClient] and every [Message] cell holds [m]. *)
Definition world (hc : http.Client) (m : Message.t) : World :=
  mkWorld (fun _ => Client.mk "https://hooks.slack.com/services/T0/B0/x" None)
          (fun _ => m) 1%nat hc [] [].

(** The same with the HTTP client injected into the [Client] cells and a
    default client that always fails. *)
Definition world_injected (hc : http.Client) (m : Message.t) : World :=
  mkWorld (fun _ => Client.mk "https://hooks.slack.com/services/T0/B0/x" (Some hc))
          (fun _ => m) 1%nat (failing "no network") [] [].

(** An attachment with every kind of field set, and a message that holds
    it beside an attachment without any. *)
Definition deploy : Attachment.t :=
  Attachment.mk "deploy failed" "danger" "" "ci" "" "" "Deploy" "" "exit status 1"
    (Some [AttachmentField.mk "Stage" "prod" true; AttachmentField.mk "Try" "3" false])
    "" "" "" "" (-1504112000) (Some ["text"; "pretext"]).

Definition report : Message.t :=
  Message.mk "ci-bot" "#ops" "" "" "deploy"
    (Some [deploy; json.zero_Attachment]).

(** A message with a byte that is not UTF-8 in its text and an empty,
    non-nil slice of attachments. *)
Definition garbled : Message.t :=
  Message.mk "" "" "" "" (String "a" (str1 (chr 0xFF))) (Some []).

(** * Properties *)

(** ** The model at work *)

Example Marshal_alert :
  json.Marshal alert =
    sq ("{'username':'ci-bot','channel':'#builds','icon_emoji':':rotating_light:',"
        ++ "'text':'\'it\'\nbroke','attachments':[{'fallback':'build failed',"
        ++ "'color':'danger','title':'Build #42','fields':[{'title':'Priority',"
        ++ "'value':'High \u0026 \u003cb\u003erising\u003c/b\u003e','short':true}],"
        ++ "'ts':1500000000,'mrkdwn_in':['text','fields']}]}").
Proof. reflexivity. Qed.

Example Unmarshal_Marshal_alert : json.Unmarshal (json.Marshal alert) = Some alert.
Proof. reflexivity. Qed.

Example Unmarshal_lenient :
  json.Unmarshal (sq " { 'Text' : 'hi' , 'unknown' : [1, 2.5e3, null] } ")
    = Some (Message.mk "" "" "" "" "hi" None).
Proof. reflexivity. Qed.

Example Unmarshal_type_mismatch : json.Unmarshal (sq "{'text':12}") = None.
Proof. reflexivity. Qed.

(** A key that comes twice: the second array is decoded into the elements
    the slice holds after the first, and the slice is cut to its length. *)
Example Unmarshal_repeated_key :
  json.Unmarshal
    (sq ("{'attachments':[{'title':'a','text':'t'},{'title':'c'}],"
         ++ "'attachments':[{'title':'b'}]}"))
    = Some (Message.mk "" "" "" "" ""
              (Some [Attachment.mk "" "" "" "" "" "" "b" "" "t" None "" "" "" "" 0 None])).
Proof. reflexivity. Qed.

Example DecodeRune_euro :
  utf8.DecodeRuneInString (String (chr 0xE2) (String (chr 0x82) (String (chr 0xAC) "x")))
    = (0x20AC, 3%nat) /\
  utf8.EncodeRune 0x20AC = String (chr 0xE2) (String (chr 0x82) (str1 (chr 0xAC))).
Proof. split; reflexivity. Qed.

Example Client_Send_200 :
  fst (Client_Send (Some 0%nat) (Some 0%nat)
         (world (canned 200 "200 OK" "ok" None) hello)) = Returns None.
Proof. reflexivity. Qed.

Example Client_Send_404 :
  fst (Client_Send (Some 0%nat) (Some 0%nat)
         (world (canned 404 "404 Not Found" "no_service" None) hello))
    = Returns (Some "Slack API returned 404 Not Found: no_service").
Proof. reflexivity. Qed.

(** ** Strings *)

Lemma append_nil_r (s : string) : s ++ "" = s.
Proof. induction s as [|b s IH]; simpl; [reflexivity | now rewrite IH]. Qed.

Lemma append_assoc (a b c : string) : (a ++ b) ++ c = a ++ (b ++ c).
Proof. induction a as [|x a IH]; simpl; [reflexivity | now rewrite IH]. Qed.

Lemma length_append (a b : string) : length (a ++ b) = (length a + length b)%nat.
Proof. induction a as [|x a IH]; simpl; [reflexivity | now rewrite IH]. Qed.

Lemma prefix_append (sub post : string) : prefix sub (sub ++ post) = true.
Proof.
  induction sub as [|b sub IH]; simpl; [now destruct post |].
  destruct (ascii_dec b b) as [_ | ne]; [exact IH | now elim ne].
Qed.

Lemma Contains_prefix (s sub : string) :
  prefix sub s = true -> Contains s sub = true.
Proof. intros H. destruct s; cbn [Contains]; rewrite H; reflexivity. Qed.

Lemma Contains_intro (pre sub post : string) :
  Contains (pre ++ sub ++ post) sub = true.
Proof.
  induction pre as [|b pre IH].
  - change (Contains (sub ++ post) sub = true).
    apply Contains_prefix, prefix_append.
  - cbn [append Contains]. rewrite IH. apply orb_true_r.
Qed.

Lemma prefix_elim (sub s : string) :
  prefix sub s = true -> exists post, s = sub ++ post.
Proof.
  revert s. induction sub as [|b sub IH]; intros s H.
  - now exists s.
  - destruct s as [|c s]; [discriminate H |]. cbn [prefix] in H.
    destruct (ascii_dec b c) as [-> | _]; [| discriminate H].
    destruct (IH s H) as [post ->]. now exists post.
Qed.

Lemma Contains_elim (s sub : string) :
  Contains s sub = true -> exists pre post, s = pre ++ sub ++ post.
Proof.
  induction s as [|b s IH]; cbn [Contains]; intros H; apply orb_true_iff in H.
  - destruct H as [H | H]; [| discriminate H].
    destruct (prefix_elim _ _ H) as [post E]. now exists "", post.
  - destruct H as [H | H].
    + destruct (prefix_elim _ _ H) as [post E]. now exists "", post.
    + destruct (IH H) as (pre & post & ->). now exists (String b pre), post.
Qed.

Lemma Contains_after (pre s sub : string) :
  Contains s sub = true -> Contains (pre ++ s) sub = true.
Proof.
  intros H. induction pre as [|b pre IH]; [exact H |].
  cbn [append Contains]. rewrite IH. apply orb_true_r.
Qed.

(** A text that contains [mid] contains whatever [mid] contains. *)
Lemma Contains_trans (pre mid post sub : string) :
  Contains mid sub = true -> Contains (pre ++ mid ++ post) sub = true.
Proof.
  intros H. destruct (Contains_elim _ _ H) as (p & q & ->).
  replace (pre ++ (p ++ sub ++ q) ++ post) with ((pre ++ p) ++ sub ++ (q ++ post)).
  - apply Contains_intro.
  - now rewrite !append_assoc.
Qed.

(** ** The stream store *)

Lemma nth_error_snoc {A : Type} (l : list A) (x : A) :
  nth_error (l ++ [x]) (List.length l) = Some x.
Proof. induction l as [|y l IH]; simpl; [reflexivity | exact IH]. Qed.

Lemma update_snoc {A : Type} (l : list A) (x y : A) :
  update (List.length l) y (l ++ [x]) = (l ++ [y])%list.
Proof. induction l as [|z l IH]; simpl; [reflexivity | now rewrite IH]. Qed.

(** ** Send, path by path *)

(** What Send does when the HTTP client answers with a response: the
    result depends on the status code alone, the body is read only for a
    code of 300 or more, and closed in every case. *)
Lemma Client_Send_response (w : World) (pc pm : ptr) (r : http.Reply) :
  client_of w pc (request_of w pc pm) = inl r ->
  Client_Send (Some pc) (Some pm) w =
    (Returns
       (if http.reply_StatusCode r >=? 300 then
          Some (match http.reply_Fault r with
                | Some err =>
                    Errorf "Slack API returned %s (could not read body: %s)"
                      [http.reply_Status r; err]
                | None =>
                    Errorf "Slack API returned %s: %s"
                      [http.reply_Status r; http.reply_Content r]
                end)
        else None),
     set_io w (Requests w ++ [request_of w pc pm])
       (Streams w ++
          [http.mkStream
             (if http.reply_StatusCode r >=? 300 then "" else http.reply_Content r)
             (http.reply_Fault r) true])).
Proof.
  unfold client_of, request_of, Client_Send, json.Encode, Post. intros H.
  rewrite H. cbn [http.StatusCode http.Status http.Body].
  destruct (http.reply_StatusCode r >=? 300).
  - unfold Body_ReadAll, Body_Close. cbn [Streams set_io Requests].
    rewrite nth_error_snoc. unfold ioutil.ReadAll. cbn [http.closed http.unread http.fault].
    rewrite update_snoc.
    destruct (http.reply_Fault r); cbn [Streams set_io Requests];
      rewrite nth_error_snoc, update_snoc; reflexivity.
  - unfold Body_Close. cbn [Streams set_io Requests].
    rewrite nth_error_snoc, update_snoc. reflexivity.
Qed.

(** What Send does when the HTTP client fails before any response. *)
Lemma Client_Send_no_response (w : World) (pc pm : ptr) (err : error) :
  client_of w pc (request_of w pc pm) = inr err ->
  Client_Send (Some pc) (Some pm) w =
    (Returns (Some (Errorf "Could not send the request: %s" [err])),
     set_io w (Requests w ++ [request_of w pc pm]) (Streams w)).
Proof.
  unfold client_of, request_of, Client_Send, json.Encode, Post. intros H.
  rewrite H. reflexivity.
Qed.

(** Send returns a nil error on a response exactly when its status code is
    below 300, whatever lies below the success range included. *)
Lemma Client_Send_nil_error_iff (w : World) (pc pm : ptr) (r : http.Reply) :
  client_of w pc (request_of w pc pm) = inl r ->
  (fst (Client_Send (Some pc) (Some pm) w) = Returns None
   <-> http.reply_StatusCode r < 300).
Proof.
  intros H. rewrite (Client_Send_response _ _ _ _ H). cbn [fst].
  destruct (Z.geb_spec (http.reply_StatusCode r) 300) as [G | G]; split; intros E;
    try lia; try reflexivity; discriminate E.
Qed.

(** C1 (the code departs from it): a response whose status code, 101, lies
    outside the success range 200 to 299 makes Send return a nil error, where
    the claim and the function's own comment ("an error if a HTTP client
    returned non-2xx status") require an error. *)
Theorem Client_Send_status_101_nil_error :
  is2xx 101 = false /\
  fst (Client_Send (Some 0%nat) (Some 0%nat)
         (world (canned 101 "101 Switching Protocols" "" None) hello))
    = Returns None.
Proof. split; reflexivity. Qed.

(** C3 (as amended): when Send is called with [Message{Text: "hello"}], the
    one request handed to the HTTP client is a POST to the webhook URL with
    content type application/json whose body is the bytes
    [{"text":"hello"}] followed by one newline, the encoder ending every
    value it writes with a newline. *)
Theorem Client_Send_hello_body (w : World) (pc pm : ptr) :
  Messages w pm = hello ->
  Requests (snd (Client_Send (Some pc) (Some pm) w)) =
    (Requests w ++
       [http.mkRequest "POST" (Client.WebhookURL (Clients w pc)) "application/json"
          (sq "{'text':'hello'}" ++ str1 (chr 10))])%list.
Proof.
  intros H.
  assert (E : request_of w pc pm =
              http.mkRequest "POST" (Client.WebhookURL (Clients w pc))
                "application/json" (sq "{'text':'hello'}" ++ str1 (chr 10))).
  { unfold request_of. rewrite H. reflexivity. }
  destruct (client_of w pc (request_of w pc pm)) as [r | err] eqn:A.
  - rewrite (Client_Send_response _ _ _ _ A), E. reflexivity.
  - rewrite (Client_Send_no_response _ _ _ _ A), E. reflexivity.
Qed.

Lemma Client_Send_hello_body_witness :
  Messages (world (canned 200 "200 OK" "ok" None) hello) 0%nat = hello /\
  Requests (snd (Client_Send (Some 0%nat) (Some 0%nat)
                   (world (canned 200 "200 OK" "ok" None) hello))) =
    [http.mkRequest "POST" "https://hooks.slack.com/services/T0/B0/x"
       "application/json" (sq "{'text':'hello'}" ++ str1 (chr 10))].
Proof.
  split; [reflexivity |].
  apply (Client_Send_hello_body (world (canned 200 "200 OK" "ok" None) hello) 0%nat 0%nat).
  reflexivity.
Defined.

(** C3 (as stated, refuted): the body the transport receives for
    [Message{Text: "hello"}] is not exactly [{"text":"hello"}]. *)
Lemma Client_Send_hello_body_not_bare :
  exists body,
    map http.Payload
      (Requests (snd (Client_Send (Some 0%nat) (Some 0%nat)
                        (world (canned 200 "200 OK" "ok" None) hello)))) = [body]
    /\ body <> sq "{'text':'hello'}".
Proof.
  exists (sq "{'text':'hello'}" ++ str1 (chr 10)).
  split; [reflexivity | discriminate].
Qed.

(** C4: for every client, nil included, and in every state, Send with a
    nil message returns the error "message is nil" (the invalid-input
    condition) and leaves the state as it was: nothing was encoded, no
    request was handed to any HTTP client, no stream was opened. *)
Theorem Client_Send_nil_message (c : option ptr) (w : World) :
  Client_Send c None w = (Returns (Some "message is nil"), w).
Proof. reflexivity. Qed.

(** C5 (as amended): for every response with a status code of 300 or more,
    Send returns an error whose message includes the status text of the
    response ([resp.Status], hence the numeric code whenever that text
    shows it, as in "404 Not Found") and the text of the response body; if
    the body cannot be read, the message still has the status text, with
    the note "could not read body" and the read error. *)
Theorem Client_Send_remote_rejected (w : World) (pc pm : ptr) (r : http.Reply) :
  client_of w pc (request_of w pc pm) = inl r ->
  300 <= http.reply_StatusCode r ->
  exists msg,
    fst (Client_Send (Some pc) (Some pm) w) = Returns (Some msg) /\
    Contains msg (http.reply_Status r) = true /\
    (forall code, Contains (http.reply_Status r) code = true ->
                  Contains msg code = true) /\
    match http.reply_Fault r with
    | None =>
        msg = Errorf "Slack API returned %s: %s"
                [http.reply_Status r; http.reply_Content r] /\
        Contains msg (http.reply_Content r) = true
    | Some err =>
        msg = Errorf "Slack API returned %s (could not read body: %s)"
                [http.reply_Status r; err] /\
        Contains msg "could not read body" = true /\
        Contains msg err = true
    end.
Proof.
  intros H G. rewrite (Client_Send_response _ _ _ _ H). cbn [fst].
  destruct (Z.geb_spec (http.reply_StatusCode r) 300) as [_ | L]; [| lia].
  destruct (http.reply_Fault r) as [err |]; eexists; (split; [reflexivity |]).
  - repeat split.
    + apply (Contains_intro "Slack API returned " _ (" (could not read body: " ++ err ++ ")")).
    + intros code. apply (Contains_trans "Slack API returned " _ (" (could not read body: " ++ err ++ ")")).
    + apply (Contains_after "Slack API returned "
               (http.reply_Status r ++ " (could not read body: " ++ err ++ ")")).
      apply Contains_after.
      apply (Contains_intro " (" "could not read body" (": " ++ err ++ ")")).
    + apply (Contains_after "Slack API returned "
               (http.reply_Status r ++ " (could not read body: " ++ err ++ ")")).
      apply Contains_after.
      apply (Contains_intro " (could not read body: " err ")").
  - repeat split.
    + apply (Contains_intro "Slack API returned " _ (": " ++ http.reply_Content r ++ "")).
    + intros code. apply (Contains_trans "Slack API returned " _ (": " ++ http.reply_Content r ++ "")).
    + apply (Contains_after "Slack API returned "
               (http.reply_Status r ++ ": " ++ http.reply_Content r ++ "")).
      apply Contains_after.
      apply (Contains_intro ": " (http.reply_Content r) "").
Qed.

Lemma Client_Send_remote_rejected_witness :
  exists msg,
    fst (Client_Send (Some 0%nat) (Some 0%nat)
           (world (canned 404 "404 Not Found" "no_service" None) hello))
      = Returns (Some msg) /\
    Contains msg "404 Not Found" = true /\
    (forall code, Contains "404 Not Found" code = true -> Contains msg code = true) /\
    msg = Errorf "Slack API returned %s: %s" ["404 Not Found"; "no_service"] /\
    Contains msg "no_service" = true.
Proof.
  apply (Client_Send_remote_rejected
           (world (canned 404 "404 Not Found" "no_service" None) hello) 0%nat 0%nat
           (http.mkReply "404 Not Found" 404 "no_service" None)).
  - reflexivity.
  - cbn. lia.
Defined.

(** C5 (as stated, refuted): a response with status code 404 whose status
    text is empty, as a hand-built response may be, makes Send return an
    error that has the body text but not "404": the message is built from
    the status text, never from the code. *)
Lemma Client_Send_404_without_status_text :
  exists msg,
    fst (Client_Send (Some 0%nat) (Some 0%nat)
           (world (canned 404 "" "no_service" None) hello))
      = Returns (Some msg) /\
    Contains msg "no_service" = true /\
    Contains msg "404" = false.
Proof. eexists. repeat split. Qed.

(** C6: when the HTTP client fails before producing a response, Send
    returns the error "Could not send the request: " followed by the
    description of the client's error. *)
Theorem Client_Send_transport_failure (w : World) (pc pm : ptr) (err : error) :
  client_of w pc (request_of w pc pm) = inr err ->
  exists msg,
    fst (Client_Send (Some pc) (Some pm) w) = Returns (Some msg) /\
    msg = "Could not send the request: " ++ err /\
    Contains msg err = true.
Proof.
  intros H. rewrite (Client_Send_no_response _ _ _ _ H). cbn [fst].
  exists ("Could not send the request: " ++ err). repeat split.
  - cbn. now rewrite append_nil_r.
  - rewrite <- (append_nil_r err) at 1. apply Contains_intro.
Qed.

Lemma Client_Send_transport_failure_witness :
  exists msg,
    fst (Client_Send (Some 0%nat) (Some 0%nat)
           (world_injected (failing "dial tcp: i/o timeout") hello))
      = Returns (Some msg) /\
    msg = "Could not send the request: " ++ "dial tcp: i/o timeout" /\
    Contains msg "dial tcp: i/o timeout" = true.
Proof.
  apply (Client_Send_transport_failure
           (world_injected (failing "dial tcp: i/o timeout") hello) 0%nat 0%nat).
  reflexivity.
Defined.

(** C8: the free function [Send] is the method Send of a client freshly
    built from the URL with no HTTP client of its own; and for every
    client that holds that URL and posts with [http.DefaultClient] (its
    [HTTPClient] nil or the default one), it returns what that client's
    Send method returns and has the same effect on the wire and on the
    response bodies. *)
Theorem Send_is_transient_Client_Send
    (WebhookURL : string) (message : option ptr) (w : World) (pc : ptr) :
  Client.WebhookURL (Clients w pc) = WebhookURL ->
  client_of w pc = DefaultClient w ->
  Send WebhookURL message w =
    Client_Send (Some (brk w)) message
      (snd (new_Client (Client.mk WebhookURL None) w)) /\
  fst (Send WebhookURL message w) = fst (Client_Send (Some pc) message w) /\
  Requests (snd (Send WebhookURL message w)) =
    Requests (snd (Client_Send (Some pc) message w)) /\
  Streams (snd (Send WebhookURL message w)) =
    Streams (snd (Client_Send (Some pc) message w)).
Proof.
  intros U D. split; [reflexivity |].
  destruct message as [pm |]; [| repeat split].
  set (w' := snd (new_Client (Client.mk WebhookURL None) w)).
  change (Send WebhookURL (Some pm) w) with (Client_Send (Some (brk w)) (Some pm) w').
  assert (R : request_of w' (brk w) pm = request_of w pc pm).
  { unfold request_of, w'. cbn. rewrite Nat.eqb_refl, U. reflexivity. }
  assert (C : client_of w' (brk w) = client_of w pc).
  { rewrite D. unfold client_of, w'. cbn. rewrite Nat.eqb_refl. reflexivity. }
  destruct (client_of w pc (request_of w pc pm)) as [r | err] eqn:A.
  - rewrite (Client_Send_response w pc pm r A).
    rewrite (Client_Send_response w' (brk w) pm r); [| now rewrite C, R].
    rewrite R. repeat split.
  - rewrite (Client_Send_no_response w pc pm err A).
    rewrite (Client_Send_no_response w' (brk w) pm err); [| now rewrite C, R].
    rewrite R. repeat split.
Qed.

Lemma Send_is_transient_Client_Send_witness :
  Send "https://hooks.slack.com/services/T0/B0/x" (Some 0%nat)
    (world (canned 404 "404 Not Found" "no_service" None) hello) =
    Client_Send (Some 1%nat) (Some 0%nat)
      (snd (new_Client (Client.mk "https://hooks.slack.com/services/T0/B0/x" None)
              (world (canned 404 "404 Not Found" "no_service" None) hello))) /\
  fst (Send "https://hooks.slack.com/services/T0/B0/x" (Some 0%nat)
         (world (canned 404 "404 Not Found" "no_service" None) hello)) =
    fst (Client_Send (Some 0%nat) (Some 0%nat)
           (world (canned 404 "404 Not Found" "no_service" None) hello)) /\
  Requests (snd (Send "https://hooks.slack.com/services/T0/B0/x" (Some 0%nat)
                   (world (canned 404 "404 Not Found" "no_service" None) hello))) =
    Requests (snd (Client_Send (Some 0%nat) (Some 0%nat)
                     (world (canned 404 "404 Not Found" "no_service" None) hello))) /\
  Streams (snd (Send "https://hooks.slack.com/services/T0/B0/x" (Some 0%nat)
                  (world (canned 404 "404 Not Found" "no_service" None) hello))) =
    Streams (snd (Client_Send (Some 0%nat) (Some 0%nat)
                    (world (canned 404 "404 Not Found" "no_service" None) hello))).
Proof.
  apply (Send_is_transient_Client_Send "https://hooks.slack.com/services/T0/B0/x"
           (Some 0%nat) (world (canned 404 "404 Not Found" "no_service" None) hello)
           0%nat); reflexivity.
Defined.

(** C9 (as amended): on every path of Send on which the HTTP client
    produced a response, the response body is closed when Send returns.
    When the status code is 300 or more it has been read through, to its
    end or to the first read error; when the status code lies in the
    success range 200 to 299 it is closed unread.  Status codes below 200
    are left out: that they take the success path is the defect of C1. *)
Theorem Client_Send_closes_body (w : World) (pc pm : ptr) (r : http.Reply) :
  client_of w pc (request_of w pc pm) = inl r ->
  exists s,
    response_body w (snd (Client_Send (Some pc) (Some pm) w)) = Some s /\
    http.closed s = true /\
    (300 <= http.reply_StatusCode r -> http.unread s = "") /\
    (200 <= http.reply_StatusCode r < 300 -> http.unread s = http.reply_Content r).
Proof.
  intros H. rewrite (Client_Send_response _ _ _ _ H).
  unfold response_body. cbn [snd set_io Streams]. rewrite nth_error_snoc.
  eexists. split; [reflexivity |]. cbn [http.closed http.unread].
  destruct (Z.geb_spec (http.reply_StatusCode r) 300); repeat split; intros; lia || reflexivity.
Qed.

Lemma Client_Send_closes_body_witness :
  exists s,
    response_body (world (canned 404 "404 Not Found" "no_service" None) hello)
      (snd (Client_Send (Some 0%nat) (Some 0%nat)
              (world (canned 404 "404 Not Found" "no_service" None) hello)))
      = Some s /\
    http.closed s = true /\
    (300 <= 404 -> http.unread s = "") /\
    (200 <= 404 < 300 -> http.unread s = "no_service").
Proof.
  apply (Client_Send_closes_body
           (world (canned 404 "404 Not Found" "no_service" None) hello) 0%nat 0%nat
           (http.mkReply "404 Not Found" 404 "no_service" None)).
  reflexivity.
Defined.

(** C9 (as stated, refuted): after a Send that met a 200 response with
    the body "ok", the body stream is closed but still holds "ok": it was
    not drained. *)
Lemma Client_Send_200_body_not_drained :
  response_body (world (canned 200 "200 OK" "ok" None) hello)
    (snd (Client_Send (Some 0%nat) (Some 0%nat)
            (world (canned 200 "200 OK" "ok" None) hello)))
    = Some (http.mkStream "ok" None true)
  /\ http.unread (http.mkStream "ok" None true) <> "".
Proof. split; [reflexivity | discriminate]. Qed.

(** C10: Send changes no heap cell and not the default HTTP client: after
    it, on the success path and on every error path, every [Client] (its
    [WebhookURL] and [HTTPClient]) and every [Message] is as before. *)
Theorem Client_Send_frame (c message : option ptr) (w : World) :
  Clients (snd (Client_Send c message w)) = Clients w /\
  Messages (snd (Client_Send c message w)) = Messages w /\
  DefaultClient (snd (Client_Send c message w)) = DefaultClient w.
Proof.
  destruct message as [pm |]; [| repeat split].
  destruct c as [pc |]; [| repeat split].
  destruct (client_of w pc (request_of w pc pm)) as [r | err] eqn:A.
  - rewrite (Client_Send_response _ _ _ _ A). repeat split.
  - rewrite (Client_Send_no_response _ _ _ _ A). repeat split.
Qed.


(** ** The struct encoder *)

Lemma concat_cons2 (sep x y : string) (l : list string) :
  concat sep (x :: y :: l) = x ++ sep ++ concat sep (y :: l).
Proof. reflexivity. Qed.

Lemma structFields_written (next : string) (fs : list json.field) :
  json.structFields next fs =
    match filter json.written fs with
    | [] => if String.eqb next "{" then "{}" else "}"
    | ms => next ++ concat "," (map member_text ms) ++ "}"
    end.
Proof.
  revert next. induction fs as [|f fs IH]; intros next; [reflexivity |].
  cbn [json.structFields filter]. unfold json.written at 1.
  destruct (json.omitEmpty f && json.isEmptyValue (json.fv f)); cbn [negb].
  - apply IH.
  - rewrite (IH ",").
    destruct (filter json.written fs) as [|g ms].
    + cbn [map concat String.eqb Ascii.eqb Bool.eqb]. unfold member_text.
      now rewrite !append_assoc.
    + cbn [map]. rewrite concat_cons2. unfold member_text.
      now rewrite !append_assoc.
Qed.

(** The struct encoder writes the object of the fields that are not
    omitted, in the order of their declaration. *)
Lemma structEncoder_written (fs : list json.field) :
  json.structEncoder fs = object_text (filter json.written fs).
Proof.
  unfold json.structEncoder. rewrite structFields_written.
  destruct (filter json.written fs); reflexivity.
Qed.

Lemma In_keys_present (k : string) (fs : list json.field) :
  In k (json.keys fs) <-> In (k, true) (present fs).
Proof.
  unfold json.keys, present. induction fs as [|f fs IH]; [reflexivity |].
  cbn [filter map In]. destruct (json.written f) eqn:W; cbn [map In]; rewrite IH.
  - split; (intros [H | H]; [left | now right]); congruence.
  - split; [now right | intros [H | H]; [congruence | exact H]].
Qed.

Lemma present_AttachmentField (f : AttachmentField.t) :
  present (json.fields_AttachmentField f) =
    [ ("title", negb (length (AttachmentField.Title f) =? 0)%nat);
      ("value", negb (length (AttachmentField.Value f) =? 0)%nat);
      ("short", negb (negb (AttachmentField.Short f))) ].
Proof. reflexivity. Qed.

Lemma present_Attachment (a : Attachment.t) :
  present (json.fields_Attachment a) =
    [ ("fallback", negb (length (Attachment.Fallback a) =? 0)%nat);
      ("color", negb (length (Attachment.Color a) =? 0)%nat);
      ("pretext", negb (length (Attachment.Pretext a) =? 0)%nat);
      ("author_name", negb (length (Attachment.AuthorName a) =? 0)%nat);
      ("author_link", negb (length (Attachment.AuthorLink a) =? 0)%nat);
      ("author_icon", negb (length (Attachment.AuthorIcon a) =? 0)%nat);
      ("title", negb (length (Attachment.Title a) =? 0)%nat);
      ("title_link", negb (length (Attachment.TitleLink a) =? 0)%nat);
      ("text", negb (length (Attachment.Text a) =? 0)%nat);
      ("fields", negb (len (Attachment.Fields a) =? 0)%nat);
      ("image_url", negb (length (Attachment.ImageURL a) =? 0)%nat);
      ("thumb_url", negb (length (Attachment.ThumbURL a) =? 0)%nat);
      ("footer", negb (length (Attachment.Footer a) =? 0)%nat);
      ("footer_icon", negb (length (Attachment.FooterIcon a) =? 0)%nat);
      ("ts", negb (Attachment.Timestamp a =? 0));
      ("mrkdwn_in", negb (len (Attachment.MrkdwnIn a) =? 0)%nat) ].
Proof. reflexivity. Qed.

Lemma present_Message (m : Message.t) :
  present (json.fields_Message m) =
    [ ("username", negb (length (Message.Username m) =? 0)%nat);
      ("channel", negb (length (Message.Channel m) =? 0)%nat);
      ("icon_emoji", negb (length (Message.IconEmoji m) =? 0)%nat);
      ("icon_url", negb (length (Message.IconURL m) =? 0)%nat);
      ("text", negb (length (Message.Text m) =? 0)%nat);
      ("attachments", negb (len (Message.Attachments m) =? 0)%nat) ].
Proof. reflexivity. Qed.

Lemma written_string (s : string) : negb (length s =? 0)%nat = true <-> s <> "".
Proof. destruct s; cbn; split; congruence. Qed.

Lemma written_slice {A : Type} (s : slice A) :
  negb (len s =? 0)%nat = true <-> len s <> 0%nat.
Proof. destruct (len s); cbn; split; congruence. Qed.

Lemma written_int (i : Z) : negb (i =? 0) = true <-> i <> 0.
Proof. rewrite negb_true_iff. apply Z.eqb_neq. Qed.

Lemma written_bool (b : bool) : negb (negb b) = true <-> b = true.
Proof. now rewrite negb_involutive. Qed.

(** [(k, b)] is the only entry of the table under the key [k]. *)
Ltac only_entry :=
  cbn [In]; split;
  [ intros H;
    repeat (destruct H as [H | H];
            [ first [ discriminate H | (injection H as H; exact H) ] | ]);
    contradiction
  | intros H; rewrite H;
    let rec go := first [ left; reflexivity | right; go ] in go ].

Ltac conjuncts := repeat match goal with |- _ /\ _ => split end.

Ltac key_iff lemma :=
  rewrite In_keys_present, lemma;
  match goal with
  | |- _ <-> ?P =>
      match goal with
      | |- In (?k, true) ?l <-> _ =>
          let b := fresh "b" in
          evar (b : bool);
          transitivity (b = true); subst b;
          [ only_entry
          | first [ apply written_string | apply written_slice
                  | apply written_int | apply written_bool ] ]
      end
  end.

(** C2: for every [AttachmentField], [Attachment] and [Message], the JSON
    object written is the object of the fields that are not omitted, and
    the key of a field is among its keys exactly when the field does not
    hold the zero or empty value of its type (the empty string, a slice of
    length zero, the timestamp 0, false).  A message with every field
    empty is encoded as [{}]; an attachment field with [Short] false has
    no [short] key and one with [Short] true has it. *)
Theorem omitempty_keys :
  (forall f : AttachmentField.t,
      json.marshal_AttachmentField f =
        object_text (filter json.written (json.fields_AttachmentField f)) /\
      let ks := json.keys (json.fields_AttachmentField f) in
      (In "title" ks <-> AttachmentField.Title f <> "") /\
      (In "value" ks <-> AttachmentField.Value f <> "") /\
      (In "short" ks <-> AttachmentField.Short f = true)) /\
  (forall a : Attachment.t,
      json.marshal_Attachment a =
        object_text (filter json.written (json.fields_Attachment a)) /\
      let ks := json.keys (json.fields_Attachment a) in
      (In "fallback" ks <-> Attachment.Fallback a <> "") /\
      (In "color" ks <-> Attachment.Color a <> "") /\
      (In "pretext" ks <-> Attachment.Pretext a <> "") /\
      (In "author_name" ks <-> Attachment.AuthorName a <> "") /\
      (In "author_link" ks <-> Attachment.AuthorLink a <> "") /\
      (In "author_icon" ks <-> Attachment.AuthorIcon a <> "") /\
      (In "title" ks <-> Attachment.Title a <> "") /\
      (In "title_link" ks <-> Attachment.TitleLink a <> "") /\
      (In "text" ks <-> Attachment.Text a <> "") /\
      (In "fields" ks <-> len (Attachment.Fields a) <> 0%nat) /\
      (In "image_url" ks <-> Attachment.ImageURL a <> "") /\
      (In "thumb_url" ks <-> Attachment.ThumbURL a <> "") /\
      (In "footer" ks <-> Attachment.Footer a <> "") /\
      (In "footer_icon" ks <-> Attachment.FooterIcon a <> "") /\
      (In "ts" ks <-> Attachment.Timestamp a <> 0) /\
      (In "mrkdwn_in" ks <-> len (Attachment.MrkdwnIn a) <> 0%nat)) /\
  (forall m : Message.t,
      json.Marshal m = object_text (filter json.written (json.fields_Message m)) /\
      let ks := json.keys (json.fields_Message m) in
      (In "username" ks <-> Message.Username m <> "") /\
      (In "channel" ks <-> Message.Channel m <> "") /\
      (In "icon_emoji" ks <-> Message.IconEmoji m <> "") /\
      (In "icon_url" ks <-> Message.IconURL m <> "") /\
      (In "text" ks <-> Message.Text m <> "") /\
      (In "attachments" ks <-> len (Message.Attachments m) <> 0%nat)) /\
  json.Marshal (Message.mk "" "" "" "" "" None) = "{}" /\
  json.Marshal (Message.mk "" "" "" "" "" (Some [])) = "{}" /\
  (forall t v : string,
      ~ In "short" (json.keys (json.fields_AttachmentField (AttachmentField.mk t v false))) /\
      In "short" (json.keys (json.fields_AttachmentField (AttachmentField.mk t v true)))) /\
  json.marshal_AttachmentField (AttachmentField.mk "T" "V" false)
    = sq "{'title':'T','value':'V'}" /\
  json.marshal_AttachmentField (AttachmentField.mk "T" "V" true)
    = sq "{'title':'T','value':'V','short':true}".
Proof.
  split; [| split; [| split]].
  - intros f. split; [apply structEncoder_written |]. cbv zeta.
    conjuncts; key_iff present_AttachmentField.
  - intros a. split; [apply structEncoder_written |]. cbv zeta.
    conjuncts; key_iff present_Attachment.
  - intros m. split; [apply structEncoder_written |]. cbv zeta.
    conjuncts; key_iff present_Message.
  - split; [reflexivity |]. split; [reflexivity |]. split; [| split; reflexivity].
    intros t v. rewrite !In_keys_present, !present_AttachmentField. cbn [In AttachmentField.Short negb].
    split; [| right; right; left; reflexivity].
    intros H. repeat (destruct H as [H | H]; [discriminate H |]). contradiction.
Qed.

(** ** Bytes and UTF-8 *)

Lemma val_range (b : byte) : 0 <= val b < 256.
Proof. unfold val. pose proof (N_ascii_bounded b) as H. lia. Qed.

Lemma chr_val (b : byte) : chr (val b) = b.
Proof.
  unfold chr. pose proof (val_range b) as R.
  rewrite Z.mod_small by exact R. unfold val. rewrite N2Z.id.
  apply ascii_N_embedding.
Qed.

Lemma val_chr (z : Z) : 0 <= z < 256 -> val (chr z) = z.
Proof.
  intros R. unfold val, chr. rewrite Z.mod_small by exact R.
  rewrite N_ascii_embedding by lia. lia.
Qed.

(** ** Bit operations as arithmetic *)

Lemma lor_disjoint (n hi lo : Z) :
  0 <= n -> 0 <= lo < 2 ^ n -> hi mod 2 ^ n = 0 -> Z.lor hi lo = hi + lo.
Proof.
  intros Hn Hlo Hhi.
  assert (D : Z.land hi lo = 0).
  { apply Z.bits_inj'. intros i Hi. rewrite Z.land_spec, Z.bits_0.
    destruct (Z.lt_ge_cases i n) as [L | G].
    - rewrite <- (Z.mod_pow2_bits_low hi n i) by lia. rewrite Hhi, Z.bits_0. reflexivity.
    - replace lo with (lo mod 2 ^ n) by (apply Z.mod_small; lia).
      rewrite (Z.mod_pow2_bits_high lo n i) by lia. apply andb_false_r. }
  rewrite <- Z.lxor_lor by exact D. symmetry. apply Z.add_nocarry_lxor, D.
Qed.

Ltac bits :=
  unfold utf8.mask2, utf8.mask3, utf8.mask4, utf8.maskx,
    utf8.t2, utf8.t3, utf8.t4, utf8.tx in *;
  change 0x3F with (Z.ones 6) in *; change 0x1F with (Z.ones 5) in *;
  change 0x0F with (Z.ones 4) in *; change 0x07 with (Z.ones 3) in *;
  rewrite ?Z.land_ones, ?Z.shiftl_mul_pow2, ?Z.shiftr_div_pow2 in * by lia;
  change (2 ^ 0) with 1 in *; change (2 ^ 3) with 8 in *;
  change (2 ^ 4) with 16 in *; change (2 ^ 5) with 32 in *;
  change (2 ^ 6) with 64 in *; change (2 ^ 12) with 4096 in *;
  change (2 ^ 18) with 262144 in *; rewrite ?Z.div_1_r in *.

Ltac arith :=
  try reflexivity;
  change (2 ^ 3) with 8; change (2 ^ 4) with 16; change (2 ^ 5) with 32;
  change (2 ^ 6) with 64; change (2 ^ 12) with 4096; change (2 ^ 18) with 262144;
  Z.div_mod_to_equations; lia.

Lemma decode2 (x0 x1 : Z) :
  0xC0 <= x0 <= 0xDF -> 0x80 <= x1 <= 0xBF ->
  Z.lor (Z.shiftl (Z.land x0 utf8.mask2) 6) (Z.land x1 utf8.maskx)
  = (x0 - 0xC0) * 64 + (x1 - 0x80).
Proof. intros H0 H1. bits. rewrite (lor_disjoint 6). all: arith. Qed.

Lemma decode3 (x0 x1 x2 : Z) :
  0xE0 <= x0 <= 0xEF -> 0x80 <= x1 <= 0xBF -> 0x80 <= x2 <= 0xBF ->
  Z.lor (Z.lor (Z.shiftl (Z.land x0 utf8.mask3) 12)
               (Z.shiftl (Z.land x1 utf8.maskx) 6))
        (Z.land x2 utf8.maskx)
  = (x0 - 0xE0) * 4096 + (x1 - 0x80) * 64 + (x2 - 0x80).
Proof.
  intros H0 H1 H2. bits.
  rewrite (lor_disjoint 12 (x0 mod 16 * 4096) (x1 mod 64 * 64)); [| arith ..].
  rewrite (lor_disjoint 6). all: arith.
Qed.

Lemma decode4 (x0 x1 x2 x3 : Z) :
  0xF0 <= x0 <= 0xF7 -> 0x80 <= x1 <= 0xBF -> 0x80 <= x2 <= 0xBF ->
  0x80 <= x3 <= 0xBF ->
  Z.lor (Z.lor (Z.lor (Z.shiftl (Z.land x0 utf8.mask4) 18)
                      (Z.shiftl (Z.land x1 utf8.maskx) 12))
               (Z.shiftl (Z.land x2 utf8.maskx) 6))
        (Z.land x3 utf8.maskx)
  = (x0 - 0xF0) * 262144 + (x1 - 0x80) * 4096 + (x2 - 0x80) * 64 + (x3 - 0x80).
Proof.
  intros H0 H1 H2 H3. bits.
  rewrite (lor_disjoint 18 (x0 mod 8 * 262144) (x1 mod 64 * 4096)); [| arith ..].
  rewrite (lor_disjoint 12 _ (x2 mod 64 * 64)); [| arith ..].
  rewrite (lor_disjoint 6). all: arith.
Qed.

Lemma encode2 (c : Z) :
  0x80 <= c <= 0x7FF ->
  utf8.EncodeRune c = String (chr (0xC0 + c / 64)) (str1 (chr (0x80 + c mod 64))).
Proof.
  intros H. unfold utf8.EncodeRune, utf8.rune1Max, utf8.rune2Max.
  destruct (Z.leb_spec c 0x7F); [lia |]. destruct (Z.leb_spec c 0x7FF); [| lia].
  bits. rewrite (lor_disjoint 5), (lor_disjoint 6). all: arith.
Qed.

Lemma encode3 (c : Z) :
  0x800 <= c <= 0xFFFF -> c < 0xD800 \/ 0xDFFF < c ->
  utf8.EncodeRune c =
    String (chr (0xE0 + c / 4096))
      (String (chr (0x80 + (c / 64) mod 64)) (str1 (chr (0x80 + c mod 64)))).
Proof.
  intros H S. unfold utf8.EncodeRune, utf8.rune1Max, utf8.rune2Max, utf8.rune3Max,
    utf8.surrogateMin, utf8.surrogateMax.
  destruct (Z.leb_spec c 0x7F); [lia |]. destruct (Z.leb_spec c 0x7FF); [lia |].
  destruct (Z.ltb_spec c 0xD800), (Z.ltb_spec 0xDFFF c), (Z.leb_spec c 0xFFFF);
    cbn [orb andb]; try lia.
  all: bits; rewrite (lor_disjoint 4), !(lor_disjoint 6); arith.
Qed.

Lemma encode4 (c : Z) :
  0x10000 <= c <= 0x10FFFF ->
  utf8.EncodeRune c =
    String (chr (0xF0 + c / 262144))
      (String (chr (0x80 + (c / 4096) mod 64))
         (String (chr (0x80 + (c / 64) mod 64)) (str1 (chr (0x80 + c mod 64))))).
Proof.
  intros H. unfold utf8.EncodeRune, utf8.rune1Max, utf8.rune2Max, utf8.rune3Max,
    utf8.surrogateMin, utf8.surrogateMax, utf8.MaxRune.
  destruct (Z.leb_spec c 0x7F); [lia |]. destruct (Z.leb_spec c 0x7FF); [lia |].
  destruct (Z.ltb_spec c 0xD800), (Z.ltb_spec 0xDFFF c), (Z.leb_spec c 0xFFFF),
    (Z.ltb_spec 0xFFFF c), (Z.leb_spec c 0x10FFFF); cbn [orb andb]; try lia.
  all: bits; rewrite (lor_disjoint 3), !(lor_disjoint 6); arith.
Qed.

Lemma first_cases (x : Z) :
  0x80 <= x < 256 ->
  utf8.first x = utf8.xx \/
  (0xC2 <= x <= 0xDF /\ utf8.first x = utf8.s1) \/
  (x = 0xE0 /\ utf8.first x = utf8.s2) \/
  ((0xE1 <= x <= 0xEC \/ 0xEE <= x <= 0xEF) /\ utf8.first x = utf8.s3) \/
  (x = 0xED /\ utf8.first x = utf8.s4) \/
  (x = 0xF0 /\ utf8.first x = utf8.s5) \/
  (0xF1 <= x <= 0xF3 /\ utf8.first x = utf8.s6) \/
  (x = 0xF4 /\ utf8.first x = utf8.s7).
Proof.
  intros R. unfold utf8.first.
  repeat match goal with
         | |- context [if ?a <? ?b then _ else _] => destruct (Z.ltb_spec a b)
         | |- context [if ?a =? ?b then _ else _] => destruct (Z.eqb_spec a b)
         end; try lia; tauto || (right; tauto) || idtac.
Qed.

(** Evaluates the table lookups of [DecodeRuneInString] once the entry of
    the first byte is known. *)
Ltac table x :=
  let sz := eval vm_compute in (Z.land x 7) in
  change (Z.land x 7) with sz in *;
  let ar := eval vm_compute in (utf8.acceptRanges (Z.shiftr x 4)) in
  change (utf8.acceptRanges (Z.shiftr x 4)) with ar in *;
  let g := eval vm_compute in (x >=? utf8.as_) in
  change (x >=? utf8.as_) with g in *;
  let e := eval vm_compute in (x =? utf8.xx) in
  change (x =? utf8.xx) with e in *;
  cbn [fst snd Z.leb Z.compare Pos.compare Pos.compare_cont Nat.ltb Nat.leb] in *;
  unfold utf8.locb, utf8.hicb in *.

Ltac decode_eval Hf :=
  unfold utf8.DecodeRuneInString; cbn [length at_ get]; rewrite Hf;
  match type of Hf with _ = ?x => table x end.

Ltac split_if :=
  match goal with
  | |- context [?a <? ?b] => destruct (Z.ltb_spec a b)
  | |- context [?a <=? ?b] => destruct (Z.leb_spec a b)
  | |- context [?a =? ?b] => destruct (Z.eqb_spec a b)
  end.


Lemma high_byte (x : Z) : 0x80 <= x -> (0x80 <=? x) = true.
Proof. intros; now apply Z.leb_le. Qed.

Lemma Decode_2 (b0 b1 : byte) :
  utf8.first (val b0) = utf8.s1 -> 0xC2 <= val b0 <= 0xDF ->
  0x80 <= val b1 <= 0xBF ->
  is_rune_of ((val b0 - 0xC0) * 64 + (val b1 - 0x80)) (String b0 (str1 b1)).
Proof.
  intros Hf R0 R1. unfold is_rune_of. repeat split; try (cbn; lia).
  - rewrite encode2 by lia. unfold str1. f_equal; [| f_equal].
    + rewrite <- (chr_val b0) at 2. f_equal. arith.
    + rewrite <- (chr_val b1) at 2. f_equal. arith.
  - intros t. cbn [append str1]. decode_eval Hf.
    repeat (split_if; try lia; cbn [orb]).
    rewrite decode2 by lia. reflexivity.
Qed.

Lemma Decode_3 (b0 b1 b2 : byte) (x lo hi : Z) :
  utf8.first (val b0) = x -> 0xE0 <= val b0 <= 0xEF ->
  (x = utf8.s2 /\ val b0 = 0xE0 /\ lo = 0xA0 /\ hi = 0xBF) \/
  (x = utf8.s3 /\ val b0 <> 0xE0 /\ val b0 <> 0xED /\ lo = 0x80 /\ hi = 0xBF) \/
  (x = utf8.s4 /\ val b0 = 0xED /\ lo = 0x80 /\ hi = 0x9F) ->
  lo <= val b1 <= hi -> 0x80 <= val b2 <= 0xBF ->
  is_rune_of ((val b0 - 0xE0) * 4096 + (val b1 - 0x80) * 64 + (val b2 - 0x80))
    (String b0 (String b1 (str1 b2))).
Proof.
  intros Hf R0 C R1 R2. unfold is_rune_of.
  assert (R1' : 0x80 <= val b1 <= 0xBF) by lia.
  repeat split; try (cbn; lia).
  - rewrite encode3 by lia. unfold str1. f_equal; [| f_equal; [| f_equal]].
    + rewrite <- (chr_val b0) at 2. f_equal. arith.
    + rewrite <- (chr_val b1) at 2. f_equal. arith.
    + rewrite <- (chr_val b2) at 2. f_equal. arith.
  - intros t. cbn [append str1].
    destruct C as [(-> & ? & -> & ->) | [(-> & ? & ? & -> & ->) | (-> & ? & -> & ->)]];
      decode_eval Hf;
      repeat (split_if; try lia; cbn [orb]);
      rewrite decode3 by lia; reflexivity.
Qed.

Lemma Decode_4 (b0 b1 b2 b3 : byte) (x lo hi : Z) :
  utf8.first (val b0) = x -> 0xF0 <= val b0 <= 0xF4 ->
  (x = utf8.s5 /\ val b0 = 0xF0 /\ lo = 0x90 /\ hi = 0xBF) \/
  (x = utf8.s6 /\ 0xF1 <= val b0 <= 0xF3 /\ lo = 0x80 /\ hi = 0xBF) \/
  (x = utf8.s7 /\ val b0 = 0xF4 /\ lo = 0x80 /\ hi = 0x8F) ->
  lo <= val b1 <= hi -> 0x80 <= val b2 <= 0xBF -> 0x80 <= val b3 <= 0xBF ->
  is_rune_of ((val b0 - 0xF0) * 262144 + (val b1 - 0x80) * 4096
              + (val b2 - 0x80) * 64 + (val b3 - 0x80))
    (String b0 (String b1 (String b2 (str1 b3)))).
Proof.
  intros Hf R0 C R1 R2 R3. unfold is_rune_of.
  assert (R1' : 0x80 <= val b1 <= 0xBF) by lia.
  repeat split; try (cbn; lia).
  - rewrite encode4 by lia. unfold str1. f_equal; [| f_equal; [| f_equal; [| f_equal]]].
    + rewrite <- (chr_val b0) at 2. f_equal. arith.
    + rewrite <- (chr_val b1) at 2. f_equal. arith.
    + rewrite <- (chr_val b2) at 2. f_equal. arith.
    + rewrite <- (chr_val b3) at 2. f_equal. arith.
  - intros t. cbn [append str1].
    destruct C as [(-> & ? & -> & ->) | [(-> & ? & -> & ->) | (-> & ? & -> & ->)]];
      decode_eval Hf;
      repeat (split_if; try lia; cbn [orb]);
      rewrite decode4 by lia; reflexivity.
Qed.

(** At a byte of 0x80 or more, [DecodeRuneInString] either reports an
    invalid encoding or finds the encoding of a rune. *)
Lemma DecodeRune_nonascii (b0 : byte) (s' : string) :
  0x80 <= val b0 ->
  utf8.DecodeRuneInString (String b0 s') = (utf8.RuneError, 1%nat) \/
  exists c enc r, String b0 s' = enc ++ r /\ is_rune_of c enc.
Proof.
  intros H. pose proof (val_range b0) as R.
  destruct (first_cases (val b0)) as
    [Hf | [[R0 Hf] | [[R0 Hf] | [[R0 Hf] | [[R0 Hf] | [[R0 Hf] | [[R0 Hf] | [R0 Hf]]]]]]]];
    [lia | ..].
  - left. decode_eval Hf. reflexivity.
  - destruct s' as [|b1 r]; decode_eval Hf;
      repeat (split_if; try lia; cbn [orb]); try (left; reflexivity).
    right. exists ((val b0 - 0xC0) * 64 + (val b1 - 0x80)), (String b0 (str1 b1)), r.
    split; [reflexivity |]. apply Decode_2; [exact Hf | lia ..].
  - destruct s' as [|b1 [|b2 r]]; decode_eval Hf;
      repeat (split_if; try lia; cbn [orb]); try (left; reflexivity).
    right. eexists _, (String b0 (String b1 (str1 b2))), r.
    split; [reflexivity |].
    apply (Decode_3 b0 b1 b2 utf8.s2 0xA0 0xBF); [exact Hf | lia | | lia ..].
    left. repeat split; lia.
  - destruct s' as [|b1 [|b2 r]]; decode_eval Hf;
      repeat (split_if; try lia; cbn [orb]); try (left; reflexivity).
    right. eexists _, (String b0 (String b1 (str1 b2))), r.
    split; [reflexivity |].
    apply (Decode_3 b0 b1 b2 utf8.s3 0x80 0xBF); [exact Hf | lia | | lia ..].
    right; left. repeat split; lia.
  - destruct s' as [|b1 [|b2 r]]; decode_eval Hf;
      repeat (split_if; try lia; cbn [orb]); try (left; reflexivity).
    right. eexists _, (String b0 (String b1 (str1 b2))), r.
    split; [reflexivity |].
    apply (Decode_3 b0 b1 b2 utf8.s4 0x80 0x9F); [exact Hf | lia | | lia ..].
    right; right. repeat split; lia.
  - destruct s' as [|b1 [|b2 [|b3 r]]]; decode_eval Hf;
      repeat (split_if; try lia; cbn [orb]); try (left; reflexivity).
    right. eexists _, (String b0 (String b1 (String b2 (str1 b3)))), r.
    split; [reflexivity |].
    apply (Decode_4 b0 b1 b2 b3 utf8.s5 0x90 0xBF); [exact Hf | lia | | lia ..].
    left. repeat split; lia.
  - destruct s' as [|b1 [|b2 [|b3 r]]]; decode_eval Hf;
      repeat (split_if; try lia; cbn [orb]); try (left; reflexivity).
    right. eexists _, (String b0 (String b1 (String b2 (str1 b3)))), r.
    split; [reflexivity |].
    apply (Decode_4 b0 b1 b2 b3 utf8.s6 0x80 0xBF); [exact Hf | lia | | lia ..].
    right; left. repeat split; lia.
  - destruct s' as [|b1 [|b2 [|b3 r]]]; decode_eval Hf;
      repeat (split_if; try lia; cbn [orb]); try (left; reflexivity).
    right. eexists _, (String b0 (String b1 (String b2 (str1 b3)))), r.
    split; [reflexivity |].
    apply (Decode_4 b0 b1 b2 b3 utf8.s7 0x80 0x8F); [exact Hf | lia | | lia ..].
    right; right. repeat split; lia.
Qed.


(** ** Slices of strings *)

Lemma take_drop (n : nat) (s : string) : take n s ++ drop n s = s.
Proof.
  revert s. induction n as [|n IH]; intros [|b s]; cbn; try reflexivity.
  now rewrite IH.
Qed.

Lemma take_append (a b : string) : take (length a) (a ++ b) = a.
Proof. induction a as [|x a IH]; cbn; [now destruct b | now rewrite IH]. Qed.

Lemma drop_append (a b : string) : drop (length a) (a ++ b) = b.
Proof. induction a as [|x a IH]; cbn; [now destruct b | exact IH]. Qed.

Lemma take_append_le (n : nat) (a b : string) :
  (length a <= n)%nat -> take n (a ++ b) = a ++ take (n - length a) b.
Proof.
  revert n. induction a as [|x a IH]; intros n L; cbn [append length].
  - now rewrite Nat.sub_0_r.
  - destruct n as [|n]; [cbn in L; lia |]. cbn [take length Nat.sub].
    rewrite IH by (cbn in L; lia). reflexivity.
Qed.

Lemma length_drop (n : nat) (s : string) : length (drop n s) = (length s - n)%nat.
Proof.
  revert s. induction n as [|n IH]; intros [|b s]; cbn; try reflexivity. apply IH.
Qed.

Lemma take_add (n k : nat) (s : string) :
  take (n + k) s = take n s ++ take k (drop n s).
Proof.
  revert s. induction n as [|n IH]; intros s; [reflexivity |].
  destruct s as [|b s]; [now destruct k | cbn; now rewrite IH].
Qed.

Lemma drop_add (n k : nat) (s : string) : drop (n + k) s = drop k (drop n s).
Proof.
  revert s. induction n as [|n IH]; intros s; [reflexivity |].
  destruct s as [|b s]; [now destruct k | cbn; apply IH].
Qed.

(** ** One rune through the encoder, the scanner and the decoder *)

Lemma scanString_high (enc Y : string) :
  all_bytes (Z.leb 0x80) enc = true ->
  json.scanString (enc ++ Y) =
    match json.scanString Y with
    | Some (l, r) => Some (enc ++ l, r)
    | None => None
    end.
Proof.
  induction enc as [|b enc IH]; intros H.
  - cbn [append]. now destruct (json.scanString Y) as [[l r] |].
  - cbn [all_bytes] in H. apply andb_true_iff in H. destruct H as [Hb H].
    apply Z.leb_le in Hb. cbn [append json.scanString].
    destruct (Z.eqb_spec (val b) 0x22); [lia |].
    destruct (Z.eqb_spec (val b) 0x5C); [lia |].
    destruct (Z.ltb_spec (val b) 0x20); [lia |].
    rewrite (IH H). now destruct (json.scanString Y) as [[l r] |].
Qed.

(** An ASCII byte: what the encoder writes for it is read back as that
    byte.  The 128 bytes are checked one by one. *)
Lemma ascii_mirrors (b : byte) (rest : string) :
  val b < 0x80 ->
  exists chunk,
    json.appendString_body (String b rest) = (chunk, 1%nat) /\
    mirrors chunk (str1 b).
Proof.
  intros H.
  destruct b as [b0 b1 b2 b3 b4 b5 b6 b7].
  destruct b7; [exfalso; revert H; destruct b0, b1, b2, b3, b4, b5, b6; vm_compute; intros H; discriminate H |].
  destruct b0, b1, b2, b3, b4, b5, b6;
    (eexists; split; [reflexivity |]; split; [discriminate |]; split;
     [intros X; reflexivity
     | intros Y; cbn; destruct (json.scanString Y) as [[l r] |]; reflexivity]).
Qed.

(** A rune of two to four bytes in a valid string: the encoder writes it as
    it is, or as an escape when it is U+2028 or U+2029, and it is read
    back as it was. *)
Lemma rune_mirrors (b : byte) (rest : string) (n : nat) :
  0x80 <= val b ->
  utf8.valid_body (String b rest) = Some n ->
  exists chunk,
    json.appendString_body (String b rest) = (chunk, n) /\
    mirrors chunk (take n (String b rest)) /\
    (1 <= n <= length (String b rest))%nat.
Proof.
  intros H V. unfold utf8.valid_body in V. cbn [at_ get] in V.
  unfold utf8.RuneSelf in V.
  destruct (Z.ltb_spec (val b) 0x80) as [? | _]; [lia |].
  unfold json.appendString_body. cbn [at_ get]. unfold utf8.RuneSelf, utf8.UTFMax.
  destruct (Z.ltb_spec (val b) 0x80) as [? | _]; [lia |].
  destruct (DecodeRune_nonascii b rest H) as [E | (c & enc & r & E & L & Enc & Hi & C & Dec)].
  - rewrite E in V. discriminate V.
  - rewrite E in *. rewrite Dec in V.
    assert (N : (length enc =? 1)%nat = false) by (apply Nat.eqb_neq; lia).
    rewrite N in V. injection V as <-.
    rewrite take_append_le by lia. rewrite Dec, N, andb_false_r, take_append.
    assert (Len : (1 <= length enc <= length (enc ++ r))%nat)
      by (rewrite length_append; lia).
    assert (Raw : mirrors enc enc).
    { split; [intros ->; cbn in L; lia |]. split.
      - intros X. unfold json.unquote_body.
        destruct enc as [|b' enc']; [cbn in L; lia |].
        cbn [append] in E. injection E as <- _.
        cbn [append at_ get]. unfold utf8.RuneSelf.
        destruct (Z.eqb_spec (val b) 0x5C); [lia |].
        destruct (Z.eqb_spec (val b) 0x22); [lia |].
        destruct (Z.ltb_spec (val b) 0x20); [lia |].
        destruct (Z.ltb_spec (val b) 0x80); [lia |]. cbn [orb].
        change (String b (enc' ++ X)) with (String b enc' ++ X).
        rewrite Dec, Enc. reflexivity.
      - intros Y. now apply scanString_high. }
    destruct (Z.eqb_spec c 0x2028) as [-> | _]; [| destruct (Z.eqb_spec c 0x2029) as [-> | _]];
      cbn [orb].
    + eexists. split; [reflexivity |]. split; [| exact Len].
      rewrite <- Enc. split; [discriminate |]. split.
      * intros X. reflexivity.
      * intros Y. cbn. now destruct (json.scanString Y) as [[l q] |].
    + eexists. split; [reflexivity |]. split; [| exact Len].
      rewrite <- Enc. split; [discriminate |]. split.
      * intros X. reflexivity.
      * intros Y. cbn. now destruct (json.scanString Y) as [[l q] |].
    + eexists. split; [reflexivity |]. split; [exact Raw | exact Len].
Qed.

Lemma step_mirrors (b : byte) (rest : string) (n : nat) :
  utf8.valid_body (String b rest) = Some n ->
  exists chunk,
    json.appendString_body (String b rest) = (chunk, n) /\
    mirrors chunk (take n (String b rest)) /\
    (1 <= n <= length (String b rest))%nat.
Proof.
  intros V. destruct (Z.lt_ge_cases (val b) 0x80) as [A | A].
  - assert (n = 1%nat) as ->.
    { unfold utf8.valid_body in V. cbn [at_ get] in V. unfold utf8.RuneSelf in V.
      destruct (Z.ltb_spec (val b) 0x80); [congruence | lia]. }
    destruct (ascii_mirrors b rest A) as (chunk & E & M).
    exists chunk. repeat split; try exact E; try apply M; cbn; lia.
  - now apply rune_mirrors.
Qed.

(** ** A string literal through the scanner and the decoder *)

(** The scanner finds the end of what the encoder wrote. *)
Lemma scanString_literal (fuel : nat) (s t : string) :
  utf8.valid_from fuel s = true ->
  json.scanString (json.appendString_loop fuel s ++ String dquote t) =
    Some (json.appendString_loop fuel s, t).
Proof.
  revert s. induction fuel as [|fuel IH]; intros s V; [reflexivity |].
  destruct s as [|b rest]; [reflexivity |].
  cbn [utf8.valid_from] in V. cbn [json.appendString_loop].
  destruct (utf8.valid_body (String b rest)) as [n |] eqn:B; [| discriminate V].
  destruct (step_mirrors b rest n B) as (chunk & E & (_ & _ & S) & _).
  rewrite E, append_assoc, S, (IH _ V). reflexivity.
Qed.

(** The second loop of the decoder undoes the loop of the encoder. *)
Lemma unquote_loop_literal (fuel : nat) (s : string) :
  (length s <= fuel)%nat ->
  utf8.valid_from fuel s = true ->
  forall f, (length (json.appendString_loop fuel s) <= f)%nat ->
  json.unquote_loop f (json.appendString_loop fuel s) = Some s.
Proof.
  revert s. induction fuel as [|fuel IH]; intros s L V f F.
  - destruct s; [| cbn in L; lia]. now destruct f.
  - destruct s as [|b rest]; [now destruct f |].
    cbn [utf8.valid_from] in V. cbn [json.appendString_loop] in *.
    destruct (utf8.valid_body (String b rest)) as [n |] eqn:B; [| discriminate V].
    destruct (step_mirrors b rest n B) as (chunk & E & (N & U & _) & Ln).
    rewrite E in *. rewrite length_append in F.
    destruct chunk as [|c0 chunk]; [now elim N |].
    destruct f as [|f]; [cbn in F; lia |].
    cbn [append json.unquote_loop].
    change (String c0 (chunk ++ json.appendString_loop fuel (drop n (String b rest))))
      with (String c0 chunk ++ json.appendString_loop fuel (drop n (String b rest))).
    rewrite U, drop_append.
    rewrite IH; [ cbn [option_map]; now rewrite take_drop
                | rewrite length_drop; cbn [length] in *; lia
                | exact V
                | cbn [length] in F; lia ].
Qed.

(** ** The two loops of unquoteBytes *)

Lemma DecodeRune_size (b : byte) (rest : string) :
  (1 <= snd (utf8.DecodeRuneInString (String b rest)) <= length (String b rest))%nat.
Proof.
  destruct (Z.lt_ge_cases (val b) 0x80) as [A | A].
  - unfold utf8.DecodeRuneInString. cbn [length at_ get Nat.ltb Nat.leb].
    assert (F : utf8.first (val b) = utf8.as_).
    { unfold utf8.first. destruct (Z.ltb_spec (val b) 0x80); [reflexivity | lia]. }
    rewrite F. cbn. lia.
  - destruct (DecodeRune_nonascii b rest A) as [E | (c & enc & r & E & L & _ & _ & _ & Dec)].
    + rewrite E. cbn. lia.
    + rewrite E, Dec, length_append. cbn [snd]. lia.
Qed.

Lemma unquote_body_consumes (s out : string) (n : nat) :
  json.unquote_body s = Some (out, n) -> (1 <= n)%nat.
Proof.
  destruct s as [|b rest]; [discriminate |].
  unfold json.unquote_body. intros H.
  repeat match type of H with
         | (if ?c then _ else _) = _ => destruct c
         | (let '(_, _) := ?d in _) = _ => destruct d eqn:D
         end; try discriminate H; try (injection H as _ <-; lia).
  injection H as _ <-.
  pose proof (DecodeRune_size b rest) as S. rewrite D in S. cbn [snd] in S. lia.
Qed.

(** The second loop does not depend on its budget, once that covers the
    input. *)
Lemma unquote_loop_fuel (f1 f2 : nat) (s : string) :
  (length s <= f1)%nat -> (length s <= f2)%nat ->
  json.unquote_loop f1 s = json.unquote_loop f2 s.
Proof.
  revert f2 s. induction f1 as [|f1 IH]; intros f2 s L1 L2.
  - destruct s; [now destruct f2 | cbn in L1; lia].
  - destruct s as [|b rest]; [now destruct f2 |].
    destruct f2 as [|f2]; [cbn in L2; lia |].
    cbn [json.unquote_loop].
    destruct (json.unquote_body (String b rest)) as [[out n] |] eqn:B; [| reflexivity].
    apply unquote_body_consumes in B.
    rewrite (IH f2); [reflexivity | |]; rewrite length_drop; cbn [length] in *; lia.
Qed.

(** Where the first loop steps over a rune, the second loop copies it. *)
Lemma plain_body_copies (b : byte) (rest : string) (k : nat) :
  json.plain_body (String b rest) = S k ->
  json.unquote_body (String b rest) = Some (take (S k) (String b rest), S k) /\
  (S k <= length (String b rest))%nat.
Proof.
  unfold json.plain_body, json.unquote_body. cbn [at_ get]. unfold utf8.RuneSelf.
  destruct (Z.eqb_spec (val b) 0x5C); [discriminate |].
  destruct (Z.eqb_spec (val b) 0x22); [discriminate |].
  destruct (Z.ltb_spec (val b) 0x20); [discriminate |]. cbn [orb].
  destruct (Z.ltb_spec (val b) 0x80) as [A | A].
  - intros [= <-]. cbn [take length]. rewrite chr_val. split; [reflexivity | lia].
  - destruct (DecodeRune_nonascii b rest A) as [E | (c & enc & r & E & L & Enc & _ & _ & Dec)].
    + rewrite E. cbn. discriminate.
    + rewrite E, Dec.
      assert (N : (length enc =? 1)%nat = false) by (apply Nat.eqb_neq; lia).
      rewrite N, andb_false_r. intros K. rewrite <- K, Enc, take_append, length_append.
      split; [reflexivity | lia].
Qed.

Lemma option_map_append_nil (o : option string) : option_map (append "") o = o.
Proof. now destruct o. Qed.

Lemma option_map_append (a b : string) (o : option string) :
  option_map (append a) (option_map (append b) o) = option_map (append (a ++ b)) o.
Proof. destruct o; cbn; [now rewrite append_assoc | reflexivity]. Qed.

(** The second loop, run from the start, copies what the first loop
    steps over. *)
Lemma unquote_loop_plainPrefix (fuel : nat) (s : string) (f : nat) :
  (length s <= fuel)%nat -> (length s <= f)%nat ->
  (json.plainPrefix fuel s <= length s)%nat /\
  json.unquote_loop f s =
    option_map (append (take (json.plainPrefix fuel s) s))
      (json.unquote_loop f (drop (json.plainPrefix fuel s) s)).
Proof.
  revert s f. induction fuel as [|fuel IH]; intros s f L F.
  - destruct s; [| cbn in L; lia]. cbn. split; [lia | now destruct f].
  - destruct s as [|b rest]; [cbn; split; [lia | now destruct f] |].
    cbn [json.plainPrefix].
    destruct (json.plain_body (String b rest)) as [|k] eqn:P.
    + cbn [take drop]. split; [lia | now rewrite option_map_append_nil].
    + destruct (plain_body_copies b rest k P) as [U K].
      destruct f as [|f]; [cbn in F; lia |].
      assert (L' : (length (drop (S k) (String b rest)) <= fuel)%nat)
        by (rewrite length_drop; cbn [length] in *; lia).
      assert (F' : (length (drop (S k) (String b rest)) <= f)%nat)
        by (rewrite length_drop; cbn [length] in *; lia).
      destruct (IH _ f L' F') as [B E]. rewrite length_drop in B. split; [lia |].
      rewrite take_add, drop_add.
      rewrite (unquote_loop_fuel (S f) f (drop _ (drop _ _)))
        by (rewrite !length_drop in *; cbn [length] in *; lia).
      cbn [json.unquote_loop]. rewrite U, E, option_map_append. reflexivity.
Qed.

Lemma take_all (s : string) : take (length s) s = s.
Proof. induction s as [|b s IH]; cbn; [reflexivity | now rewrite IH]. Qed.

Lemma drop_all (s : string) : drop (length s) s = "".
Proof. induction s as [|b s IH]; cbn; [reflexivity | exact IH]. Qed.

(** [unquoteBytes] is its second loop run on the whole literal. *)
Lemma unquote_is_loop (q : string) :
  json.unquote q = json.unquote_loop (length q) q.
Proof.
  unfold json.unquote.
  destruct (unquote_loop_plainPrefix (length q) q (length q)) as [B E]; [lia | lia |].
  rewrite E. destruct (Nat.eqb_spec (json.plainPrefix (length q) q) (length q)) as [R | _];
    [| reflexivity].
  rewrite R, take_all, drop_all.
  destruct (length q); cbn; now rewrite append_nil_r.
Qed.

(** The literal written for a valid string is parsed back to it. *)
Lemma parseString_literal (s t : string) :
  utf8.ValidString s = true ->
  json.parseString (json.appendString_loop (length s) s ++ String dquote t)
    = Some (s, t).
Proof.
  intros V. unfold json.parseString.
  rewrite (scanString_literal _ _ _ V), unquote_is_loop.
  rewrite unquote_loop_literal; [reflexivity | lia | exact V | lia].
Qed.


(** ** An object of string members through the parser *)

Lemma val_dquote : val dquote = 0x22.
Proof. reflexivity. Qed.

Lemma appendString_unfold (s t : string) :
  json.appendString s ++ t =
    String dquote (json.appendString_loop (length s) s ++ String dquote t).
Proof.
  unfold json.appendString. cbn [append]. now rewrite append_assoc.
Qed.

Lemma parseValue_string (fuel : nat) (s t : string) :
  utf8.ValidString s = true ->
  json.parseValue (S fuel) (json.appendString s ++ t) = Some (json.Str s, t).
Proof.
  intros V. rewrite appendString_unfold. cbn [json.parseValue].
  rewrite val_dquote. cbn [Z.eqb Pos.eqb].
  now rewrite parseString_literal.
Qed.

Lemma member_text_string (kv : string * string) (t : string) :
  member_text (string_field kv) ++ t =
    json.appendString (fst kv) ++ String ":" (json.appendString (snd kv) ++ t).
Proof.
  unfold member_text, string_field.
  cbn [json.name json.fv json.encoded json.stringValue].
  now rewrite !append_assoc.
Qed.

(** The last member of an object. *)
Lemma parseMembers_last (fuel : nat) (kv : string * string) (rest : string) :
  valid_pair kv ->
  json.parseMembers (S (S fuel)) (member_text (string_field kv) ++ String "}" rest)
    = Some ([as_member kv], rest).
Proof.
  intros [Vk Vv]. rewrite member_text_string, appendString_unfold.
  cbn [json.parseMembers]. rewrite val_dquote. cbn [Z.eqb Pos.eqb].
  rewrite (parseString_literal _ _ Vk).
  cbn [json.skipSpace]. change (json.isSpace (val ":"%char)) with false. cbv iota.
  change (val ":"%char =? 0x3A) with true. cbv iota.
  rewrite appendString_unfold at 1.
  cbn [json.skipSpace]. rewrite val_dquote.
  change (json.isSpace 0x22) with false. cbv iota.
  rewrite <- appendString_unfold, (parseValue_string _ _ _ Vv).
  cbn [json.skipSpace]. change (json.isSpace (val "}"%char)) with false. cbv iota.
  change (val "}"%char =? 0x2C) with false. change (val "}"%char =? 0x7D) with true.
  reflexivity.
Qed.

(** A member followed by another. *)
Lemma parseMembers_more (fuel : nat) (kv : string * string) (t : string) :
  valid_pair kv ->
  json.parseMembers (S (S fuel))
    (member_text (string_field kv) ++ String "," (String dquote t))
    = match json.parseMembers (S fuel) (String dquote t) with
      | Some (ms, r) => Some (as_member kv :: ms, r)
      | None => None
      end.
Proof.
  intros [Vk Vv]. rewrite member_text_string, appendString_unfold.
  cbn [json.parseMembers]. rewrite val_dquote. cbn [Z.eqb Pos.eqb].
  rewrite (parseString_literal _ _ Vk).
  cbn [json.skipSpace]. change (json.isSpace (val ":"%char)) with false. cbv iota.
  change (val ":"%char =? 0x3A) with true. cbv iota.
  rewrite appendString_unfold at 1.
  cbn [json.skipSpace]. rewrite val_dquote.
  change (json.isSpace 0x22) with false. cbv iota.
  rewrite <- appendString_unfold, (parseValue_string _ _ _ Vv).
  cbn [json.skipSpace]. change (json.isSpace (val ","%char)) with false. cbv iota.
  change (val ","%char =? 0x2C) with true. cbv iota.
  cbn [json.skipSpace]. rewrite val_dquote. change (json.isSpace 0x22) with false. cbv iota.
  reflexivity.
Qed.

Lemma members_text_head (kv : string * string) (kvs : list (string * string)) (t : string) :
  exists X,
    concat "," (map member_text (map string_field (kv :: kvs))) ++ t = String dquote X.
Proof.
  cbn [map concat]. destruct (map member_text (map string_field kvs)).
  - rewrite member_text_string, appendString_unfold. eexists; reflexivity.
  - rewrite append_assoc, member_text_string, appendString_unfold. eexists; reflexivity.
Qed.

Lemma parseMembers_strings (kvs : list (string * string)) :
  kvs <> [] -> Forall valid_pair kvs ->
  forall fuel rest, (List.length kvs < fuel)%nat ->
  json.parseMembers fuel
    (concat "," (map member_text (map string_field kvs)) ++ String "}" rest)
    = Some (map as_member kvs, rest).
Proof.
  induction kvs as [|kv kvs IH]; intros N V fuel rest F; [now elim N |].
  inversion V as [|? ? Vkv V']; subst.
  destruct fuel as [|[|fuel]]; [cbn in F; lia | cbn in F; lia |].
  destruct kvs as [|kv' kvs].
  - cbn [map concat]. now apply parseMembers_last.
  - destruct (members_text_head kv' kvs (String "}" rest)) as [X E].
    change (map member_text (map string_field (kv :: kv' :: kvs)))
      with (member_text (string_field kv)
              :: map member_text (map string_field (kv' :: kvs))).
    set (T := map member_text (map string_field (kv' :: kvs))) in *.
    assert (C : concat "," (member_text (string_field kv) :: T)
                = member_text (string_field kv) ++ "," ++ concat "," T).
    { unfold T. reflexivity. }
    rewrite C, !append_assoc. cbn [append]. rewrite E.
    rewrite (parseMembers_more _ _ _ Vkv), <- E.
    unfold T. rewrite IH; [reflexivity | discriminate | exact V' | cbn [List.length] in *; lia].
Qed.


Lemma length_concat_members (kvs : list (string * string)) :
  (List.length kvs <= length (concat "," (map member_text (map string_field kvs))))%nat.
Proof.
  induction kvs as [|kv kvs IH]; [cbn; lia |].
  destruct (members_text_head kv kvs "") as [X E]. rewrite append_nil_r in E.
  cbn [map] in *. destruct kvs as [|kv' kvs].
  - rewrite E. cbn. lia.
  - cbn [map] in *. rewrite concat_cons2, !length_append.
    assert (1 <= length (member_text (string_field kv)))%nat.
    { pose proof (member_text_string kv "") as M. rewrite append_nil_r in M.
      rewrite M, appendString_unfold. cbn. lia. }
    cbn [List.length] in *. lia.
Qed.

(** An object whose members are strings, followed by white space at most,
    is parsed to its members. *)
Lemma parse_object_text (kvs : list (string * string)) (t : string) :
  Forall valid_pair kvs ->
  json.skipSpace t = "" ->
  json.parse (object_text (map string_field kvs) ++ t)
    = Some (json.Object (map as_member kvs)).
Proof.
  intros V T. unfold json.parse, object_text.
  pose proof (length_concat_members kvs) as L.
  set (body := concat "," (map member_text (map string_field kvs))) in *.
  replace (("{" ++ body ++ "}") ++ t) with (String "{" (body ++ String "}" t))
    by (cbn [append]; now rewrite append_assoc).
  cbn [json.skipSpace length json.parseValue].
  change (json.isSpace (val "{"%char)) with false. cbv iota.
  cbn [json.parseValue]. change (val "{"%char =? 0x7B) with true. cbv iota.
  destruct kvs as [|kv kvs].
  - cbn. now rewrite T.
  - destruct (members_text_head kv kvs (String "}" t)) as [X E]. fold body in E.
    rewrite E. cbn [json.skipSpace]. rewrite val_dquote.
    change (json.isSpace 0x22) with false. cbv iota.
    change (0x22 =? 0x7D) with false. cbv iota.
    rewrite <- E. unfold body.
    rewrite parseMembers_strings;
      [ rewrite val_dquote; change (0x22 =? 0x7D) with false; cbv beta iota;
        now rewrite T
      | discriminate | exact V | rewrite length_append; fold body; lia ].
Qed.

Lemma filter_written_strings (kvs : list (string * string)) :
  filter json.written (map string_field kvs)
    = map string_field (filter nonempty_pair kvs).
Proof.
  induction kvs as [|kv kvs IH]; [reflexivity |].
  cbn [map filter]. rewrite IH. destruct kv as [k [|b v]]; reflexivity.
Qed.

(** The encoding of a message without attachments is the object of its
    non-empty string fields. *)
Lemma Marshal_strings (m : Message.t) :
  len (Message.Attachments m) = 0%nat ->
  json.Marshal m = object_text (map string_field (filter nonempty_pair (string_pairs m))).
Proof.
  intros A. unfold json.Marshal. rewrite structEncoder_written.
  change (json.fields_Message m)
    with (map string_field (string_pairs m)
            ++ [json.tagged "attachments,omitempty"
                  (json.sliceValue json.marshal_Attachment (Message.Attachments m))])%list.
  rewrite filter_app, filter_written_strings.
  cbn [filter]. unfold json.written at 1.
  change (json.omitEmpty (json.tagged "attachments,omitempty"
            (json.sliceValue json.marshal_Attachment (Message.Attachments m))))
    with true.
  cbn [json.fv json.tagged json.isEmptyValue json.sliceValue json.cut].
  change (json.isEmptyValue (json.fv (json.tagged "attachments,omitempty"
            (json.sliceValue json.marshal_Attachment (Message.Attachments m)))))
    with (len (Message.Attachments m) =? 0)%nat.
  rewrite A. cbn [Nat.eqb andb negb]. now rewrite app_nil_r.
Qed.

(** The decoder puts every string member back into its field. *)
Lemma unmarshal_strings (u c e i t : string) :
  json.unmarshal_Message
    (json.Object (map as_member
       (filter nonempty_pair (string_pairs (Message.mk u c e i t None)))))
    json.zero_Message
  = Some (Message.mk u c e i t None).
Proof. destruct u, c, e, i, t; reflexivity. Qed.

Lemma valid_string_pairs (m : Message.t) :
  valid_strings m -> Forall valid_pair (filter nonempty_pair (string_pairs m)).
Proof.
  intros (U & C & E & I & T).
  assert (F : Forall valid_pair (string_pairs m)).
  { unfold string_pairs. repeat constructor; assumption. }
  apply Forall_forall. intros kv H. apply filter_In in H.
  rewrite Forall_forall in F. now apply F.
Qed.

(** ** The round trip *)

(** C7 (as amended): for every Message with an empty attachments sequence
    whose string fields are valid UTF-8, encoding it to JSON and decoding
    that JSON back into a Message succeeds and yields a value equal to the
    original on every field that was not omitted. *)
Theorem Marshal_Unmarshal_roundtrip (m : Message.t) :
  len (Message.Attachments m) = 0%nat ->
  valid_strings m ->
  roundtrips m.
Proof.
  intros A V. unfold roundtrips.
  exists (Message.mk (Message.Username m) (Message.Channel m) (Message.IconEmoji m)
            (Message.IconURL m) (Message.Text m) None).
  split; [| split].
  - unfold json.Unmarshal. rewrite (Marshal_strings m A).
    rewrite <- (append_nil_r (object_text _)).
    rewrite (parse_object_text _ "" (valid_string_pairs m V) eq_refl).
    apply unmarshal_strings.
  - intros b [= <-]. unfold json.Unmarshal. rewrite (Marshal_strings m A).
    rewrite (parse_object_text _ (str1 (chr 10)) (valid_string_pairs m V) eq_refl).
    apply unmarshal_strings.
  - unfold agree_on_written. cbv zeta. conjuncts; try (intros _; reflexivity).
    rewrite In_keys_present, present_Message, A. cbn [In Nat.eqb negb].
    intros H. repeat (destruct H as [H | H]; [discriminate H |]). contradiction.
Qed.

Lemma Marshal_Unmarshal_roundtrip_witness :
  len (Message.Attachments hello) = 0%nat /\ valid_strings hello /\ roundtrips hello.
Proof.
  assert (A : len (Message.Attachments hello) = 0%nat) by reflexivity.
  assert (V : valid_strings hello) by (repeat split).
  split; [exact A |]. split; [exact V |].
  exact (Marshal_Unmarshal_roundtrip hello A V).
Defined.

(** C7 (as stated, refuted): a message without attachments whose text is
    the byte 0xFF, which is not valid UTF-8, is encoded as the escape of
    U+FFFD and decoded as the bytes EF BF BD: the text was not omitted
    and does not come back. *)
Lemma Marshal_Unmarshal_latin1 :
  len (Message.Attachments latin1) = 0%nat /\ ~ roundtrips latin1.
Proof.
  split; [reflexivity |].
  intros (m' & E & _ & A).
  assert (D : json.Unmarshal (json.Marshal latin1)
              = Some (Message.mk "" "" "" ""
                        (String (chr 0xEF) (String (chr 0xBF) (str1 (chr 0xBD)))) None))
    by (vm_compute; reflexivity).
  rewrite D in E. injection E as <-.
  destruct A as (_ & _ & _ & _ & T & _).
  assert (K : In "text" (json.keys (json.fields_Message latin1)))
    by (vm_compute; left; reflexivity).
  specialize (T K). discriminate T.
Qed.

(** * Further properties of Send *)

(** X1: a Send with a message and a client hands exactly one request to
    the HTTP client, whatever the client answers: a POST to the webhook
    URL, of content type application/json, whose body is the JSON encoding
    of the message and a newline.  The requests made before stay as they
    were, and so do the response bodies handed out before; at most one new
    body is handed out. *)
Theorem Client_Send_one_request (w : World) (pc pm : ptr) :
  Requests (snd (Client_Send (Some pc) (Some pm) w)) =
    (Requests w ++
       [http.mkRequest "POST" (Client.WebhookURL (Clients w pc)) "application/json"
          (json.Marshal (Messages w pm) ++ str1 (chr 10))])%list /\
  exists new,
    Streams (snd (Client_Send (Some pc) (Some pm) w)) = (Streams w ++ new)%list /\
    (List.length new <= 1)%nat.
Proof.
  fold (request_of w pc pm).
  destruct (client_of w pc (request_of w pc pm)) as [r | err] eqn:A.
  - rewrite (Client_Send_response _ _ _ _ A). split; [reflexivity |].
    eexists [_]. split; [reflexivity | cbn; lia].
  - rewrite (Client_Send_no_response _ _ _ _ A). split; [reflexivity |].
    exists []. split; [now rewrite app_nil_r | cbn; lia].
Qed.

(** X2: a client that has an HTTP client of its own never touches
    [http.DefaultClient]: whatever the default client is, Send returns the
    same result, makes the same request and leaves the same response
    bodies. *)
Theorem Client_Send_ignores_default
    (w : World) (pc pm : ptr) (hc d : http.Client) :
  Client.HTTPClient (Clients w pc) = Some hc ->
  fst (Client_Send (Some pc) (Some pm) (with_default d w)) =
    fst (Client_Send (Some pc) (Some pm) w) /\
  Requests (snd (Client_Send (Some pc) (Some pm) (with_default d w))) =
    Requests (snd (Client_Send (Some pc) (Some pm) w)) /\
  Streams (snd (Client_Send (Some pc) (Some pm) (with_default d w))) =
    Streams (snd (Client_Send (Some pc) (Some pm) w)).
Proof.
  intros H.
  assert (C : client_of (with_default d w) pc = client_of w pc).
  { unfold client_of. cbn [with_default Clients]. now rewrite H. }
  assert (R : request_of (with_default d w) pc pm = request_of w pc pm) by reflexivity.
  destruct (client_of w pc (request_of w pc pm)) as [r | err] eqn:A.
  - rewrite (Client_Send_response w pc pm r A).
    rewrite (Client_Send_response (with_default d w) pc pm r); [| now rewrite C, R].
    repeat split.
  - rewrite (Client_Send_no_response w pc pm err A).
    rewrite (Client_Send_no_response (with_default d w) pc pm err); [| now rewrite C, R].
    repeat split.
Qed.

Lemma Client_Send_ignores_default_witness :
  Client.HTTPClient
    (Clients (world_injected (canned 200 "200 OK" "ok" None) hello) 0%nat)
    = Some (canned 200 "200 OK" "ok" None) /\
  fst (Client_Send (Some 0%nat) (Some 0%nat)
         (with_default (failing "unreachable")
            (world_injected (canned 200 "200 OK" "ok" None) hello))) =
    fst (Client_Send (Some 0%nat) (Some 0%nat)
           (world_injected (canned 200 "200 OK" "ok" None) hello)) /\
  Requests (snd (Client_Send (Some 0%nat) (Some 0%nat)
                   (with_default (failing "unreachable")
                      (world_injected (canned 200 "200 OK" "ok" None) hello)))) =
    Requests (snd (Client_Send (Some 0%nat) (Some 0%nat)
                     (world_injected (canned 200 "200 OK" "ok" None) hello))) /\
  Streams (snd (Client_Send (Some 0%nat) (Some 0%nat)
                  (with_default (failing "unreachable")
                     (world_injected (canned 200 "200 OK" "ok" None) hello)))) =
    Streams (snd (Client_Send (Some 0%nat) (Some 0%nat)
                    (world_injected (canned 200 "200 OK" "ok" None) hello))).
Proof.
  split; [reflexivity |].
  apply (Client_Send_ignores_default
           (world_injected (canned 200 "200 OK" "ok" None) hello) 0%nat 0%nat
           (canned 200 "200 OK" "ok" None) (failing "unreachable")).
  reflexivity.
Defined.

(** X3: the free function [Send] posts with [http.DefaultClient] to the
    URL it is given, and its only effect on the heap is the one [Client]
    cell it allocates: every [Client] that existed and every [Message] is
    as before. *)
Theorem Send_effects (WebhookURL : string) (pm : ptr) (w : World) :
  Requests (snd (Send WebhookURL (Some pm) w)) =
    (Requests w ++
       [http.mkRequest "POST" WebhookURL "application/json"
          (json.Marshal (Messages w pm) ++ str1 (chr 10))])%list /\
  (forall r, DefaultClient w
               (http.mkRequest "POST" WebhookURL "application/json"
                  (json.Marshal (Messages w pm) ++ str1 (chr 10))) = inl r ->
             http.reply_StatusCode r < 300 ->
             fst (Send WebhookURL (Some pm) w) = Returns None) /\
  (forall err, DefaultClient w
                 (http.mkRequest "POST" WebhookURL "application/json"
                    (json.Marshal (Messages w pm) ++ str1 (chr 10))) = inr err ->
               fst (Send WebhookURL (Some pm) w)
                 = Returns (Some (Errorf "Could not send the request: %s" [err]))) /\
  Messages (snd (Send WebhookURL (Some pm) w)) = Messages w /\
  (forall p, p <> brk w -> Clients (snd (Send WebhookURL (Some pm) w)) p = Clients w p) /\
  Clients (snd (Send WebhookURL (Some pm) w)) (brk w) = Client.mk WebhookURL None.
Proof.
  set (w' := snd (new_Client (Client.mk WebhookURL None) w)).
  change (Send WebhookURL (Some pm) w) with (Client_Send (Some (brk w)) (Some pm) w').
  assert (R : request_of w' (brk w) pm =
              http.mkRequest "POST" WebhookURL "application/json"
                (json.Marshal (Messages w pm) ++ str1 (chr 10))).
  { unfold request_of, w'. cbn. now rewrite Nat.eqb_refl. }
  assert (C : client_of w' (brk w) = DefaultClient w).
  { unfold client_of, w'. cbn. now rewrite Nat.eqb_refl. }
  assert (K : forall p, p <> brk w -> Clients w' p = Clients w p).
  { intros p N. unfold w'. cbn. apply Nat.eqb_neq in N. now rewrite N. }
  assert (B : Clients w' (brk w) = Client.mk WebhookURL None).
  { unfold w'. cbn. now rewrite Nat.eqb_refl. }
  destruct (client_of w' (brk w) (request_of w' (brk w) pm)) as [r | err] eqn:A.
  - rewrite (Client_Send_response _ _ _ _ A), R. rewrite C, R in A.
    cbn [fst snd set_io Requests Messages Clients].
    repeat split; try assumption.
    + intros r' E L. rewrite A in E. injection E as <-.
      destruct (Z.geb_spec (http.reply_StatusCode r) 300); [lia | reflexivity].
    + intros err E. rewrite A in E. discriminate E.
  - rewrite (Client_Send_no_response _ _ _ _ A), R. rewrite C, R in A.
    cbn [fst snd set_io Requests Messages Clients].
    repeat split; try assumption.
    + intros r' E L. rewrite A in E. discriminate E.
    + intros err' E. rewrite A in E. now injection E as <-.
Qed.

(** X4: two Sends in a row: the second request follows the first on the
    wire, and the body of the first response stays as the first Send left
    it, closed. *)
Theorem Client_Send_twice (w : World) (pc pm pc' pm' : ptr) (s : http.Stream) :
  response_body w (snd (Client_Send (Some pc) (Some pm) w)) = Some s ->
  Requests (snd (Client_Send (Some pc') (Some pm')
                   (snd (Client_Send (Some pc) (Some pm) w)))) =
    (Requests w ++ [request_of w pc pm; request_of w pc' pm'])%list /\
  response_body w (snd (Client_Send (Some pc') (Some pm')
                          (snd (Client_Send (Some pc) (Some pm) w)))) = Some s /\
  http.closed s = true.
Proof.
  intros B.
  set (w1 := snd (Client_Send (Some pc) (Some pm) w)) in *.
  assert (F : Clients w1 = Clients w /\ Messages w1 = Messages w
              /\ DefaultClient w1 = DefaultClient w).
  { unfold w1. destruct (client_of w pc (request_of w pc pm)) as [r | err] eqn:A.
    - rewrite (Client_Send_response _ _ _ _ A). repeat split.
    - rewrite (Client_Send_no_response _ _ _ _ A). repeat split. }
  destruct F as (Fc & Fm & Fd).
  assert (R' : request_of w1 pc' pm' = request_of w pc' pm')
    by (unfold request_of; now rewrite Fc, Fm).
  assert (Q1 : Requests w1 = (Requests w ++ [request_of w pc pm])%list).
  { unfold w1. destruct (client_of w pc (request_of w pc pm)) as [r | err] eqn:A.
    - now rewrite (Client_Send_response _ _ _ _ A).
    - now rewrite (Client_Send_no_response _ _ _ _ A). }
  assert (S1 : exists r, Streams w1 = (Streams w ++ [s])%list /\ http.closed s = true
                         /\ client_of w pc (request_of w pc pm) = inl r).
  { unfold response_body in B. unfold w1 in *.
    destruct (client_of w pc (request_of w pc pm)) as [r | err] eqn:A.
    - rewrite (Client_Send_response _ _ _ _ A) in *. cbn [snd set_io Streams] in *.
      rewrite nth_error_snoc in B. injection B as <-. exists r. repeat split.
    - rewrite (Client_Send_no_response _ _ _ _ A) in B. cbn [snd set_io Streams] in B.
      rewrite (proj2 (nth_error_None (Streams w) (List.length (Streams w))) (le_n _)) in B.
      discriminate B. }
  destruct S1 as (r & S1 & Cl & _).
  assert (N : forall l, nth_error ((Streams w ++ [s]) ++ l) (List.length (Streams w)) = Some s).
  { intros l. rewrite <- app_assoc. rewrite nth_error_app2 by lia.
    now rewrite Nat.sub_diag. }
  unfold response_body.
  destruct (client_of w1 pc' (request_of w1 pc' pm')) as [r' | err] eqn:A.
  - rewrite (Client_Send_response _ _ _ _ A). cbn [snd set_io Requests Streams].
    rewrite Q1, R', S1, <- app_assoc, N. repeat split. exact Cl.
  - rewrite (Client_Send_no_response _ _ _ _ A). cbn [snd set_io Requests Streams].
    rewrite Q1, R', S1, <- app_assoc. rewrite <- (app_nil_r (Streams w ++ [s])), N.
    repeat split. exact Cl.
Qed.

Lemma Client_Send_twice_witness :
  response_body (world (canned 404 "404 Not Found" "no_service" None) hello)
    (snd (Client_Send (Some 0%nat) (Some 0%nat)
            (world (canned 404 "404 Not Found" "no_service" None) hello)))
    = Some (http.mkStream "" None true) /\
  Requests (snd (Client_Send (Some 1%nat) (Some 1%nat)
                   (snd (Client_Send (Some 0%nat) (Some 0%nat)
                           (world (canned 404 "404 Not Found" "no_service" None) hello))))) =
    (Requests (world (canned 404 "404 Not Found" "no_service" None) hello)
       ++ [request_of (world (canned 404 "404 Not Found" "no_service" None) hello) 0%nat 0%nat;
           request_of (world (canned 404 "404 Not Found" "no_service" None) hello) 1%nat 1%nat])%list /\
  response_body (world (canned 404 "404 Not Found" "no_service" None) hello)
    (snd (Client_Send (Some 1%nat) (Some 1%nat)
            (snd (Client_Send (Some 0%nat) (Some 0%nat)
                    (world (canned 404 "404 Not Found" "no_service" None) hello)))))
    = Some (http.mkStream "" None true) /\
  http.closed (http.mkStream "" None true) = true.
Proof.
  split; [reflexivity |].
  apply (Client_Send_twice (world (canned 404 "404 Not Found" "no_service" None) hello)
           0%nat 0%nat 1%nat 1%nat (http.mkStream "" None true)).
  reflexivity.
Defined.

Lemma Client_Send_returns (pc : ptr) (message : option ptr) (w : World) :
  exists e, fst (Client_Send (Some pc) message w) = Returns e.
Proof.
  destruct message as [pm |]; [| eexists; reflexivity].
  destruct (client_of w pc (request_of w pc pm)) as [r | err] eqn:A.
  - rewrite (Client_Send_response _ _ _ _ A). eexists; reflexivity.
  - rewrite (Client_Send_no_response _ _ _ _ A). eexists; reflexivity.
Qed.

(** X5: the method Send panics only when it is called on a nil client
    with a message that is not nil, and then before anything was sent: a
    nil message is refused first, and with a client Send returns on every
    path.  The free function [Send], which makes its own client, never
    panics. *)
Theorem Send_panics_only_on_nil_client (c message : option ptr) (w : World) :
  ((exists msg, fst (Client_Send c message w) = Panics msg)
   <-> c = None /\ message <> None) /\
  (c = None -> snd (Client_Send c message w) = w) /\
  (forall WebhookURL, exists e, fst (Send WebhookURL message w) = Returns e).
Proof.
  split; [| split].
  - destruct c as [pc |].
    + destruct (Client_Send_returns pc message w) as [e E]. rewrite E. split.
      * intros [msg H]. discriminate H.
      * intros [H _]. discriminate H.
    + destruct message as [pm |]; cbn [Client_Send json.Encode fst]; split.
      * intros _. split; [reflexivity | discriminate].
      * intros _. eexists; reflexivity.
      * intros [msg H]. discriminate H.
      * intros [_ H]. now elim H.
  - intros ->. now destruct message.
  - intros WebhookURL. unfold Send. cbn [new_Client]. apply Client_Send_returns.
Qed.

(** * Further properties of the encoding *)

(** ** The bytes of the output *)

Lemma all_bytes_append (p : Z -> bool) (a b : string) :
  all_bytes p (a ++ b) = all_bytes p a && all_bytes p b.
Proof.
  induction a as [|x a IH]; cbn [append all_bytes]; [reflexivity |].
  now rewrite IH, andb_assoc.
Qed.

Lemma all_bytes_weaken (p q : Z -> bool) (s : string) :
  (forall c, p c = true -> q c = true) ->
  all_bytes p s = true -> all_bytes q s = true.
Proof.
  intros W. induction s as [|b s IH]; cbn [all_bytes]; [reflexivity |].
  intros H. apply andb_true_iff in H. destruct H as [H1 H2].
  now rewrite (W _ H1), (IH H2).
Qed.

Lemma all_bytes_concat (p : Z -> bool) (sep : string) (l : list string) :
  all_bytes p sep = true -> Forall (fun s => all_bytes p s = true) l ->
  all_bytes p (concat sep l) = true.
Proof.
  intros S F. induction F as [|x l Hx F IH]; [reflexivity |].
  destruct l as [|y l]; [exact Hx |].
  rewrite concat_cons2, !all_bytes_append, Hx, S, IH. reflexivity.
Qed.

Lemma take_take (n k : nat) (s : string) :
  (n <= k)%nat -> take n (take k s) = take n s.
Proof.
  revert k s. induction n as [|n IH]; intros k s L; [now destruct (take k s), s |].
  destruct k as [|k]; [lia |]. destruct s as [|b s]; [reflexivity |].
  cbn [take]. rewrite IH by lia. reflexivity.
Qed.

(** What one round of the encoder's loop writes is safe, whatever the
    input. *)
Lemma appendString_body_safe (b : byte) (rest : string) :
  all_bytes html_safe_byte (fst (json.appendString_body (String b rest))) = true.
Proof.
  destruct (Z.lt_ge_cases (val b) 0x80) as [A | A].
  - clear - A. destruct b as [b0 b1 b2 b3 b4 b5 b6 b7].
    destruct b7;
      [exfalso; revert A; destruct b0, b1, b2, b3, b4, b5, b6; vm_compute;
       intros H; discriminate H |].
    destruct b0, b1, b2, b3, b4, b5, b6; reflexivity.
  - unfold json.appendString_body. cbn [at_ get]. unfold utf8.RuneSelf, utf8.UTFMax.
    destruct (Z.ltb_spec (val b) 0x80) as [? | _]; [lia |].
    change (take 4 (String b rest)) with (String b (take 3 rest)).
    destruct (DecodeRune_nonascii b (take 3 rest) A)
      as [E | (c & enc & r & E & L & Enc & Hi & C & Dec)].
    + rewrite E. reflexivity.
    + rewrite E, Dec.
      assert (N : (length enc =? 1)%nat = false) by (apply Nat.eqb_neq; lia).
      rewrite N, andb_false_r.
      destruct ((c =? 0x2028) || (c =? 0x2029)) eqn:Q.
      * apply orb_true_iff in Q. destruct Q as [Q | Q]; apply Z.eqb_eq in Q; subst c;
          reflexivity.
      * cbn [fst].
        replace (take (length enc) (String b rest)) with enc.
        { revert Hi. apply all_bytes_weaken. intros x Hx. apply Z.leb_le in Hx.
          unfold html_safe_byte.
          destruct (Z.leb_spec 0x20 x), (Z.eqb_spec x 0x3C), (Z.eqb_spec x 0x3E),
            (Z.eqb_spec x 0x26); try lia; reflexivity. }
        { rewrite <- (take_take (length enc) 4) by lia.
          change (take 4 (String b rest)) with (String b (take 3 rest)).
          now rewrite E, take_append. }
Qed.

Lemma appendString_loop_safe (fuel : nat) (s : string) :
  all_bytes html_safe_byte (json.appendString_loop fuel s) = true.
Proof.
  revert s. induction fuel as [|fuel IH]; intros s; [reflexivity |].
  destruct s as [|b rest]; [reflexivity |]. cbn [json.appendString_loop].
  pose proof (appendString_body_safe b rest) as B.
  destruct (json.appendString_body (String b rest)) as [out n]. cbn [fst] in B.
  now rewrite all_bytes_append, B, IH.
Qed.

Lemma appendString_safe (s : string) :
  all_bytes html_safe_byte (json.appendString s) = true.
Proof.
  unfold json.appendString. cbn [all_bytes].
  rewrite all_bytes_append, appendString_loop_safe. reflexivity.
Qed.

(** ** What holds of every encoding

    A property of texts that holds of plain ASCII and of string literals
    and is kept by concatenation holds of the encoding of every value. *)

Section Text.

Variable P : string -> Prop.
Hypothesis P_plain : forall s, all_bytes plain_byte s = true -> P s.
Hypothesis P_append : forall a b, P a -> P b -> P (a ++ b).
Hypothesis P_string : forall s, P (json.appendString s).

Lemma text_concat (sep : string) (l : list string) :
  all_bytes plain_byte sep = true -> Forall P l -> P (concat sep l).
Proof.
  intros S F. induction F as [|x l Hx F IH]; [now apply P_plain |].
  destruct l as [|y l]; [exact Hx |].
  rewrite concat_cons2. apply P_append; [exact Hx |].
  apply P_append; [now apply P_plain | exact IH].
Qed.

Lemma string_of_uint_plain (d : Decimal.uint) :
  all_bytes plain_byte (NilEmpty.string_of_uint d) = true.
Proof. induction d; cbn [NilEmpty.string_of_uint all_bytes]; try rewrite IHd; reflexivity. Qed.

Lemma AppendInt_plain (i : Z) : all_bytes plain_byte (AppendInt i) = true.
Proof.
  unfold AppendInt, NilZero.string_of_int, NilZero.string_of_uint.
  destruct (Z.to_int i) as [d | d]; destruct d; cbn [all_bytes];
    try rewrite string_of_uint_plain; try reflexivity;
    cbn [NilEmpty.string_of_uint all_bytes]; now rewrite string_of_uint_plain.
Qed.

Lemma text_slice {A : Type} (enc : A -> string) (s : slice A) :
  (forall x, P (enc x)) -> P (json.encoded (json.sliceValue enc s)).
Proof.
  intros H. destruct s as [l |]; [| now apply P_plain].
  cbn [json.encoded json.sliceValue].
  apply P_append; [now apply P_plain |].
  apply P_append; [| now apply P_plain].
  apply text_concat; [reflexivity |].
  apply Forall_forall. intros x I. apply in_map_iff in I. destruct I as (y & <- & _).
  apply H.
Qed.

(** The struct encoder adds only plain bytes and keys to the encodings of
    the values. *)
Lemma text_structFields (next : string) (fs : list json.field) :
  all_bytes plain_byte next = true ->
  Forall (fun f => P (json.encoded (json.fv f))) fs ->
  P (json.structFields next fs).
Proof.
  intros N F. revert next N. induction F as [|f fs Hf F IH]; intros next N.
  - cbn [json.structFields]. destruct (String.eqb next "{"); now apply P_plain.
  - cbn [json.structFields].
    destruct (json.omitEmpty f && json.isEmptyValue (json.fv f)); [now apply IH |].
    apply P_append; [now apply P_plain |].
    apply P_append; [apply P_string |].
    apply P_append; [now apply P_plain |].
    apply P_append; [exact Hf | now apply IH].
Qed.

Lemma text_AttachmentField (f : AttachmentField.t) : P (json.marshal_AttachmentField f).
Proof.
  apply text_structFields; [reflexivity |].
  unfold json.fields_AttachmentField.
  repeat constructor; try apply P_string.
  apply P_plain. cbn. now destruct (AttachmentField.Short f).
Qed.

Lemma text_Attachment (a : Attachment.t) : P (json.marshal_Attachment a).
Proof.
  apply text_structFields; [reflexivity |].
  unfold json.fields_Attachment.
  repeat constructor; try apply P_string.
  - apply (text_slice json.marshal_AttachmentField), text_AttachmentField.
  - apply P_plain, AppendInt_plain.
  - apply (text_slice json.appendString), P_string.
Qed.

Lemma text_Message (m : Message.t) : P (json.Marshal m).
Proof.
  apply text_structFields; [reflexivity |].
  unfold json.fields_Message.
  repeat constructor; try apply P_string.
  apply (text_slice json.marshal_Attachment), text_Attachment.
Qed.

End Text.

Lemma plain_safe (s : string) :
  all_bytes plain_byte s = true -> all_bytes html_safe_byte s = true.
Proof.
  apply all_bytes_weaken. intros c H. unfold plain_byte in H.
  now apply andb_true_iff in H.
Qed.

Lemma safe_append (a b : string) :
  all_bytes html_safe_byte a = true -> all_bytes html_safe_byte b = true ->
  all_bytes html_safe_byte (a ++ b) = true.
Proof. intros A B. now rewrite all_bytes_append, A, B. Qed.

Lemma Marshal_safe (m : Message.t) : all_bytes html_safe_byte (json.Marshal m) = true.
Proof.
  exact (text_Message (fun s => all_bytes html_safe_byte s = true)
           plain_safe safe_append appendString_safe m).
Qed.

(** X6: whatever the message holds, its JSON encoding has no control
    character and none of the characters [<], [>] and [&]: the text the
    encoder of Send writes is that encoding, on one line, and the newline
    that ends it. *)
Theorem Encode_one_safe_line (m : Message.t) (b : string) :
  json.Encode m = inl b ->
  b = json.Marshal m ++ str1 (chr 10) /\
  all_bytes html_safe_byte (json.Marshal m) = true /\
  all_bytes (fun c => negb (c =? 10)) (json.Marshal m) = true.
Proof.
  intros [= <-]. pose proof (Marshal_safe m) as S.
  repeat split; [exact S |].
  revert S. apply all_bytes_weaken. intros c H. unfold html_safe_byte in H.
  apply andb_true_iff in H. destruct H as [H _]. apply Z.leb_le in H.
  destruct (Z.eqb_spec c 10); [lia | reflexivity].
Qed.

Lemma Encode_one_safe_line_witness :
  json.Encode alert = inl (json.Marshal alert ++ str1 (chr 10)) /\
  json.Marshal alert ++ str1 (chr 10) = json.Marshal alert ++ str1 (chr 10) /\
  all_bytes html_safe_byte (json.Marshal alert) = true /\
  all_bytes (fun c => negb (c =? 10)) (json.Marshal alert) = true.
Proof.
  split; [reflexivity |].
  apply (Encode_one_safe_line alert (json.Marshal alert ++ str1 (chr 10))).
  reflexivity.
Defined.

(** ** String literals, whatever the bytes *)

(** At a byte that begins no valid encoding the encoder writes the escape
    of U+FFFD, which is read back as U+FFFD. *)
Lemma invalid_mirrors (b : byte) (rest : string) :
  0x80 <= val b ->
  utf8.DecodeRuneInString (String b rest) = (utf8.RuneError, 1%nat) ->
  exists chunk,
    json.appendString_body (String b rest) = (chunk, 1%nat) /\
    mirrors chunk (utf8.EncodeRune utf8.RuneError).
Proof.
  intros A D. unfold json.appendString_body. cbn [at_ get].
  unfold utf8.RuneSelf, utf8.UTFMax.
  destruct (Z.ltb_spec (val b) 0x80) as [? | _]; [lia |].
  change (take 4 (String b rest)) with (String b (take 3 rest)).
  destruct (DecodeRune_nonascii b (take 3 rest) A)
    as [E | (c & enc & r & E & L & _ & _ & _ & Dec)].
  - rewrite E. cbn [Z.eqb Pos.eqb Nat.eqb andb utf8.RuneError].
    eexists. split; [reflexivity |]. split; [discriminate |]. split.
    + intros X. reflexivity.
    + intros Y. cbn. now destruct (json.scanString Y) as [[l q] |].
  - exfalso.
    assert (S : String b rest = enc ++ (r ++ drop 4 (String b rest))).
    { rewrite <- append_assoc, <- E.
      change (String b (take 3 rest)) with (take 4 (String b rest)).
      now rewrite take_drop. }
    rewrite S, Dec in D. injection D as _ D. lia.
Qed.

(** Every round of the encoder's loop is undone by one round of the
    decoder's, up to the coercion to valid UTF-8. *)
Lemma step_mirrors_coerced (b : byte) (rest : string) :
  exists chunk out n,
    json.appendString_body (String b rest) = (chunk, n) /\
    coerce_body (String b rest) = (out, n) /\
    mirrors chunk out /\
    (1 <= n <= length (String b rest))%nat.
Proof.
  destruct (Z.lt_ge_cases (val b) 0x80) as [A | A].
  - destruct (ascii_mirrors b rest A) as (chunk & E & M).
    exists chunk, (str1 b), 1%nat. repeat split; try exact E; try apply M;
      try (cbn; lia).
    unfold coerce_body. cbn [at_ get]. unfold utf8.RuneSelf.
    destruct (Z.ltb_spec (val b) 0x80); [reflexivity | lia].
  - assert (C0 : (at_ (String b rest) 0 <? utf8.RuneSelf) = false).
    { cbn [at_ get]. unfold utf8.RuneSelf. apply Z.ltb_ge. lia. }
    destruct (DecodeRune_nonascii b rest A)
      as [E | (c & enc & r & E & L & Enc & Hi & C & Dec)].
    + destruct (invalid_mirrors b rest A E) as (chunk & B & M).
      exists chunk, (utf8.EncodeRune utf8.RuneError), 1%nat.
      repeat split; try exact B; try apply M; try (cbn; lia).
      unfold coerce_body. rewrite C0, E. reflexivity.
    + assert (N : (length enc =? 1)%nat = false) by (apply Nat.eqb_neq; lia).
      assert (V : utf8.valid_body (String b rest) = Some (length enc)).
      { unfold utf8.valid_body. rewrite C0, E, Dec, N. reflexivity. }
      destruct (rune_mirrors b rest _ A V) as (chunk & B & M & Ln).
      exists chunk, (take (length enc) (String b rest)), (length enc).
      repeat split; try exact B; try apply M; try lia.
      unfold coerce_body. rewrite C0. rewrite E at 1. rewrite Dec, N, andb_false_r.
      reflexivity.
Qed.

Lemma scanString_literal_coerced (fuel : nat) (s t : string) :
  json.scanString (json.appendString_loop fuel s ++ String dquote t) =
    Some (json.appendString_loop fuel s, t).
Proof.
  revert s. induction fuel as [|fuel IH]; intros s; [reflexivity |].
  destruct s as [|b rest]; [reflexivity |].
  cbn [json.appendString_loop].
  destruct (step_mirrors_coerced b rest) as (chunk & out & n & E & _ & (_ & _ & S) & _).
  rewrite E, append_assoc, S, IH. reflexivity.
Qed.

Lemma unquote_loop_literal_coerced (fuel : nat) (s : string) :
  forall f, (length (json.appendString_loop fuel s) <= f)%nat ->
  json.unquote_loop f (json.appendString_loop fuel s) = Some (coerce_loop fuel s).
Proof.
  revert s. induction fuel as [|fuel IH]; intros s f F.
  - cbn. now destruct f.
  - destruct s as [|b rest]; [now destruct f |].
    cbn [json.appendString_loop coerce_loop] in *.
    destruct (step_mirrors_coerced b rest) as (chunk & out & n & E & Co & (N & U & _) & Ln).
    rewrite E in *. rewrite Co. rewrite length_append in F.
    destruct chunk as [|c0 chunk]; [now elim N |].
    destruct f as [|f]; [cbn in F; lia |].
    cbn [append json.unquote_loop].
    change (String c0 (chunk ++ json.appendString_loop fuel (drop n (String b rest))))
      with (String c0 chunk ++ json.appendString_loop fuel (drop n (String b rest))).
    rewrite U, drop_append.
    rewrite IH by (cbn [length] in F; lia). reflexivity.
Qed.

(** The literal written for a string is parsed back to the string coerced
    to valid UTF-8. *)
Lemma parseString_literal_coerced (s t : string) :
  json.parseString (json.appendString_loop (length s) s ++ String dquote t)
    = Some (coerced s, t).
Proof.
  unfold json.parseString.
  rewrite scanString_literal_coerced, unquote_is_loop.
  rewrite unquote_loop_literal_coerced by lia. reflexivity.
Qed.

(** Coercion leaves valid UTF-8 as it is. *)
Lemma coerce_loop_valid (fuel : nat) (s : string) :
  (length s <= fuel)%nat -> utf8.valid_from fuel s = true -> coerce_loop fuel s = s.
Proof.
  revert s. induction fuel as [|fuel IH]; intros s L V.
  - destruct s; [reflexivity | cbn in L; lia].
  - destruct s as [|b rest]; [reflexivity |].
    cbn [utf8.valid_from coerce_loop] in *.
    destruct (utf8.valid_body (String b rest)) as [n |] eqn:B; [| discriminate V].
    assert (C : coerce_body (String b rest) = (take n (String b rest), n)).
    { unfold utf8.valid_body in B. unfold coerce_body.
      destruct (at_ (String b rest) 0 <? utf8.RuneSelf); [now injection B as <- |].
      destruct (utf8.DecodeRuneInString (String b rest)) as [c size].
      destruct (size =? 1)%nat; [discriminate B |]. injection B as <-.
      now rewrite andb_false_r. }
    destruct (step_mirrors b rest n B) as (_ & _ & _ & Ln).
    rewrite C, IH; [apply take_drop | rewrite length_drop; cbn [length] in *; lia | exact V].
Qed.

Lemma coerced_valid (s : string) : utf8.ValidString s = true -> coerced s = s.
Proof. intros V. apply coerce_loop_valid; [lia | exact V]. Qed.

(** ** Values through the parser *)

Lemma delim_skipSpace (c : byte) (r : string) :
  delim (String c r) = false -> json.skipSpace (String c r) = String c r.
Proof.
  cbn [delim json.skipSpace]. intros H. apply orb_false_iff in H.
  destruct H as [_ H]. now rewrite H.
Qed.

Lemma parses_to_string (s : string) : parses_to (json.appendString s) (json.Str (coerced s)).
Proof.
  split.
  - unfold json.appendString. eexists _, _. split; reflexivity.
  - intros fuel t F _. destruct fuel as [|fuel]; [cbn in F; lia |].
    rewrite appendString_unfold. cbn [json.parseValue].
    rewrite val_dquote. cbn [Z.eqb Pos.eqb].
    now rewrite parseString_literal_coerced.
Qed.

Lemma parses_to_bool (b : bool) :
  parses_to (if b then "true" else "false") (json.Bool b).
Proof.
  split.
  - destruct b; eexists _, _; split; reflexivity.
  - intros fuel t F _. destruct fuel as [|fuel]; [destruct b; cbn in F; lia |].
    destruct b.
    + change ("true" ++ t) with (String "t" ("rue" ++ t)). cbn [json.parseValue].
      change (val "t"%char =? 0x7B) with false. change (val "t"%char =? 0x5B) with false.
      change (val "t"%char =? 0x22) with false. change (val "t"%char =? 0x74) with true.
      cbv iota. unfold json.expect.
      change (String "t" ("rue" ++ t)) with ("true" ++ t).
      now rewrite prefix_append, (drop_append "true" t).
    + change ("false" ++ t) with (String "f" ("alse" ++ t)). cbn [json.parseValue].
      change (val "f"%char =? 0x7B) with false. change (val "f"%char =? 0x5B) with false.
      change (val "f"%char =? 0x22) with false. change (val "f"%char =? 0x74) with false.
      change (val "f"%char =? 0x66) with true.
      cbv iota. unfold json.expect.
      change (String "f" ("alse" ++ t)) with ("false" ++ t).
      now rewrite prefix_append, (drop_append "false" t).
Qed.

Lemma parses_to_null : parses_to "null" json.Null.
Proof.
  split.
  - eexists _, _; split; reflexivity.
  - intros fuel t F _. destruct fuel as [|fuel]; [cbn in F; lia |].
    change ("null" ++ t) with (String "n" ("ull" ++ t)). cbn [json.parseValue].
    change (val "n"%char =? 0x7B) with false. change (val "n"%char =? 0x5B) with false.
    change (val "n"%char =? 0x22) with false. change (val "n"%char =? 0x74) with false.
    change (val "n"%char =? 0x66) with false. change (val "n"%char =? 0x6E) with true.
    cbv iota. unfold json.expect.
    change (String "n" ("ull" ++ t)) with ("null" ++ t).
    now rewrite prefix_append, (drop_append "null" t).
Qed.

(** *** Numbers *)

Lemma string_of_uint_digits (d : Decimal.uint) :
  all_bytes json.isDigit (NilEmpty.string_of_uint d) = true.
Proof. induction d; cbn [NilEmpty.string_of_uint all_bytes]; try rewrite IHd; reflexivity. Qed.

Lemma delim_not_digit (t : string) :
  delim t = true ->
  match t with
  | "" => True
  | String c _ =>
      json.isDigit (val c) = false /\ (val c =? 0x2E) = false /\
      (val c =? 0x65) = false /\ (val c =? 0x45) = false /\ (val c =? 0x2D) = false
  end.
Proof.
  destruct t as [|c r]; [trivial |]. cbn [delim]. unfold json.isSpace, json.isDigit.
  intros H.
  repeat match goal with
         | |- context [?a =? ?b] => destruct (Z.eqb_spec a b)
         | H : context [?a =? ?b] |- _ => destruct (Z.eqb_spec a b)
         | |- context [?a <=? ?b] => destruct (Z.leb_spec a b)
         end; cbn in *; try lia; try discriminate; repeat split; reflexivity.
Qed.

Lemma digits_span (s t : string) :
  all_bytes json.isDigit s = true -> delim t = true ->
  json.digits (s ++ t) = (s, t).
Proof.
  intros D T. induction s as [|b s IH].
  - cbn [append]. apply delim_not_digit in T. destruct t as [|c r]; [reflexivity |].
    destruct T as (T & _). cbn [json.digits]. now rewrite T.
  - cbn [all_bytes] in D. apply andb_true_iff in D. destruct D as [Db D].
    cbn [append json.digits]. now rewrite Db, (IH D).
Qed.

(** After the integer part of a number that a delimiter follows, the
    scanner finds neither a fraction nor an exponent. *)
Lemma scanNumber_tail (sign int t : string) :
  delim t = true -> (length int =? 0)%nat = false ->
  (if (length int =? 0)%nat then None
   else
     let frac :=
       match t with
       | String b s' =>
           if val b =? 0x2E then
             let '(d, r) := json.digits s' in
             if (length d =? 0)%nat then None else Some (String b d, r)
           else Some ("", t)
       | "" => Some ("", t)
       end in
     match frac with
     | None => None
     | Some (f, s2) =>
         let exp :=
           match s2 with
           | String b s' =>
               if (val b =? 0x65) || (val b =? 0x45) then
                 let '(sg, s3) :=
                   match s' with
                   | String g s'' =>
                       if (val g =? 0x2B) || (val g =? 0x2D)
                       then (str1 g, s'') else ("", s')
                   | "" => ("", s')
                   end in
                 let '(d, r) := json.digits s3 in
                 if (length d =? 0)%nat then None
                 else Some (String b (sg ++ d), r)
               else Some ("", s2)
           | "" => Some ("", s2)
           end in
         match exp with
         | None => None
         | Some (e, s4) => Some (sign ++ int ++ f ++ e, s4)
         end
     end) = Some (sign ++ int, t).
Proof.
  intros T L. rewrite L. apply delim_not_digit in T.
  destruct t as [|c r]; cbv beta iota zeta.
  - now rewrite !append_nil_r.
  - destruct T as (_ & T1 & T2 & T3 & _). rewrite T1. cbv beta iota zeta.
    rewrite T2, T3. cbn [orb]. cbv beta iota zeta. now rewrite !append_nil_r.
Qed.

Lemma nzhead_not_D0 (d d' : Decimal.uint) : Decimal.nzhead d <> Decimal.D0 d'.
Proof. induction d; cbn [Decimal.nzhead]; try discriminate; exact IHd. Qed.

(** The decimal digits of a positive number do not begin with a zero. *)
Lemma to_uint_head (p : positive) :
  match Pos.to_uint p with
  | Decimal.Nil | Decimal.D0 _ => False
  | _ => True
  end.
Proof.
  pose proof (DecimalPos.Unsigned.to_of (Pos.to_uint p)) as H.
  rewrite DecimalPos.Unsigned.of_to in H. cbn [N.to_uint] in H.
  pose proof (DecimalPos.Unsigned.to_uint_nonnil p) as N.
  destruct (Pos.to_uint p) as [|d| | | | | | | | |] eqn:E; try exact I; [now elim N |].
  unfold Decimal.unorm in H. cbn [Decimal.nzhead] in H.
  destruct (Decimal.nzhead d) eqn:Z; try discriminate H.
  - injection H as H. subst d.
    now apply (DecimalPos.Unsigned.to_uint_nonzero p).
  - now apply (nzhead_not_D0 d u).
Qed.

Lemma scanNumber_sign (x : string) :
  match x with String b _ => (val b =? 0x2D) = false | "" => True end ->
  match x with
  | String b s' => if val b =? 0x2D then ("-", s') else ("", x)
  | "" => ("", x)
  end = ("", x).
Proof. destruct x as [|b s']; [reflexivity |]. now intros ->. Qed.

Lemma scanNumber_uint (d : Decimal.uint) (t : string) :
  match d with Decimal.Nil | Decimal.D0 _ => False | _ => True end ->
  delim t = true ->
  match NilEmpty.string_of_uint d ++ t with
  | String b s' =>
      if val b =? 0x30 then ("0", s') else json.digits (NilEmpty.string_of_uint d ++ t)
  | "" => ("", NilEmpty.string_of_uint d ++ t)
  end = (NilEmpty.string_of_uint d, t).
Proof.
  intros H T.
  pose proof (digits_span _ t (string_of_uint_digits d) T) as D.
  destruct d; try now elim H; cbn [NilEmpty.string_of_uint append] in *;
    match goal with
    | |- context [val ?c =? 0x30] => change (val c =? 0x30) with false
    end; cbv iota; now rewrite D.
Qed.

Lemma string_of_uint_nonempty (d : Decimal.uint) :
  match d with Decimal.Nil | Decimal.D0 _ => False | _ => True end ->
  NilZero.string_of_uint d = NilEmpty.string_of_uint d /\
  (length (NilEmpty.string_of_uint d) =? 0)%nat = false /\
  match NilEmpty.string_of_uint d with
  | String b _ => (val b =? 0x2D) = false
  | "" => True
  end.
Proof. destruct d; intros H; try now elim H; repeat split; reflexivity. Qed.

Lemma scanNumber_AppendInt (i : Z) (t : string) :
  delim t = true -> json.scanNumber (AppendInt i ++ t) = Some (AppendInt i, t).
Proof.
  intros T. unfold AppendInt, json.scanNumber.
  destruct i as [|p|p]; cbn [Z.to_int NilZero.string_of_int].
  - cbn [NilZero.string_of_uint NilEmpty.string_of_uint append].
    change (val "0"%char =? 0x2D) with false. cbv beta iota zeta.
    change (val "0"%char =? 0x30) with true. cbv beta iota zeta.
    apply (scanNumber_tail "" "0" t T). reflexivity.
  - pose proof (to_uint_head p) as H.
    destruct (string_of_uint_nonempty _ H) as (E & L & M). rewrite E.
    rewrite scanNumber_sign.
    2:{ destruct (NilEmpty.string_of_uint (Pos.to_uint p)); [discriminate L | exact M]. }
    rewrite (scanNumber_uint _ t H T).
    apply (scanNumber_tail "" _ t T L).
  - pose proof (to_uint_head p) as H.
    destruct (string_of_uint_nonempty _ H) as (E & L & M). rewrite E.
    cbn [append].
    change (val "-"%char =? 0x2D) with true. cbv beta iota zeta.
    rewrite (scanNumber_uint _ t H T).
    apply (scanNumber_tail "-" _ t T L).
Qed.

(** ** Arrays and objects through the parser *)

Lemma parses_to_int (i : Z) : parses_to (AppendInt i) (tree_int i).
Proof.
  assert (H : exists c r, AppendInt i = String c r /\ delim (String c r) = false
                          /\ ((val c =? 0x2D) || json.isDigit (val c)) = true
                          /\ (val c =? 0x7B) = false /\ (val c =? 0x5B) = false
                          /\ (val c =? 0x22) = false /\ (val c =? 0x74) = false
                          /\ (val c =? 0x66) = false /\ (val c =? 0x6E) = false).
  { unfold AppendInt. destruct i as [|p|p]; cbn [Z.to_int NilZero.string_of_int].
    - eexists _, _. repeat split; reflexivity.
    - pose proof (to_uint_head p) as H.
      destruct (Pos.to_uint p); try now elim H;
        eexists _, _; repeat split; reflexivity.
    - eexists _, _. repeat split; reflexivity. }
  destruct H as (c & r & E & D & N & H1 & H2 & H3 & H4 & H5 & H6).
  split; [now exists c, r |].
  intros fuel t F T. destruct fuel as [|fuel]; [rewrite E in F; cbn in F; lia |].
  pose proof (scanNumber_AppendInt i t T) as S. unfold tree_int.
  rewrite E in *. cbn [append] in *. cbn [json.parseValue].
  rewrite H1, H2, H3, H4, H5, H6, N. now rewrite S.
Qed.

Lemma parses_to_skipSpace (txt t : string) (v : json.value) :
  parses_to txt v -> json.skipSpace (txt ++ t) = txt ++ t.
Proof.
  intros [(c & r & -> & D) _]. cbn [append]. apply delim_skipSpace.
  exact D.
Qed.

Lemma parses_to_length (txt : string) (v : json.value) :
  parses_to txt v -> (1 <= length txt)%nat.
Proof. intros [(c & r & -> & _) _]. cbn. lia. Qed.

Lemma parseElements_step (fuel : nat) (txt T : string) (v : json.value) :
  parses_to txt v -> (length txt <= fuel)%nat -> delim T = true ->
  json.parseElements (S fuel) (txt ++ T) =
    match json.skipSpace T with
    | String d r1 =>
        if val d =? 0x2C then
          match json.parseElements fuel (json.skipSpace r1) with
          | Some (vs, r2) => Some (v :: vs, r2)
          | None => None
          end
        else if val d =? 0x5D then Some ([v], r1)
        else None
    | "" => None
    end.
Proof.
  intros [_ P] F D. cbn [json.parseElements]. now rewrite (P fuel T F D).
Qed.

Lemma parseElements_slice {A : Type} (enc : A -> string) (tree : A -> json.value)
    (l : list A) :
  l <> [] -> (forall x, parses_to (enc x) (tree x)) ->
  forall fuel rest, (length (concat "," (map enc l)) < fuel)%nat ->
  json.parseElements fuel (concat "," (map enc l) ++ String "]" rest)
    = Some (map tree l, rest).
Proof.
  intros N P. induction l as [|x l IH]; [now elim N |].
  intros fuel rest F. destruct fuel as [|fuel]; [lia |].
  destruct l as [|y l].
  - cbn [map concat] in *.
    rewrite (parseElements_step fuel _ _ _ (P x)); [| lia | reflexivity].
    reflexivity.
  - cbn [map] in *. rewrite concat_cons2 in *. rewrite !append_assoc.
    rewrite !length_append in F. cbn [length] in F.
    rewrite (parseElements_step fuel _ _ _ (P x)); [| lia | reflexivity].
    cbn [append json.skipSpace].
    change (json.isSpace (val ","%char)) with false. cbv iota.
    change (val ","%char =? 0x2C) with true. cbv iota.
    assert (S : json.skipSpace (concat "," (enc y :: map enc l) ++ String "]" rest)
                = concat "," (enc y :: map enc l) ++ String "]" rest).
    { destruct (map enc l).
      - cbn [concat]. apply (parses_to_skipSpace _ _ _ (P y)).
      - rewrite concat_cons2, append_assoc. apply (parses_to_skipSpace _ _ _ (P y)). }
    rewrite S, IH; [reflexivity | discriminate | lia].
Qed.

Lemma parses_to_slice {A : Type} (enc : A -> string) (tree : A -> json.value)
    (s : slice A) :
  (forall x, parses_to (enc x) (tree x)) ->
  parses_to (json.encoded (json.sliceValue enc s)) (tree_slice tree s).
Proof.
  intros P. destruct s as [l|]; cbn [json.encoded json.sliceValue tree_slice];
    [| apply parses_to_null].
  split; [eexists _, _; split; reflexivity |].
  intros fuel t F T. destruct fuel as [|fuel]; [cbn in F; lia |].
  cbn [append]. rewrite append_assoc. cbn [append json.parseValue].
  change (val "["%char =? 0x7B) with false. change (val "["%char =? 0x5B) with true.
  cbv iota.
  destruct l as [|x l].
  - cbn [map concat append json.skipSpace].
    change (json.isSpace (val "]"%char)) with false. cbv iota.
    change (val "]"%char =? 0x5D) with true. reflexivity.
  - assert (S : json.skipSpace (concat "," (map enc (x :: l)) ++ String "]" t)
                = concat "," (map enc (x :: l)) ++ String "]" t).
    { cbn [map]. destruct (map enc l).
      - cbn [concat]. apply (parses_to_skipSpace _ _ _ (P x)).
      - rewrite concat_cons2, append_assoc. apply (parses_to_skipSpace _ _ _ (P x)). }
    rewrite S.
    assert (H : exists c r, concat "," (map enc (x :: l)) ++ String "]" t = String c r
                            /\ (val c =? 0x5D) = false).
    { destruct (P x) as [(c & r & E & D) _]. cbn [map].
      cbn [delim] in D. apply orb_false_iff in D. destruct D as [D _].
      apply orb_false_iff in D. destruct D as [_ D].
      destruct (map enc l).
      - cbn [concat]. rewrite E. now eexists _, _.
      - rewrite concat_cons2, append_assoc, E. now eexists _, _. }
    destruct H as (c & r & E & D). rewrite E at 1. rewrite D.
    cbn [length] in F. rewrite !length_append in F. cbn [length] in F.
    rewrite (parseElements_slice enc tree (x :: l)); [reflexivity | discriminate | exact P | lia].
Qed.

Lemma parseMembers_step (fuel : nat) (tf : json.field * json.value) (T : string) :
  member_ok tf -> (length (json.encoded (json.fv (fst tf))) <= fuel)%nat ->
  delim T = true ->
  json.parseMembers (S fuel) (member_text (fst tf) ++ T) =
    match json.skipSpace T with
    | String d r3 =>
        if val d =? 0x2C then
          match json.parseMembers fuel (json.skipSpace r3) with
          | Some (ms, r4) => Some ((json.name (fst tf), snd tf) :: ms, r4)
          | None => None
          end
        else if val d =? 0x7D then Some ([(json.name (fst tf), snd tf)], r3)
        else None
    | "" => None
    end.
Proof.
  intros [V P] F D. unfold member_text.
  rewrite !append_assoc, appendString_unfold.
  cbn [json.parseMembers]. rewrite val_dquote. cbn [Z.eqb Pos.eqb].
  rewrite (parseString_literal _ _ V).
  cbn [append json.skipSpace]. change (json.isSpace (val ":"%char)) with false. cbv iota.
  change (val ":"%char =? 0x3A) with true. cbv iota.
  rewrite (parses_to_skipSpace _ _ _ P).
  destruct P as [_ P]. now rewrite (P fuel T F D).
Qed.

Lemma members_head (f : json.field) (fs : list json.field) (t : string) :
  exists X, concat "," (map member_text (f :: fs)) ++ t = String dquote X.
Proof.
  cbn [map]. destruct (map member_text fs).
  - cbn [concat]. unfold member_text. rewrite append_assoc, appendString_unfold.
    eexists; reflexivity.
  - rewrite concat_cons2. unfold member_text.
    rewrite !append_assoc, appendString_unfold. eexists; reflexivity.
Qed.

Lemma skipSpace_dquote (X : string) :
  json.skipSpace (String dquote X) = String dquote X.
Proof. reflexivity. Qed.

Lemma length_member_text (f : json.field) :
  (length (json.encoded (json.fv f)) + 3 <= length (member_text f))%nat.
Proof.
  unfold member_text, json.appendString. cbn [length append].
  rewrite !length_append. cbn [length str1]. lia.
Qed.

Lemma parseMembers_typed (tfs : list (json.field * json.value)) :
  tfs <> [] -> Forall member_ok tfs ->
  forall fuel rest,
    (length (concat "," (map member_text (map fst tfs))) < fuel)%nat ->
    json.parseMembers fuel
      (concat "," (map member_text (map fst tfs)) ++ String "}" rest)
    = Some (map (fun tf => (json.name (fst tf), snd tf)) tfs, rest).
Proof.
  intros N V. induction tfs as [|tf tfs IH]; [now elim N |].
  inversion V as [|? ? Vtf V']; subst.
  intros fuel rest F. destruct fuel as [|fuel]; [lia |].
  pose proof (length_member_text (fst tf)) as L.
  destruct tfs as [|tf' tfs].
  - cbn [map concat] in *.
    rewrite (parseMembers_step fuel tf _ Vtf); [reflexivity | lia | reflexivity].
  - cbn [map] in *. rewrite concat_cons2 in *. rewrite !append_assoc.
    rewrite !length_append in F. cbn [length] in F.
    rewrite (parseMembers_step fuel tf _ Vtf); [| lia | reflexivity].
    cbn [append json.skipSpace].
    change (json.isSpace (val ","%char)) with false. cbv iota.
    change (val ","%char =? 0x2C) with true. cbv iota.
    destruct (members_head (fst tf') (map fst tfs) (String "}" rest)) as [X E].
    cbn [map] in E. rewrite E, skipSpace_dquote, <- E.
    rewrite IH; [reflexivity | discriminate | exact V' | lia].
Qed.

Lemma written_members (tfs : list (json.field * json.value)) :
  filter json.written (map fst tfs)
    = map fst (filter (fun tf => json.written (fst tf)) tfs) /\
  members_of (table_of tfs)
    = map (fun tf => (json.name (fst tf), snd tf))
          (filter (fun tf => json.written (fst tf)) tfs).
Proof.
  induction tfs as [|tf tfs [IH1 IH2]]; [split; reflexivity |].
  cbn [map filter table_of members_of]. fold (table_of tfs).
  destruct (json.written (fst tf)); cbn [map]; rewrite IH1, IH2; split; reflexivity.
Qed.

(** The encoding of a struct is the text of the object of its written
    fields, when the encoding of each field is the text of its value. *)
Lemma parses_to_struct (tfs : list (json.field * json.value)) :
  Forall member_ok tfs ->
  parses_to (json.structEncoder (map fst tfs)) (object_of tfs).
Proof.
  intros V. rewrite structEncoder_written. unfold object_of.
  destruct (written_members tfs) as [-> ->].
  assert (V' : Forall member_ok (filter (fun tf => json.written (fst tf)) tfs)).
  { apply Forall_forall. intros tf H. apply filter_In in H.
    exact (proj1 (Forall_forall _ _) V tf (proj1 H)). }
  set (ws := filter (fun tf => json.written (fst tf)) tfs) in *.
  unfold object_text. split; [eexists _, _; split; reflexivity |].
  intros fuel t F T. destruct fuel as [|fuel]; [cbn in F; lia |].
  cbn [append]. rewrite append_assoc. cbn [append json.parseValue].
  change (val "{"%char =? 0x7B) with true. cbv iota.
  cbn [length] in F. rewrite !length_append in F. cbn [length] in F.
  destruct ws as [|tf ws].
  - cbn [map concat append json.skipSpace].
    change (json.isSpace (val "}"%char)) with false. cbv iota.
    change (val "}"%char =? 0x7D) with true. reflexivity.
  - destruct (members_head (fst tf) (map fst ws) (String "}" t)) as [X E].
    cbn [map] in *. rewrite E, skipSpace_dquote. rewrite val_dquote.
    change (0x22 =? 0x7D) with false. cbv iota. rewrite <- E.
    rewrite (parseMembers_typed (tf :: ws)); [reflexivity | discriminate | exact V' | ].
    cbn [map]. lia.
Qed.

Ltac members :=
  repeat (apply Forall_cons; [split; [reflexivity |] |]); try apply Forall_nil.

Lemma parses_to_AttachmentField (f : AttachmentField.t) :
  parses_to (json.marshal_AttachmentField f) (tree_AttachmentField f).
Proof.
  apply (parses_to_struct (typed_AttachmentField f)).
  members; [apply parses_to_string | apply parses_to_string | apply parses_to_bool].
Qed.

Lemma parses_to_Attachment (a : Attachment.t) :
  parses_to (json.marshal_Attachment a) (tree_Attachment a).
Proof.
  apply (parses_to_struct (typed_Attachment a)).
  members;
    try apply parses_to_string; try apply parses_to_int;
    apply parses_to_slice; intros x;
    [apply parses_to_AttachmentField | apply parses_to_string].
Qed.

Lemma parses_to_Message (m : Message.t) :
  parses_to (json.Marshal m) (tree_Message m).
Proof.
  apply (parses_to_struct (typed_Message m)).
  members; try apply parses_to_string.
  apply parses_to_slice; intros x. apply parses_to_Attachment.
Qed.

Lemma skipSpace_delim (t : string) : json.skipSpace t = "" -> delim t = true.
Proof.
  destruct t as [|c r]; [reflexivity |]. cbn [json.skipSpace delim].
  destruct (json.isSpace (val c)); [intros _; apply orb_true_r | discriminate].
Qed.

Lemma parse_parses_to (txt t : string) (v : json.value) :
  parses_to txt v -> json.skipSpace t = "" -> json.parse (txt ++ t) = Some v.
Proof.
  intros P T. unfold json.parse. rewrite (parses_to_skipSpace _ _ _ P).
  destruct P as [_ P].
  rewrite (P _ t); [now rewrite T | rewrite length_append; lia | now apply skipSpace_delim].
Qed.

(** ** A parsed struct through the decoder *)

Lemma fieldOf_exact (names : list string) (k : string) :
  In k names -> json.fieldOf names k = Some k.
Proof.
  intros H. unfold json.fieldOf.
  assert (E : existsb (String.eqb k) names = true).
  { apply existsb_exists. exists k. split; [exact H | apply String.eqb_refl]. }
  now rewrite E.
Qed.

Lemma lookup_absent (k : string) (tbl : list (string * option json.value)) :
  ~ In k (map fst tbl) -> lookup k tbl = None.
Proof.
  unfold lookup. induction tbl as [|[k' ov] tbl IH]; [reflexivity |].
  cbn [map In find fst]. intros H.
  destruct (String.eqb_spec k' k) as [-> | _]; [elim H; now left |].
  apply IH. intros H'. apply H. now right.
Qed.

Lemma lookup_cons (k k' : string) (ov : option json.value)
    (tbl : list (string * option json.value)) :
  lookup k ((k', ov) :: tbl) = if String.eqb k' k then ov else lookup k tbl.
Proof. unfold lookup. cbn [find fst]. now destruct (String.eqb k' k). Qed.

(** Decoding an object whose keys are distinct names of fields: the field
    [n] takes the member of key [n], if there is one. *)
Lemma decodeField_table {A : Type} (names : list string) (n : string)
    (store : json.value -> A -> option A)
    (tbl : list (string * option json.value)) (old : A) :
  NoDup (map fst tbl) -> incl (map fst tbl) names ->
  json.decodeField names n store (members_of tbl) old = stored store (lookup n tbl) old.
Proof.
  revert old. induction tbl as [|[k ov] tbl IH]; intros old D I; [reflexivity |].
  cbn [map fst] in D, I. inversion D as [|? ? Nk D']; subst.
  assert (Ik : In k names) by (apply I; now left).
  assert (I' : incl (map fst tbl) names) by (intros x Hx; apply I; now right).
  rewrite lookup_cons. destruct ov as [v|]; cbn [members_of json.decodeField].
  - rewrite (fieldOf_exact _ _ Ik).
    destruct (String.eqb_spec k n) as [-> | _].
    + cbn [stored]. destruct (store v old) as [new|]; [| reflexivity].
      now rewrite (IH new D' I'), (lookup_absent _ _ Nk).
    + apply (IH old D' I').
  - destruct (String.eqb_spec k n) as [-> | _].
    + now rewrite (IH old D' I'), (lookup_absent _ _ Nk).
    + apply (IH old D' I').
Qed.

Lemma decodeField_names {A : Type} (names : list string) (n : string)
    (store : json.value -> A -> option A)
    (tbl : list (string * option json.value)) (old : A) :
  map fst tbl = names -> nodup string_dec names = names ->
  json.decodeField names n store (members_of tbl) old = stored store (lookup n tbl) old.
Proof.
  intros E D. apply decodeField_table.
  - rewrite E, <- D. apply NoDup_nodup.
  - rewrite E. apply incl_refl.
Qed.

Lemma stored_string (s old : string) :
  old = "" ->
  stored json.store_string
    (if negb (length s =? 0)%nat then Some (tree_string s) else None) old
  = Some (coerced s).
Proof. intros ->. now destruct s. Qed.

Lemma stored_bool (b old : bool) :
  old = false ->
  stored json.store_bool (if negb (negb b) then Some (json.Bool b) else None) old
  = Some b.
Proof. intros ->. now destruct b. Qed.

Lemma ParseInt_AppendInt (i : Z) : int64 i -> json.ParseInt (AppendInt i) = Some i.
Proof.
  intros [L H]. unfold json.ParseInt, AppendInt.
  rewrite NilZero.isi.
  - rewrite DecimalZ.of_to.
    destruct (Z.leb_spec (- 2 ^ 63) i); [| lia].
    destruct (Z.ltb_spec i (2 ^ 63)); [reflexivity | lia].
  - destruct i as [|p|p]; cbn [Z.to_int]; try discriminate.
    intros E. injection E as E. now apply (DecimalPos.Unsigned.to_uint_nonnil p).
  - destruct i as [|p|p]; cbn [Z.to_int]; try discriminate.
    intros E. injection E as E. now apply (DecimalPos.Unsigned.to_uint_nonnil p).
Qed.

Lemma stored_int (i old : Z) :
  old = 0 -> int64 i ->
  stored json.store_int (if negb (i =? 0) then Some (tree_int i) else None) old
  = Some i.
Proof.
  intros -> I. destruct (Z.eqb_spec i 0) as [-> | _]; [reflexivity |].
  cbn [negb stored tree_int json.store_int]. now apply ParseInt_AppendInt.
Qed.

Lemma array_elements_map {A : Type} (elem : json.value -> A -> option A) (zero : A)
    (tree : A -> json.value) (nf : A -> A) (l : list A) :
  (forall x, In x l -> elem (tree x) zero = Some (nf x)) ->
  json.array_elements elem zero (map tree l) [] = Some (map nf l).
Proof.
  induction l as [|x l IH]; intros H; [reflexivity |].
  cbn [map json.array_elements hd tl].
  rewrite (H x (or_introl eq_refl)), IH; [reflexivity |].
  intros y Hy. apply H. now right.
Qed.

Lemma stored_slice {A : Type} (elem : json.value -> A -> option A) (zero : A)
    (tree : A -> json.value) (nf : A -> A) (s old : slice A) :
  old = None ->
  (forall x, In x (elements s) -> elem (tree x) zero = Some (nf x)) ->
  stored (json.store_slice elem zero)
    (if negb (len s =? 0)%nat then Some (tree_slice tree s) else None) old
  = Some (norm_slice nf s).
Proof.
  intros -> H. destruct s as [[|x l]|]; try reflexivity.
  cbn [len List.length Nat.eqb negb stored tree_slice json.store_slice norm_slice].
  cbn [elements] in H. now rewrite (array_elements_map elem zero tree nf (x :: l) H).
Qed.

Lemma table_AttachmentField (f : AttachmentField.t) :
  table_of (typed_AttachmentField f) =
    [ ("title", if negb (length (AttachmentField.Title f) =? 0)%nat
                then Some (tree_string (AttachmentField.Title f)) else None);
      ("value", if negb (length (AttachmentField.Value f) =? 0)%nat
                then Some (tree_string (AttachmentField.Value f)) else None);
      ("short", if negb (negb (AttachmentField.Short f))
                then Some (json.Bool (AttachmentField.Short f)) else None) ].
Proof. reflexivity. Qed.

Ltac lookups :=
  cbn [lookup find fst snd String.eqb Ascii.eqb Bool.eqb].

Lemma unmarshal_tree_AttachmentField (f : AttachmentField.t) :
  json.unmarshal_AttachmentField (tree_AttachmentField f) json.zero_AttachmentField
    = Some (norm_AttachmentField f).
Proof.
  unfold tree_AttachmentField, object_of, json.unmarshal_AttachmentField.
  cbv beta iota zeta.
  rewrite !(decodeField_names json.names_AttachmentField) by reflexivity.
  rewrite table_AttachmentField. lookups.
  rewrite !stored_string by reflexivity. rewrite stored_bool by reflexivity.
  reflexivity.
Qed.

Lemma table_Attachment (a : Attachment.t) :
  table_of (typed_Attachment a) =
    [ ("fallback", if negb (length (Attachment.Fallback a) =? 0)%nat
                   then Some (tree_string (Attachment.Fallback a)) else None);
      ("color", if negb (length (Attachment.Color a) =? 0)%nat
                then Some (tree_string (Attachment.Color a)) else None);
      ("pretext", if negb (length (Attachment.Pretext a) =? 0)%nat
                  then Some (tree_string (Attachment.Pretext a)) else None);
      ("author_name", if negb (length (Attachment.AuthorName a) =? 0)%nat
                      then Some (tree_string (Attachment.AuthorName a)) else None);
      ("author_link", if negb (length (Attachment.AuthorLink a) =? 0)%nat
                      then Some (tree_string (Attachment.AuthorLink a)) else None);
      ("author_icon", if negb (length (Attachment.AuthorIcon a) =? 0)%nat
                      then Some (tree_string (Attachment.AuthorIcon a)) else None);
      ("title", if negb (length (Attachment.Title a) =? 0)%nat
                then Some (tree_string (Attachment.Title a)) else None);
      ("title_link", if negb (length (Attachment.TitleLink a) =? 0)%nat
                     then Some (tree_string (Attachment.TitleLink a)) else None);
      ("text", if negb (length (Attachment.Text a) =? 0)%nat
               then Some (tree_string (Attachment.Text a)) else None);
      ("fields", if negb (len (Attachment.Fields a) =? 0)%nat
                 then Some (tree_slice tree_AttachmentField (Attachment.Fields a))
                 else None);
      ("image_url", if negb (length (Attachment.ImageURL a) =? 0)%nat
                    then Some (tree_string (Attachment.ImageURL a)) else None);
      ("thumb_url", if negb (length (Attachment.ThumbURL a) =? 0)%nat
                    then Some (tree_string (Attachment.ThumbURL a)) else None);
      ("footer", if negb (length (Attachment.Footer a) =? 0)%nat
                 then Some (tree_string (Attachment.Footer a)) else None);
      ("footer_icon", if negb (length (Attachment.FooterIcon a) =? 0)%nat
                      then Some (tree_string (Attachment.FooterIcon a)) else None);
      ("ts", if negb (Attachment.Timestamp a =? 0)
             then Some (tree_int (Attachment.Timestamp a)) else None);
      ("mrkdwn_in", if negb (len (Attachment.MrkdwnIn a) =? 0)%nat
                    then Some (tree_slice tree_string (Attachment.MrkdwnIn a))
                    else None) ].
Proof. reflexivity. Qed.

Lemma unmarshal_tree_Attachment (a : Attachment.t) :
  int64 (Attachment.Timestamp a) ->
  json.unmarshal_Attachment (tree_Attachment a) json.zero_Attachment
    = Some (norm_Attachment a).
Proof.
  intros I.
  unfold tree_Attachment, object_of, json.unmarshal_Attachment.
  cbv beta iota zeta.
  rewrite !(decodeField_names json.names_Attachment) by reflexivity.
  rewrite table_Attachment. lookups.
  rewrite !stored_string by reflexivity.
  rewrite stored_int; [| reflexivity | exact I].
  rewrite (stored_slice _ _ tree_AttachmentField norm_AttachmentField);
    [| reflexivity | intros x _; apply unmarshal_tree_AttachmentField].
  rewrite (stored_slice _ _ tree_string coerced); [| reflexivity | reflexivity].
  reflexivity.
Qed.

Lemma table_Message (m : Message.t) :
  table_of (typed_Message m) =
    [ ("username", if negb (length (Message.Username m) =? 0)%nat
                   then Some (tree_string (Message.Username m)) else None);
      ("channel", if negb (length (Message.Channel m) =? 0)%nat
                  then Some (tree_string (Message.Channel m)) else None);
      ("icon_emoji", if negb (length (Message.IconEmoji m) =? 0)%nat
                     then Some (tree_string (Message.IconEmoji m)) else None);
      ("icon_url", if negb (length (Message.IconURL m) =? 0)%nat
                   then Some (tree_string (Message.IconURL m)) else None);
      ("text", if negb (length (Message.Text m) =? 0)%nat
               then Some (tree_string (Message.Text m)) else None);
      ("attachments", if negb (len (Message.Attachments m) =? 0)%nat
                      then Some (tree_slice tree_Attachment (Message.Attachments m))
                      else None) ].
Proof. reflexivity. Qed.

Lemma unmarshal_tree_Message (m : Message.t) :
  well_typed m ->
  json.unmarshal_Message (tree_Message m) json.zero_Message = Some (norm_Message m).
Proof.
  intros W.
  unfold tree_Message, object_of, json.unmarshal_Message.
  cbv beta iota zeta.
  rewrite !(decodeField_names json.names_Message) by reflexivity.
  rewrite table_Message. lookups.
  rewrite !stored_string by reflexivity.
  rewrite (stored_slice _ _ tree_Attachment norm_Attachment); [reflexivity | reflexivity |].
  intros x Hx. apply unmarshal_tree_Attachment.
    exact (proj1 (Forall_forall _ _) W x Hx).
Qed.

(** * The encoding of every message, decoded *)

(** X7: whatever bytes its strings hold and whatever it has attached, the
    encoding of a message is a JSON text: the parser accepts it, alone or
    followed by white space, and reads the object of the fields written. *)
Theorem Marshal_is_json (m : Message.t) (t : string) :
  json.skipSpace t = "" ->
  json.parse (json.Marshal m ++ t) = Some (tree_Message m).
Proof. intros T. exact (parse_parses_to _ _ _ (parses_to_Message m) T). Qed.

Lemma Marshal_is_json_witness :
  json.skipSpace (str1 (chr 10)) = "" /\
  json.parse (json.Marshal latin1 ++ str1 (chr 10)) = Some (tree_Message latin1).
Proof. split; [reflexivity | apply Marshal_is_json; reflexivity]. Defined.

(** X8: decoding the encoding of a message whose timestamps are int64
    gives the message back with every string coerced to valid UTF-8 and
    every empty slice nil, from the text of Marshal and from what the
    encoder of Send writes alike. *)
Theorem Unmarshal_Marshal_norm (m : Message.t) :
  well_typed m ->
  json.Unmarshal (json.Marshal m) = Some (norm_Message m) /\
  forall b, json.Encode m = inl b -> json.Unmarshal b = Some (norm_Message m).
Proof.
  intros W. split.
  - unfold json.Unmarshal. rewrite <- (append_nil_r (json.Marshal m)).
    rewrite (parse_parses_to _ "" _ (parses_to_Message m) eq_refl).
    now apply unmarshal_tree_Message.
  - intros b E. injection E as <-. unfold json.Unmarshal.
    rewrite (parse_parses_to _ (str1 (chr 10)) _ (parses_to_Message m) eq_refl).
    now apply unmarshal_tree_Message.
Qed.

Lemma Unmarshal_Marshal_norm_witness :
  well_typed alert /\
  json.Unmarshal (json.Marshal alert) = Some (norm_Message alert).
Proof.
  assert (W : well_typed alert) by (repeat constructor; vm_compute; discriminate).
  split; [exact W | exact (proj1 (Unmarshal_Marshal_norm alert W))].
Defined.

(** * Valid UTF-8 *)

Lemma one_rune_ascii (b : byte) : val b < 0x80 -> one_rune (str1 b).
Proof.
  intros A. split; [discriminate |]. intros rest.
  unfold utf8.valid_body. cbn [str1 append at_ get]. unfold utf8.RuneSelf.
  destruct (Z.ltb_spec (val b) 0x80); [reflexivity | lia].
Qed.

Lemma one_rune_multi (c : Z) (enc : string) : is_rune_of c enc -> one_rune enc.
Proof.
  intros (L & _ & Hi & _ & Dec). split.
  - intros ->. cbn in L. lia.
  - intros rest. unfold utf8.valid_body. rewrite Dec.
    destruct enc as [|b enc]; [cbn in L; lia |].
    cbn [all_bytes] in Hi. apply andb_true_iff in Hi. destruct Hi as [Hi _].
    apply Z.leb_le in Hi. cbn [append at_ get]. unfold utf8.RuneSelf.
    destruct (Z.ltb_spec (val b) 0x80); [lia |].
    destruct (Nat.eqb_spec (length (String b enc)) 1); [lia | reflexivity].
Qed.

Lemma one_rune_RuneError : one_rune (utf8.EncodeRune utf8.RuneError).
Proof.
  apply (one_rune_multi
           ((val (chr 0xEF) - 0xE0) * 4096 + (val (chr 0xBF) - 0x80) * 64
            + (val (chr 0xBD) - 0x80))).
  apply (Decode_3 (chr 0xEF) (chr 0xBF) (chr 0xBD) utf8.s3 0x80 0xBF).
  - reflexivity.
  - cbn. lia.
  - right. left. repeat split; cbn; lia.
  - cbn. lia.
  - cbn. lia.
Qed.

Lemma runes_one (out : string) : one_rune out -> runes out.
Proof.
  intros H. rewrite <- (append_nil_r out). apply runes_cons; [exact H | constructor].
Qed.

Lemma runes_append (a b : string) : runes a -> runes b -> runes (a ++ b).
Proof.
  intros A B. induction A as [|out s O A IH]; [exact B |].
  rewrite append_assoc. now apply runes_cons.
Qed.

Lemma runes_ascii (s : string) :
  all_bytes (fun c => c <? 0x80) s = true -> runes s.
Proof.
  induction s as [|b s IH]; [constructor |]. cbn [all_bytes]. intros H.
  apply andb_true_iff in H. destruct H as [Hb H]. apply Z.ltb_lt in Hb.
  change (String b s) with (str1 b ++ s).
  apply runes_cons; [now apply one_rune_ascii | now apply IH].
Qed.

Lemma runes_valid_from (s : string) :
  runes s -> forall fuel, utf8.valid_from fuel s = true.
Proof.
  intros R. induction R as [|out s [N O] R IH]; intros fuel; [now destruct fuel |].
  destruct fuel as [|fuel]; [reflexivity |].
  destruct out as [|c out]; [now elim N |].
  cbn [append utf8.valid_from].
  change (String c (out ++ s)) with (String c out ++ s).
  rewrite O, drop_append. apply IH.
Qed.

(** A sequence of encoded runes is valid UTF-8. *)
Lemma runes_valid (s : string) : runes s -> utf8.ValidString s = true.
Proof. intros R. now apply runes_valid_from. Qed.

Lemma coerce_body_rune (b : byte) (rest : string) :
  one_rune (fst (coerce_body (String b rest))).
Proof.
  unfold coerce_body. cbn [at_ get]. unfold utf8.RuneSelf.
  destruct (Z.ltb_spec (val b) 0x80) as [A | A].
  - cbn [fst take]. now apply (one_rune_ascii b).
  - destruct (DecodeRune_nonascii b rest A) as [E | (c & enc & r & E & I)].
    + rewrite E. cbn [Z.eqb Pos.eqb Nat.eqb andb utf8.RuneError fst].
      apply one_rune_RuneError.
    + pose proof I as (L & _ & _ & _ & Dec).
      rewrite E at 1. rewrite Dec.
      assert (N : (length enc =? 1)%nat = false) by (apply Nat.eqb_neq; lia).
      rewrite N, andb_false_r. cbn [fst]. rewrite E, take_append.
      exact (one_rune_multi c enc I).
Qed.

Lemma coerce_loop_runes (fuel : nat) (s : string) : runes (coerce_loop fuel s).
Proof.
  revert s. induction fuel as [|fuel IH]; intros s; [constructor |].
  destruct s as [|b rest]; [constructor |]. cbn [coerce_loop].
  pose proof (coerce_body_rune b rest) as O.
  destruct (coerce_body (String b rest)) as [out n]. cbn [fst] in O.
  apply runes_cons; [exact O | apply IH].
Qed.

(** What the decoder makes of a string literal of the encoder is valid
    UTF-8, and coercing it again changes nothing. *)
Lemma coerced_is_valid (s : string) : utf8.ValidString (coerced s) = true.
Proof. apply runes_valid, coerce_loop_runes. Qed.

Lemma coerced_idempotent (s : string) : coerced (coerced s) = coerced s.
Proof. apply coerced_valid, coerced_is_valid. Qed.

(** ** The encoding is valid UTF-8 *)

Lemma plain_runes (s : string) : all_bytes plain_byte s = true -> runes s.
Proof.
  intros H. apply runes_ascii. revert H. apply all_bytes_weaken.
  intros c H. unfold plain_byte in H. now apply andb_true_iff in H.
Qed.

(** What one round of the encoder's loop writes is a sequence of runes,
    whatever the input. *)
Lemma appendString_body_runes (b : byte) (rest : string) :
  runes (fst (json.appendString_body (String b rest))).
Proof.
  destruct (Z.lt_ge_cases (val b) 0x80) as [A | A].
  - apply runes_ascii. clear - A. destruct b as [b0 b1 b2 b3 b4 b5 b6 b7].
    destruct b7;
      [exfalso; revert A; destruct b0, b1, b2, b3, b4, b5, b6; vm_compute;
       intros H; discriminate H |].
    destruct b0, b1, b2, b3, b4, b5, b6; reflexivity.
  - unfold json.appendString_body. cbn [at_ get]. unfold utf8.RuneSelf, utf8.UTFMax.
    destruct (Z.ltb_spec (val b) 0x80) as [? | _]; [lia |].
    change (take 4 (String b rest)) with (String b (take 3 rest)).
    destruct (DecodeRune_nonascii b (take 3 rest) A) as [E | (c & enc & r & E & I)].
    + rewrite E. apply runes_ascii. reflexivity.
    + pose proof I as (L & _ & _ & _ & Dec). rewrite E, Dec.
      assert (N : (length enc =? 1)%nat = false) by (apply Nat.eqb_neq; lia).
      rewrite N, andb_false_r.
      destruct ((c =? 0x2028) || (c =? 0x2029)) eqn:Q.
      * apply runes_ascii.
        apply orb_true_iff in Q. destruct Q as [Q | Q]; apply Z.eqb_eq in Q; subst c;
          reflexivity.
      * cbn [fst].
        replace (take (length enc) (String b rest)) with enc.
        { apply runes_one. exact (one_rune_multi c enc I). }
        { rewrite <- (take_take (length enc) 4) by lia.
          change (take 4 (String b rest)) with (String b (take 3 rest)).
          now rewrite E, take_append. }
Qed.

Lemma appendString_loop_runes (fuel : nat) (s : string) :
  runes (json.appendString_loop fuel s).
Proof.
  revert s. induction fuel as [|fuel IH]; intros s; [constructor |].
  destruct s as [|b rest]; [constructor |]. cbn [json.appendString_loop].
  pose proof (appendString_body_runes b rest) as B.
  destruct (json.appendString_body (String b rest)) as [out n]. cbn [fst] in B.
  apply runes_append; [exact B | apply IH].
Qed.

Lemma appendString_runes (s : string) : runes (json.appendString s).
Proof.
  unfold json.appendString.
  change (String dquote (json.appendString_loop (length s) s ++ str1 dquote))
    with (str1 dquote ++ json.appendString_loop (length s) s ++ str1 dquote).
  apply runes_append; [now apply runes_ascii |].
  apply runes_append; [apply appendString_loop_runes | now apply runes_ascii].
Qed.

(** X9: whatever bytes the strings of a message hold, its JSON encoding is
    valid UTF-8, and so is the line the encoder of Send writes. *)
Theorem Marshal_valid_utf8 (m : Message.t) :
  utf8.ValidString (json.Marshal m) = true /\
  utf8.ValidString (json.Marshal m ++ str1 (chr 10)) = true.
Proof.
  pose proof (text_Message runes plain_runes runes_append appendString_runes m) as R.
  split; apply runes_valid; [exact R |].
  apply runes_append; [exact R | now apply runes_ascii].
Qed.

(** * The round trip, attachments included *)

(** The text of a message, followed by white space at most, is decoded to
    the message normalised. *)
Lemma Unmarshal_text (m : Message.t) (t : string) :
  well_typed m -> json.skipSpace t = "" ->
  json.Unmarshal (json.Marshal m ++ t) = Some (norm_Message m).
Proof.
  intros W T. unfold json.Unmarshal.
  rewrite (parse_parses_to _ t _ (parses_to_Message m) T).
  now apply unmarshal_tree_Message.
Qed.

Lemma map_fixed {A : Type} (ok : A -> Prop) (nf : A -> A) (l : list A) :
  Forall ok l -> (forall x, ok x -> nf x = x) -> map nf l = l.
Proof.
  intros F H. induction F as [|y l Hy F IH]; [reflexivity |].
  cbn [map]. now rewrite (H y Hy), IH.
Qed.

Lemma norm_slice_canonical {A : Type} (ok : A -> Prop) (nf : A -> A) (s : slice A) :
  canonical_slice ok s -> (forall x, ok x -> nf x = x) -> norm_slice nf s = s.
Proof.
  intros [N F] H. destruct s as [[|x l]|]; [now elim N | | reflexivity].
  cbn [norm_slice elements] in *. f_equal. now apply (map_fixed ok).
Qed.

Lemma norm_AttachmentField_canonical (f : AttachmentField.t) :
  canonical_AttachmentField f -> norm_AttachmentField f = f.
Proof.
  intros [T V]. destruct f as [title value short]. unfold norm_AttachmentField.
  cbn [AttachmentField.Title AttachmentField.Value AttachmentField.Short] in *.
  now rewrite (coerced_valid _ T), (coerced_valid _ V).
Qed.

Lemma norm_Attachment_canonical (a : Attachment.t) :
  canonical_Attachment a -> norm_Attachment a = a.
Proof.
  intros (S & F & _ & M). destruct a. unfold norm_Attachment.
  cbn [Attachment.Fallback Attachment.Color Attachment.Pretext Attachment.AuthorName
       Attachment.AuthorLink Attachment.AuthorIcon Attachment.Title
       Attachment.TitleLink Attachment.Text Attachment.Fields Attachment.ImageURL
       Attachment.ThumbURL Attachment.Footer Attachment.FooterIcon
       Attachment.Timestamp Attachment.MrkdwnIn] in *.
  repeat match goal with
         | H : Forall _ (_ :: _) |- _ =>
             let V := fresh "V" in
             inversion H as [|? ? V ?]; subst; clear H;
             rewrite (coerced_valid _ V)
         end.
  rewrite (norm_slice_canonical _ _ _ F norm_AttachmentField_canonical).
  rewrite (norm_slice_canonical _ _ _ M coerced_valid).
  reflexivity.
Qed.

Lemma norm_Message_canonical (m : Message.t) :
  canonical_Message m -> norm_Message m = m.
Proof.
  intros [(U & C & E & I & T) A]. destruct m. unfold norm_Message.
  cbn [Message.Username Message.Channel Message.IconEmoji Message.IconURL
       Message.Text Message.Attachments] in *.
  rewrite (coerced_valid _ U), (coerced_valid _ C), (coerced_valid _ E),
    (coerced_valid _ I), (coerced_valid _ T).
  now rewrite (norm_slice_canonical _ _ _ A norm_Attachment_canonical).
Qed.

Lemma canonical_well_typed (m : Message.t) : canonical_Message m -> well_typed m.
Proof.
  intros [_ [_ F]]. unfold well_typed. revert F. apply Forall_impl.
  now intros a (_ & _ & I & _).
Qed.

Lemma canonical_norm_slice {A : Type} (ok : A -> Prop) (nf : A -> A) (s : slice A) :
  (forall x, In x (elements s) -> ok (nf x)) -> canonical_slice ok (norm_slice nf s).
Proof.
  intros H. destruct s as [[|x l]|];
    [split; [discriminate | constructor] | | split; [discriminate | constructor]].
  split; [discriminate |]. cbn [norm_slice elements] in *.
  apply Forall_forall. intros y Hy. apply in_map_iff in Hy.
  destruct Hy as (z & <- & Hz). now apply H.
Qed.

Lemma canonical_norm_Attachment (a : Attachment.t) :
  int64 (Attachment.Timestamp a) -> canonical_Attachment (norm_Attachment a).
Proof.
  intros I. unfold canonical_Attachment, norm_Attachment.
  cbn [Attachment.Fallback Attachment.Color Attachment.Pretext Attachment.AuthorName
       Attachment.AuthorLink Attachment.AuthorIcon Attachment.Title
       Attachment.TitleLink Attachment.Text Attachment.Fields Attachment.ImageURL
       Attachment.ThumbURL Attachment.Footer Attachment.FooterIcon
       Attachment.Timestamp Attachment.MrkdwnIn].
  split; [repeat constructor; apply coerced_is_valid |].
  split; [| split; [exact I |]].
  - apply canonical_norm_slice. intros f _. split; apply coerced_is_valid.
  - apply canonical_norm_slice. intros s _. apply coerced_is_valid.
Qed.

Lemma canonical_norm_Message (m : Message.t) :
  well_typed m -> canonical_Message (norm_Message m).
Proof.
  intros W. split.
  - repeat split; apply coerced_is_valid.
  - cbn [norm_Message Message.Attachments]. apply canonical_norm_slice.
    intros a Ha. apply canonical_norm_Attachment.
    exact (proj1 (Forall_forall _ _) W a Ha).
Qed.

Lemma canonical_report : canonical_Message report.
Proof.
  split; [repeat split |].
  split; [discriminate |].
  repeat constructor; try discriminate; vm_compute; discriminate.
Qed.

(** X10: a message whose strings are valid UTF-8, whose slices are nil
    when empty and whose timestamps are int64 comes back from the round
    trip exactly as it was, with all its attachments and their fields;
    from the text of Marshal and from what the encoder of Send writes. *)
Theorem Unmarshal_Marshal_exact (m : Message.t) :
  canonical_Message m ->
  json.Unmarshal (json.Marshal m) = Some m /\
  forall b, json.Encode m = inl b -> json.Unmarshal b = Some m.
Proof.
  intros C. pose proof (canonical_well_typed m C) as W.
  split.
  - rewrite <- (append_nil_r (json.Marshal m)).
    rewrite (Unmarshal_text m "" W eq_refl). now rewrite norm_Message_canonical.
  - intros b [= <-].
    rewrite (Unmarshal_text m (str1 (chr 10)) W eq_refl).
    now rewrite norm_Message_canonical.
Qed.

Lemma Unmarshal_Marshal_exact_witness :
  canonical_Message report /\
  json.Unmarshal (json.Marshal report) = Some report.
Proof.
  split; [exact canonical_report |].
  exact (proj1 (Unmarshal_Marshal_exact report canonical_report)).
Defined.

(** X11: the encoding is injective on the messages that the round trip
    gives back exactly: two of them that have the same encoding are
    equal. *)
Theorem Marshal_injective (m m' : Message.t) :
  canonical_Message m -> canonical_Message m' ->
  json.Marshal m = json.Marshal m' -> m = m'.
Proof.
  intros C C' E.
  pose proof (Unmarshal_text m "" (canonical_well_typed m C) eq_refl) as U.
  pose proof (Unmarshal_text m' "" (canonical_well_typed m' C') eq_refl) as U'.
  rewrite (norm_Message_canonical m C) in U.
  rewrite (norm_Message_canonical m' C') in U'.
  rewrite E, U' in U. now injection U.
Qed.

Lemma Marshal_injective_witness :
  canonical_Message report /\ canonical_Message report /\
  (json.Marshal report = json.Marshal report -> report = report).
Proof.
  split; [exact canonical_report |]. split; [exact canonical_report |].
  exact (Marshal_injective report report canonical_report canonical_report).
Defined.

(** X12: whatever message comes back from a round trip is one that the
    round trip gives back exactly: its strings are valid UTF-8, its empty
    slices nil, and encoding and decoding it again changes nothing. *)
Theorem roundtrip_settles (m m1 : Message.t) :
  well_typed m ->
  json.Unmarshal (json.Marshal m) = Some m1 ->
  canonical_Message m1 /\
  json.Unmarshal (json.Marshal m1) = Some m1.
Proof.
  intros W U. rewrite <- (append_nil_r (json.Marshal m)) in U.
  rewrite (Unmarshal_text m "" W eq_refl) in U. injection U as <-.
  pose proof (canonical_norm_Message m W) as C.
  split; [exact C |].
  rewrite <- (append_nil_r (json.Marshal (norm_Message m))).
  rewrite (Unmarshal_text _ "" (canonical_well_typed _ C) eq_refl).
  now rewrite (norm_Message_canonical _ C).
Qed.

Lemma roundtrip_settles_witness :
  well_typed garbled /\
  json.Unmarshal (json.Marshal garbled) = Some (norm_Message garbled) /\
  canonical_Message (norm_Message garbled) /\
  json.Unmarshal (json.Marshal (norm_Message garbled)) = Some (norm_Message garbled).
Proof.
  assert (W : well_typed garbled) by constructor.
  assert (U : json.Unmarshal (json.Marshal garbled) = Some (norm_Message garbled))
    by (vm_compute; reflexivity).
  split; [exact W |]. split; [exact U |].
  exact (roundtrip_settles garbled (norm_Message garbled) W U).
Defined.

(** X13: the body of the request Send makes is a JSON text that decodes
    to the message sent, normalised: what the server reads is the message
    with its strings coerced to valid UTF-8 and its empty slices nil. *)
Theorem Client_Send_body_decodes (w : World) (pc pm : ptr) :
  well_typed (Messages w pm) ->
  exists req,
    Requests (snd (Client_Send (Some pc) (Some pm) w)) = (Requests w ++ [req])%list /\
    http.ContentType req = "application/json" /\
    json.Unmarshal (http.Payload req) = Some (norm_Message (Messages w pm)).
Proof.
  intros W. exists (request_of w pc pm). split; [| split].
  - destruct (client_of w pc (request_of w pc pm)) as [r | err] eqn:A.
    + now rewrite (Client_Send_response _ _ _ _ A).
    + now rewrite (Client_Send_no_response _ _ _ _ A).
  - reflexivity.
  - cbn [request_of http.Payload]. now apply Unmarshal_text.
Qed.

Lemma Client_Send_body_decodes_witness :
  well_typed (Messages (world (canned 200 "200 OK" "ok" None) report) 0%nat) /\
  exists req,
    Requests (snd (Client_Send (Some 0%nat) (Some 0%nat)
                     (world (canned 200 "200 OK" "ok" None) report))) =
      (Requests (world (canned 200 "200 OK" "ok" None) report) ++ [req])%list /\
    http.ContentType req = "application/json" /\
    json.Unmarshal (http.Payload req) =
      Some (norm_Message (Messages (world (canned 200 "200 OK" "ok" None) report) 0%nat)).
Proof.
  assert (W : well_typed (Messages (world (canned 200 "200 OK" "ok" None) report) 0%nat))
    by exact (canonical_well_typed report canonical_report).
  split; [exact W |].
  exact (Client_Send_body_decodes (world (canned 200 "200 OK" "ok" None) report)
           0%nat 0%nat W).
Defined.

(** * What the objects hold *)

Lemma concat_member (sep x : string) (l : list string) :
  In x l -> exists pre post, concat sep l = pre ++ x ++ post.
Proof.
  induction l as [|y l IH]; [contradiction |]. intros H.
  destruct l as [|z l].
  - destruct H as [-> | []]. exists "", "". cbn [concat append].
    now rewrite append_nil_r.
  - rewrite concat_cons2. destruct H as [-> | H].
    + now exists "", (sep ++ concat sep (z :: l)).
    + destruct (IH H) as (pre & post & ->).
      exists (y ++ sep ++ pre), post. now rewrite !append_assoc.
Qed.

(** Every field that is not omitted is in the object, as its key, a colon
    and its encoding. *)
Lemma structEncoder_member (f : json.field) (fs : list json.field) :
  In f fs -> json.written f = true ->
  Contains (json.structEncoder fs) (member_text f) = true.
Proof.
  intros I W. rewrite structEncoder_written. unfold object_text.
  assert (M : In (member_text f) (map member_text (filter json.written fs))).
  { apply in_map, filter_In. now split. }
  destruct (concat_member "," _ _ M) as (pre & post & ->).
  replace ("{" ++ (pre ++ member_text f ++ post) ++ "}")
    with (("{" ++ pre) ++ member_text f ++ (post ++ "}"))
    by now rewrite !append_assoc.
  apply Contains_intro.
Qed.

(** A string of bytes that need no escape is written as it is. *)
Lemma appendString_loop_plain (fuel : nat) (s : string) :
  all_bytes json.htmlSafeSet s = true -> (length s <= fuel)%nat ->
  json.appendString_loop fuel s = s.
Proof.
  revert s. induction fuel as [|fuel IH]; intros s P L.
  - destruct s; [reflexivity | cbn in L; lia].
  - destruct s as [|b rest]; [reflexivity |].
    cbn [all_bytes] in P. apply andb_true_iff in P. destruct P as [Pb P].
    cbn [json.appendString_loop]. unfold json.appendString_body.
    cbn [at_ get]. rewrite Pb.
    assert (A : (val b <? utf8.RuneSelf) = true).
    { unfold json.htmlSafeSet in Pb. apply andb_true_iff in Pb. destruct Pb as [Pb _].
      apply andb_true_iff in Pb. now destruct Pb as [_ Pb]. }
    rewrite A. cbn [take drop append].
    rewrite IH; [reflexivity | exact P | cbn in L; lia].
Qed.

Lemma appendString_plain (s : string) :
  all_bytes json.htmlSafeSet s = true ->
  json.appendString s = String dquote (s ++ str1 dquote).
Proof.
  intros P. unfold json.appendString. now rewrite appendString_loop_plain.
Qed.

(** X14: a string field of a message that is not empty and is made of
    bytes that need no escape (ASCII from space on, without the double
    quote, the backslash, the angle brackets and the ampersand) is in the
    encoding verbatim, between double quotes, after its key and a colon. *)
Theorem Marshal_plain_string (m : Message.t) (kv : string * string) :
  In kv (string_pairs m) ->
  snd kv <> "" ->
  all_bytes json.htmlSafeSet (snd kv) = true ->
  Contains (json.Marshal m)
    (String dquote (fst kv ++ sq "':'" ++ snd kv ++ str1 dquote)) = true.
Proof.
  intros I N P.
  assert (F : In (string_field kv) (json.fields_Message m)).
  { change (json.fields_Message m)
      with (map string_field (string_pairs m)
              ++ [json.tagged "attachments,omitempty"
                    (json.sliceValue json.marshal_Attachment (Message.Attachments m))])%list.
    apply in_or_app. left. now apply in_map. }
  assert (W : json.written (string_field kv) = true).
  { unfold json.written, string_field.
    cbn [json.omitEmpty json.fv json.isEmptyValue json.stringValue andb].
    now apply written_string. }
  assert (E : member_text (string_field kv)
              = String dquote (fst kv ++ sq "':'" ++ snd kv ++ str1 dquote)).
  { unfold member_text, string_field.
    cbn [json.name json.fv json.encoded json.stringValue].
    rewrite (appendString_plain _ P).
    assert (K : json.appendString (fst kv) = String dquote (fst kv ++ str1 dquote)).
    { unfold string_pairs in I. cbn [In] in I.
      repeat (destruct I as [<- | I]; [reflexivity |]). contradiction. }
    rewrite K. cbn [append]. rewrite append_assoc. reflexivity. }
  rewrite <- E. exact (structEncoder_member _ _ F W).
Qed.

Lemma Marshal_plain_string_witness :
  In ("text", "hello") (string_pairs hello) /\
  snd ("text", "hello") <> "" /\
  all_bytes json.htmlSafeSet (snd ("text", "hello")) = true /\
  Contains (json.Marshal hello)
    (String dquote (fst ("text", "hello") ++ sq "':'" ++ snd ("text", "hello")
                      ++ str1 dquote)) = true.
Proof.
  assert (I : In ("text", "hello") (string_pairs hello))
    by (cbn; tauto).
  assert (N : snd ("text", "hello") <> "") by discriminate.
  assert (P : all_bytes json.htmlSafeSet (snd ("text", "hello")) = true)
    by reflexivity.
  split; [exact I |]. split; [exact N |]. split; [exact P |].
  exact (Marshal_plain_string hello ("text", "hello") I N P).
Defined.

Lemma NoDup_keys (fs : list json.field) :
  NoDup (map json.name fs) -> NoDup (json.keys fs).
Proof.
  unfold json.keys. induction fs as [|f fs IH]; intros D; [constructor |].
  cbn [map] in D. inversion D as [|? ? Nf D']; subst.
  cbn [filter]. destruct (json.written f); [| now apply IH].
  cbn [map]. constructor; [| now apply IH].
  intros H. apply Nf. apply in_map_iff in H. destruct H as (g & E & G).
  apply filter_In in G. apply in_map_iff. exists g. now split.
Qed.

Lemma NoDup_names (names : list string) :
  nodup string_dec names = names -> NoDup names.
Proof. intros <-. apply NoDup_nodup. Qed.

(** X15: in each of the three structs the JSON names that the tags give
    are pairwise distinct, and they are the names the decoder looks up:
    no field is lost to a conflict of names, and no object that is written
    has a key twice. *)
Theorem struct_keys_distinct :
  (forall f, map json.name (json.fields_AttachmentField f) = json.names_AttachmentField
             /\ NoDup (json.names_AttachmentField)
             /\ NoDup (json.keys (json.fields_AttachmentField f))) /\
  (forall a, map json.name (json.fields_Attachment a) = json.names_Attachment
             /\ NoDup (json.names_Attachment)
             /\ NoDup (json.keys (json.fields_Attachment a))) /\
  (forall m, map json.name (json.fields_Message m) = json.names_Message
             /\ NoDup (json.names_Message)
             /\ NoDup (json.keys (json.fields_Message m))).
Proof.
  assert (F : NoDup json.names_AttachmentField) by now apply NoDup_names.
  assert (A : NoDup json.names_Attachment) by now apply NoDup_names.
  assert (M : NoDup json.names_Message) by now apply NoDup_names.
  repeat split; try assumption; now apply NoDup_keys.
Qed.
